(** * tada-app: the reconciliation core of [script.js]

    A shallow embedding of the task list of [script.js].  The script keeps
    its whole state in the DOM: every task is an [<li>] whose [dataset]
    attributes, class list, checkbox and text nodes are the record of the
    task.  The embedding keeps exactly the state that the script reads back
    (data attributes, the classes [completed] and [collapsed], checkbox
    states, text contents, the nested sub-step elements) and leaves out the
    nodes that are only written for display (progress bar, badges, icons,
    timer read-out). *)

From Stdlib Require Import ZArith QArith List Ascii String Lia Permutation Sorted.
From stdpp Require Import base option list strings gmap.

Local Open Scope Z_scope.
#[local] Set Warnings "-clear-no-such-hyp".

(** ** JavaScript values *)

Module JS.

(** A JavaScript string is a sequence of UTF-16 code units. *)
Abbreviation jsstring := (list N).

(** String literals of the script, all ASCII. *)
Definition js (s : string) : jsstring :=
  (λ a, N_of_ascii a) <$> list_ascii_of_string s.

(** [x || d] where [x] is a string or [undefined]: the empty string is
    falsy like [undefined]. *)
Definition or_else (x : option jsstring) (d : jsstring) : jsstring :=
  match x with
  | Some (c :: s) => c :: s
  | _ => d
  end.

(** Truthiness of a string-or-undefined. *)
Definition truthy (x : option jsstring) : bool :=
  match x with
  | Some (_ :: _) => true
  | _ => false
  end.

(** The numbers the script computes with: integers (time stamps, minutes,
    weights), the two infinities and NaN.  An integer stands for the double
    of the same value, which is exact up to 2^53 in magnitude. *)
Inductive number :=
  | Fin (z : Z)
  | PosInf
  | NegInf
  | NaN.

#[global] Instance number_eq_dec : EqDecision number.
Proof. solve_decision. Defined.

(** [a - b] *)
Definition sub (a b : number) : number :=
  match a, b with
  | NaN, _ | _, NaN => NaN
  | Fin x, Fin y => Fin (x - y)
  | Fin _, PosInf => NegInf
  | Fin _, NegInf => PosInf
  | PosInf, PosInf => NaN
  | PosInf, _ => PosInf
  | NegInf, NegInf => NaN
  | NegInf, _ => NegInf
  end.

(** [a + b] *)
Definition add (a b : number) : number :=
  match a, b with
  | NaN, _ | _, NaN => NaN
  | Fin x, Fin y => Fin (x + y)
  | PosInf, NegInf | NegInf, PosInf => NaN
  | PosInf, _ | _, PosInf => PosInf
  | NegInf, _ | _, NegInf => NegInf
  end.

(** [a < 0] and [a > 0]; both are false on NaN. *)
Definition is_neg (a : number) : bool :=
  match a with
  | Fin z => z <? 0
  | NegInf => true
  | _ => false
  end.

Definition is_pos (a : number) : bool :=
  match a with
  | Fin z => 0 <? z
  | PosInf => true
  | _ => false
  end.

(** [WhiteSpace] and [LineTerminator] code units, the set stripped by
    [String.prototype.trim] and matched by [\s]. *)
Definition isWhiteSpace (c : N) : bool :=
  ((9 <=? c) && (c <=? 13) || (c =? 32) || (c =? 160) || (c =? 5760)
   || (8192 <=? c) && (c <=? 8202) || (c =? 8232) || (c =? 8233)
   || (c =? 8239) || (c =? 8287) || (c =? 12288) || (c =? 65279))%N.

Fixpoint trimStart (s : jsstring) : jsstring :=
  match s with
  | c :: s' => if isWhiteSpace c then trimStart s' else s
  | [] => []
  end.

Definition trimEnd (s : jsstring) : jsstring :=
  reverse (trimStart (reverse s)).

Definition trim (s : jsstring) : jsstring := trimEnd (trimStart s).

(** Decimal digits. *)
Definition isDigit (c : N) : bool := ((48 <=? c) && (c <=? 57))%N.

Definition digitValue (c : N) : Z := Z.of_N c - 48.

(** Value of a run of digits read left to right, with accumulator. *)
Fixpoint digitsValue (acc : Z) (s : jsstring) : Z :=
  match s with
  | c :: s' => digitsValue (10 * acc + digitValue c) s'
  | [] => acc
  end.

(** The longest prefix of decimal digits. *)
Fixpoint takeDigits (s : jsstring) : jsstring :=
  match s with
  | c :: s' => if isDigit c then c :: takeDigits s' else []
  | [] => []
  end.

(** The digits of [parseInt] after the sign: the longest run of decimal
    digits, NaN when it is empty. *)
Definition parseDigits (sign : Z) (s : jsstring) : number :=
  match takeDigits s with
  | [] => NaN
  | ds => Fin (sign * digitsValue 0 ds)
  end.

(** [parseInt(s, 10)]: leading white space is skipped, an optional sign is
    read, then the longest run of decimal digits.  Whatever follows the
    digits is ignored.  The result is the integer the digits spell; the
    script gets the double nearest to it, which is the same number as long
    as it is at most 2^53 in magnitude.  The properties of values that the
    user types carry this bound. *)
Definition parseInt (s : jsstring) : number :=
  match trimStart s with
  | c :: r =>
      if (c =? 45)%N then parseDigits (-1) r
      else if (c =? 43)%N then parseDigits 1 r
      else parseDigits 1 (c :: r)
  | [] => NaN
  end.

(** Decimal digits of a natural number, most significant first; [fuel]
    bounds the number of digits. *)
Fixpoint digitsOf (fuel : nat) (n : N) (acc : jsstring) : jsstring :=
  match fuel with
  | O => acc
  | S fuel' =>
      let acc' := (48 + n mod 10)%N :: acc in
      if (n <? 10)%N then acc' else digitsOf fuel' (n / 10)%N acc'
  end.

Definition stringOfN (n : N) : jsstring :=
  digitsOf (S (N.to_nat (N.log2 n))) n [].

(** [String(x)] for a number.  An integer is printed in plain decimal, as
    the script prints every integer up to 2^53 in magnitude; a larger double
    is printed by the script with its shortest digits, and from 10^21 on
    with an exponent, which is outside this definition. *)
Definition String_ (x : number) : jsstring :=
  match x with
  | Fin z =>
      if z <? 0 then 45%N :: stringOfN (Z.to_N (- z)) else stringOfN (Z.to_N z)
  | PosInf => js "Infinity"
  | NegInf => js "-Infinity"
  | NaN => js "NaN"
  end.

(** [a < b] on numbers; false as soon as one side is NaN. *)
Definition ltb (a b : number) : bool :=
  match a, b with
  | NaN, _ | _, NaN => false
  | Fin x, Fin y => x <? y
  | NegInf, NegInf => false
  | NegInf, _ => true
  | _, PosInf => match a with PosInf => false | _ => true end
  | _, _ => false
  end.

(** [a <= b] and [a >= b] on numbers. *)
Definition leb (a b : number) : bool :=
  match a, b with
  | NaN, _ | _, NaN => false
  | _, _ => negb (ltb b a)
  end.

(** [Number.isNaN(a)] *)
Definition isNaN (a : number) : bool :=
  match a with NaN => true | _ => false end.

(** [String(b)] for a boolean. *)
Definition String_bool (b : bool) : jsstring :=
  if b then js "true" else js "false".

(** [s.padStart(2, '0')] *)
Definition padStart2 (s : jsstring) : jsstring :=
  match s with
  | [] => js "00"
  | [c] => [48%N; c]
  | _ => s
  end.

End JS.
Import JS.

(** ** The DOM state of the task list *)

(** A sub-step [<li class="substep">]. *)
Record SubstepLi := {
  sub_dataset : gmap string jsstring;   (* subLi.dataset *)
  sub_classList : gset string;          (* subLi.classList *)
  sub_checkbox : bool;                  (* .substep-checkbox checked *)
  sub_text : jsstring;                  (* .substep-text textContent *)
  sub_timerInterval : option number     (* subLi._timerInterval *)
}.

(** A top-level task [<li class="task-item">].  The property
    [_timerInterval] holds the running ticker, if any, together with the
    variable [elapsed] that the ticker's closure counts in. *)
Record TaskLi := {
  dataset : gmap string jsstring;       (* li.dataset *)
  classList : gset string;              (* li.classList *)
  checkbox : bool;                      (* .task-checkbox checked *)
  text : jsstring;                      (* .task-text textContent *)
  desc : jsstring;                      (* .task-desc value *)
  timerInterval : option number;        (* li._timerInterval *)
  substeps : list SubstepLi             (* .substeps-list > li *)
}.

Definition set_dataset (d : gmap string jsstring) (li : TaskLi) : TaskLi :=
  {| dataset := d; classList := classList li; checkbox := checkbox li;
     text := text li; desc := desc li; timerInterval := timerInterval li;
     substeps := substeps li |}.

Definition set_classList (c : gset string) (li : TaskLi) : TaskLi :=
  {| dataset := dataset li; classList := c; checkbox := checkbox li;
     text := text li; desc := desc li; timerInterval := timerInterval li;
     substeps := substeps li |}.

Definition set_checkbox (b : bool) (li : TaskLi) : TaskLi :=
  {| dataset := dataset li; classList := classList li; checkbox := b;
     text := text li; desc := desc li; timerInterval := timerInterval li;
     substeps := substeps li |}.

Definition set_desc (v : jsstring) (li : TaskLi) : TaskLi :=
  {| dataset := dataset li; classList := classList li; checkbox := checkbox li;
     text := text li; desc := v; timerInterval := timerInterval li;
     substeps := substeps li |}.

(** The [value] of the [<textarea>] of a task (line 1565) after it was
    given the text [raw]: every line break of the text, CR LF or a lone CR,
    reads back as LF. *)
Fixpoint textareaValue (raw : jsstring) : jsstring :=
  match raw with
  | [] => []
  | c :: r =>
      if (c =? 13)%N then
        match r with
        | d :: r' => if (d =? 10)%N then 10%N :: textareaValue r' else 10%N :: textareaValue r
        | [] => [10%N]
        end
      else c :: textareaValue r
  end.

Definition set_substeps (l : list SubstepLi) (li : TaskLi) : TaskLi :=
  {| dataset := dataset li; classList := classList li; checkbox := checkbox li;
     text := text li; desc := desc li; timerInterval := timerInterval li;
     substeps := l |}.

Definition set_timerInterval (t : option number) (li : TaskLi) : TaskLi :=
  {| dataset := dataset li; classList := classList li; checkbox := checkbox li;
     text := text li; desc := desc li; timerInterval := t;
     substeps := substeps li |}.

Definition sub_set_dataset (d : gmap string jsstring) (s : SubstepLi) : SubstepLi :=
  {| sub_dataset := d; sub_classList := sub_classList s;
     sub_checkbox := sub_checkbox s; sub_text := sub_text s;
     sub_timerInterval := sub_timerInterval s |}.

Definition sub_set_classList (c : gset string) (s : SubstepLi) : SubstepLi :=
  {| sub_dataset := sub_dataset s; sub_classList := c;
     sub_checkbox := sub_checkbox s; sub_text := sub_text s;
     sub_timerInterval := sub_timerInterval s |}.

Definition sub_set_checkbox (b : bool) (s : SubstepLi) : SubstepLi :=
  {| sub_dataset := sub_dataset s; sub_classList := sub_classList s;
     sub_checkbox := b; sub_text := sub_text s;
     sub_timerInterval := sub_timerInterval s |}.

Definition sub_set_timerInterval (t : option number) (s : SubstepLi) : SubstepLi :=
  {| sub_dataset := sub_dataset s; sub_classList := sub_classList s;
     sub_checkbox := sub_checkbox s; sub_text := sub_text s;
     sub_timerInterval := t |}.

(** [classList.contains(c)] *)
Definition contains (c : string) (cl : gset string) : bool :=
  bool_decide (c ∈ cl).

(** [classList.toggle(c, force)] *)
Definition toggle (c : string) (force : bool) (cl : gset string) : gset string :=
  if force then {[ c ]} ∪ cl else cl ∖ {[ c ]}.

(** ** Sub-step roll-up *)

(** The selector [.substeps-list > li.substep.completed]. *)
Definition isCompletedSubstep (s : SubstepLi) : bool :=
  contains "substep" (sub_classList s) && contains "completed" (sub_classList s).

(** [updateSubstepSummary(parentLi)], lines 886-904.  [refreshProgressUI]
    and [updateCounters] only write display nodes. *)
Definition updateSubstepSummary (parentLi : TaskLi) : TaskLi :=
  let total := length (substeps parentLi) in
  let completed := length (filter (λ s, isCompletedSubstep s = true) (substeps parentLi)) in
  if (0 <? completed)%nat && (completed =? total)%nat
  then set_checkbox true (set_classList ({[ "completed" ]} ∪ classList parentLi) parentLi)
  else set_checkbox false (set_classList (classList parentLi ∖ {[ "completed" ]}) parentLi).

(** The double nearest to the positive rational [n / d], ties to the even
    mantissa, as mantissa and exponent: the double is [m * 2^e] with
    [2^52 <= m <= 2^53]. *)
Definition nearestDouble (n d : Z) : Z * Z :=
  let quo e := if 0 <=? e then n / (d * 2 ^ e) else (n * 2 ^ (- e)) / d in
  let e0 := Z.log2 n - Z.log2 d - 52 in
  let e := if 2 ^ 53 <=? quo e0 then e0 + 1 else if quo e0 <? 2 ^ 52 then e0 - 1 else e0 in
  let num := if 0 <=? e then n else n * 2 ^ (- e) in
  let den := if 0 <=? e then d * 2 ^ e else d in
  let q := num / den in
  let r := num mod den in
  let m := if (den <? 2 * r) || ((2 * r =? den) && Z.odd q) then q + 1 else q in
  (m, e).

(** The percentage shown next to the progress bar:
    [total === 0 ? 0 : Math.round((completed / total) * 100)].  The
    quotient and the product are doubles, each the nearest to the exact
    value, and [Math.round] takes the integer nearest to the product, the
    upper one at a tie. *)
Definition percent (completed total : nat) : nat :=
  if (total =? 0)%nat || (completed =? 0)%nat then 0%nat
  else
    let '(m1, e1) := nearestDouble (Z.of_nat completed) (Z.of_nat total) in
    let '(m2, e2) :=
      if 0 <=? e1 then nearestDouble (m1 * 2 ^ e1 * 100) 1
      else nearestDouble (m1 * 100) (2 ^ (- e1)) in
    Z.to_nat (if 0 <=? e2 then m2 * 2 ^ e2
              else (2 * m2 + 2 ^ (- e2)) / (2 * 2 ^ (- e2))).

(** [createSubstepElement(text)], lines 1035-1074. *)
Definition createSubstepElement (t : jsstring) : SubstepLi :=
  {| sub_dataset := {[ "elapsedMs" := js "0" ]};
     sub_classList := {[ "substep" ]};
     sub_checkbox := false;
     sub_text := t;
     sub_timerInterval := None |}.

(** The global [taskIdCounter] is threaded through the functions that
    draw ids from it. *)

(** ['substep-' + (taskIdCounter++)] *)
Definition substepIdOf (n : N) : jsstring := js "substep-" ++ String_ (Fin (Z.of_N n)).
Definition taskIdOf (n : N) : jsstring := js "task-" ++ String_ (Fin (Z.of_N n)).

(** [addSubFromInput], lines 1821-1842: the text of the sub-step input box
    is trimmed; a blank text adds nothing. *)
Definition addSubFromInput (value : jsstring) (counter : N) (li : TaskLi) : N * TaskLi :=
  let t := trim value in
  match t with
  | [] => (counter, li)
  | _ =>
      let s := createSubstepElement t in
      let s := sub_set_dataset (<[ "substepId" := substepIdOf counter ]> (sub_dataset s)) s in
      (N.succ counter, updateSubstepSummary (set_substeps (substeps li ++ [s]) li))
  end.

(** The [forEach] of [addSubstepsToTask]: one element per step text, each
    taking the next id. *)
Fixpoint appendSubsteps (subSteps : list jsstring) (counter : N) (subList : list SubstepLi)
  : N * list SubstepLi :=
  match subSteps with
  | [] => (counter, subList)
  | stepText :: rest =>
      let s := createSubstepElement stepText in
      let s := sub_set_dataset (<[ "substepId" := substepIdOf counter ]> (sub_dataset s)) s in
      appendSubsteps rest (N.succ counter) (subList ++ [s])
  end.

(** [addSubstepsToTask(taskLi, subSteps)], lines 1318-1336. *)
Definition addSubstepsToTask (subSteps : list jsstring) (counter : N) (taskLi : TaskLi)
  : N * TaskLi :=
  match subSteps with
  | [] => (counter, taskLi)
  | _ =>
      let '(counter', subList) := appendSubsteps subSteps counter (substeps taskLi) in
      (counter', updateSubstepSummary (set_substeps subList taskLi))
  end.

(** Click on the checkbox of the sub-step at position [i], lines 1091-1097:
    the browser flips the checkbox, then the handler copies its state into
    the class and recomputes the parent. *)
Definition substepCheckboxClick (i : nat) (parentLi : TaskLi) : TaskLi :=
  match substeps parentLi !! i with
  | None => parentLi
  | Some subLi =>
      let cb := negb (sub_checkbox subLi) in
      let subLi := sub_set_checkbox cb subLi in
      let subLi := sub_set_classList (toggle "completed" cb (sub_classList subLi)) subLi in
      updateSubstepSummary (set_substeps (<[ i := subLi ]> (substeps parentLi)) parentLi)
  end.

(** Click on the delete button of the sub-step at position [i], lines
    1119-1123. *)
Definition substepDeleteClick (i : nat) (parentLi : TaskLi) : TaskLi :=
  match substeps parentLi !! i with
  | None => parentLi
  | Some _ => updateSubstepSummary (set_substeps (delete i (substeps parentLi)) parentLi)
  end.

(** The sub-step mutations of one task. *)
Inductive SubstepEvent :=
  | AddFromInput (value : jsstring)
  | AddMany (subSteps : list jsstring)
  | CheckboxClick (i : nat)
  | DeleteClick (i : nat).

Definition substepEvent (e : SubstepEvent) (counter : N) (li : TaskLi) : N * TaskLi :=
  match e with
  | AddFromInput v => addSubFromInput v counter li
  | AddMany l => addSubstepsToTask l counter li
  | CheckboxClick i => (counter, substepCheckboxClick i li)
  | DeleteClick i => (counter, substepDeleteClick i li)
  end.

(** An event takes effect when its target exists and there is something to
    add. *)
Definition takesEffect (e : SubstepEvent) (li : TaskLi) : bool :=
  match e with
  | AddFromInput v => match trim v with [] => false | _ => true end
  | AddMany l => match l with [] => false | _ => true end
  | CheckboxClick i | DeleteClick i => bool_decide (i < length (substeps li))%nat
  end.

(** ** Task completion checkbox *)

(** [moveCompletedTaskToBottom(taskLi)], lines 635-638: [appendChild] of a
    node that is already a child moves it to the end. *)
Definition moveCompletedTaskToBottom (i : nat) (l : list TaskLi) : list TaskLi :=
  match l !! i with
  | None => l
  | Some taskLi => delete i l ++ [taskLi]
  end.

(** Click on the completion checkbox of the task at position [i], lines
    1705-1723. *)
Definition taskCheckboxClick (i : nat) (l : list TaskLi) : list TaskLi :=
  match l !! i with
  | None => l
  | Some li =>
      let checked := negb (checkbox li) in
      let li := set_checkbox checked li in
      let li := set_classList (toggle "completed" checked (classList li)) li in
      let l := <[ i := li ]> l in
      if checked then moveCompletedTaskToBottom i l else l
  end.

(** ** Timers *)

(** The timer functions take a task or a sub-step element. *)
Class Element (E : Type) := {
  el_dataset : E → gmap string jsstring;
  el_set_dataset : gmap string jsstring → E → E;
  el_timerInterval : E → option number;
  el_set_timerInterval : option number → E → E
}.

#[global] Instance TaskLi_Element : Element TaskLi := {|
  el_dataset := dataset;
  el_set_dataset := set_dataset;
  el_timerInterval := timerInterval;
  el_set_timerInterval := set_timerInterval
|}.

#[global] Instance SubstepLi_Element : Element SubstepLi := {|
  el_dataset := sub_dataset;
  el_set_dataset := sub_set_dataset;
  el_timerInterval := sub_timerInterval;
  el_set_timerInterval := sub_set_timerInterval
|}.

(** [startTimer(el, card)], lines 928-946: nothing when a ticker is
    installed; otherwise one is installed, counting from the stored time. *)
Definition startTimer {E} `{Element E} (el : E) : E :=
  match el_timerInterval el with
  | Some _ => el
  | None =>
      let elapsed := parseInt (or_else (el_dataset el !! "elapsedMs") (js "0")) in
      let el := el_set_timerInterval (Some elapsed) el in
      el_set_dataset (<[ "timerRunning" := js "true" ]> (el_dataset el)) el
  end.

(** One run of the ticker's callback, a second after the last. *)
Definition tick {E} `{Element E} (el : E) : E :=
  match el_timerInterval el with
  | None => el
  | Some elapsed =>
      let elapsed := add elapsed (Fin 1000) in
      let el := el_set_timerInterval (Some elapsed) el in
      el_set_dataset (<[ "elapsedMs" := String_ elapsed ]> (el_dataset el)) el
  end.

(** [pauseTimer(el, card)], lines 953-963. *)
Definition pauseTimer {E} `{Element E} (el : E) : E :=
  let el := el_set_timerInterval None el in
  el_set_dataset (<[ "timerRunning" := js "false" ]> (el_dataset el)) el.

(** [resetTimer(el, card)], lines 970-978. *)
Definition resetTimer {E} `{Element E} (el : E) : E :=
  let el := pauseTimer el in
  el_set_dataset (<[ "elapsedMs" := js "0" ]> (el_dataset el)) el.

(** ** Task elements *)

(** [applyPriorityClass(li, priority)], lines 650-661. *)
Definition applyPriorityClass (priority : jsstring) (li : TaskLi) : TaskLi :=
  let cl := classList li ∖ {[ "priority-high"; "priority-medium"; "priority-low" ]} in
  let cl :=
    if bool_decide (priority = js "high") then {[ "priority-high" ]} ∪ cl
    else if bool_decide (priority = js "medium") then {[ "priority-medium" ]} ∪ cl
    else {[ "priority-low" ]} ∪ cl in
  set_dataset (<[ "priority" := priority ]> (dataset li)) (set_classList cl li).

(** [applyDeadline(li, deadline)], lines 812-833. *)
Definition applyDeadline (deadline : jsstring) (li : TaskLi) : TaskLi :=
  match deadline with
  | [] =>
      set_classList (classList li ∖ {[ "has-deadline" ]})
        (set_dataset (delete "deadline" (dataset li)) li)
  | _ =>
      set_classList ({[ "has-deadline" ]} ∪ classList li)
        (set_dataset (<[ "deadline" := deadline ]> (dataset li)) li)
  end.

(** [createTaskElement(taskText, priority, deadline)], lines 1501-1600.
    The drag id [dataset.id], made from the clock and a random number, is
    never read by the functions modelled here and is left out. *)
Definition createTaskElement (taskText priority deadline : jsstring) : TaskLi :=
  let li :=
    {| dataset :=
         <[ "matrixTouched" := js "false" ]>
           (<[ "isUrgent" := js "false" ]>
              (<[ "isImportant" := js "false" ]>
                 (<[ "elapsedMs" := js "0" ]>
                    (<[ "priority" := priority ]> ∅))));
       classList := {[ "task-item" ]};
       checkbox := false;
       text := taskText;
       desc := [];
       timerInterval := None;
       substeps := [] |} in
  applyDeadline deadline (applyPriorityClass priority li).

(** The state changes of [attachTaskEventHandlers(li)], lines 1659-1891,
    at the time it is called: the description attribute is copied into the
    text area, the sub-step summary is initialised, and a task without
    [dataset.taskId] takes the next id. *)
Definition attachTaskEventHandlers (counter : N) (li : TaskLi) : N * TaskLi :=
  let li :=
    if truthy (dataset li !! "description")
    then set_desc (textareaValue (or_else (dataset li !! "description") [])) li
    else li in
  let li := updateSubstepSummary li in
  if truthy (dataset li !! "taskId") then (counter, li)
  else (N.succ counter, set_dataset (<[ "taskId" := taskIdOf counter ]> (dataset li)) li).

(** ** Persistence *)

(** The record [serializeSubstep] writes. *)
Record SubstepRecord := {
  r_sub_id : jsstring;
  r_sub_text : jsstring;
  r_sub_completed : bool;
  r_sub_etaMin : jsstring;
  r_sub_elapsedMs : jsstring
}.

(** The record [serializeTask] writes.  [JSON.stringify] followed by
    [JSON.parse] gives back an equal record, so the stored item is the list
    of these records. *)
Record TaskRecord := {
  r_id : jsstring;
  r_text : jsstring;
  r_desc : jsstring;
  r_deadline : jsstring;
  r_etaMin : jsstring;
  r_completed : bool;
  r_isUrgent : jsstring;
  r_isImportant : jsstring;
  r_elapsedMs : jsstring;
  r_collapsed : bool;
  r_substeps : list SubstepRecord
}.

(** [serializeSubstep(subLi)], lines 205-213. *)
Definition serializeSubstep (subLi : SubstepLi) : SubstepRecord :=
  {| r_sub_id := or_else (sub_dataset subLi !! "substepId") [];
     r_sub_text := sub_text subLi;
     r_sub_completed := contains "completed" (sub_classList subLi);
     r_sub_etaMin := or_else (sub_dataset subLi !! "etaMin") [];
     r_sub_elapsedMs := or_else (sub_dataset subLi !! "elapsedMs") (js "0") |}.

(** [serializeTask(li)], lines 215-229. *)
Definition serializeTask (li : TaskLi) : TaskRecord :=
  {| r_id := or_else (dataset li !! "taskId") [];
     r_text := text li;
     r_desc := desc li;
     r_deadline := or_else (dataset li !! "deadline") [];
     r_etaMin := or_else (dataset li !! "etaMin") [];
     r_completed := contains "completed" (classList li);
     r_isUrgent := or_else (dataset li !! "isUrgent") (js "false");
     r_isImportant := or_else (dataset li !! "isImportant") (js "false");
     r_elapsedMs := or_else (dataset li !! "elapsedMs") (js "0");
     r_collapsed := contains "collapsed" (classList li);
     r_substeps := serializeSubstep <$> substeps li |}.

(** [saveTasks()], lines 231-235: the item stored under the tasks key. *)
Definition saveTasks (listContainer : list TaskLi) : list TaskRecord :=
  serializeTask <$> listContainer.

(** The body of [task.substeps.forEach] in [loadTasks], lines 280-297. *)
Definition loadSubstep (sub : SubstepRecord) : SubstepLi :=
  let subLi := createSubstepElement (r_sub_text sub) in
  let subLi :=
    match r_sub_id sub with
    | [] => subLi
    | id => sub_set_dataset (<[ "substepId" := id ]> (sub_dataset subLi)) subLi
    end in
  let subLi :=
    sub_set_dataset
      (<[ "elapsedMs" := or_else (Some (r_sub_elapsedMs sub)) (js "0") ]> (sub_dataset subLi))
      subLi in
  let subLi :=
    match r_sub_etaMin sub with
    | [] => subLi
    | eta => sub_set_dataset (<[ "etaMin" := eta ]> (sub_dataset subLi)) subLi
    end in
  if r_sub_completed sub
  then sub_set_checkbox true (sub_set_classList ({[ "completed" ]} ∪ sub_classList subLi) subLi)
  else subLi.

(** The first part of the body of [tasks.forEach] in [loadTasks], lines
    247-271: the element is created and the stored fields are written to it. *)
Definition restoreTask (task : TaskRecord) : TaskLi :=
  let li :=
    createTaskElement (or_else (Some (r_text task)) (js "Untitled")) (js "medium")
      (r_deadline task) in
  let li :=
    match r_id task with
    | [] => li
    | id => set_dataset (<[ "taskId" := id ]> (dataset li)) li
    end in
  let li := set_dataset (<[ "isUrgent" := or_else (Some (r_isUrgent task)) (js "false") ]> (dataset li)) li in
  let li := set_dataset (<[ "isImportant" := or_else (Some (r_isImportant task)) (js "false") ]> (dataset li)) li in
  let li := set_dataset (<[ "elapsedMs" := or_else (Some (r_elapsedMs task)) (js "0") ]> (dataset li)) li in
  let li := set_desc (r_desc task) li in
  let li :=
    match r_etaMin task with
    | [] => li
    | eta => set_dataset (<[ "etaMin" := eta ]> (dataset li)) li
    end in
  let li :=
    if r_completed task
    then set_checkbox true (set_classList ({[ "completed" ]} ∪ classList li) li)
    else li in
  if r_collapsed task
  then set_classList ({[ "collapsed" ]} ∪ classList li) li
  else li.

(** The body of [tasks.forEach] in [loadTasks], lines 246-302: the restored
    element gets its handlers, then its sub-steps, then the recompute. *)
Definition loadTask (counter : N) (task : TaskRecord) : N * TaskLi :=
  let li := restoreTask task in
  let '(counter, li) := attachTaskEventHandlers counter li in
  let li := set_substeps (substeps li ++ (loadSubstep <$> r_substeps task)) li in
  (counter, updateSubstepSummary li).

(** The [forEach] over the stored tasks: every task is appended to the list
    in turn. *)
Fixpoint loadAll (tasks : list TaskRecord) (counter : N) (acc : list TaskLi)
  : N * list TaskLi :=
  match tasks with
  | [] => (counter, acc)
  | task :: rest =>
      let '(counter, li) := loadTask counter task in
      loadAll rest counter (acc ++ [li])
  end.

(** [loadTasks()], lines 237-309, on what [saveTasks] stores.  [raw] is the
    stored item, [None] when the key is absent or does not hold an array;
    the list is then left as it is.  Otherwise the list is emptied and
    rebuilt from the records.  [loadStored] below is the function on any
    stored array, with entries that are [null]. *)
Definition loadTasks (raw : option (list TaskRecord)) (counter : N)
    (listContainer : list TaskLi) : N * list TaskLi :=
  match raw with
  | None => (counter, listContainer)
  | Some tasks => loadAll tasks counter []
  end.

(** An entry of the stored array that is an object.  The fields are read
    with the types [saveTasks] writes them with, a missing one as the empty
    string or [false]; an entry of the array of sub-steps is an object or
    [null]. *)
Record StoredTask := {
  s_id : jsstring;
  s_text : jsstring;
  s_desc : jsstring;
  s_deadline : jsstring;
  s_etaMin : jsstring;
  s_completed : bool;
  s_isUrgent : jsstring;
  s_isImportant : jsstring;
  s_elapsedMs : jsstring;
  s_collapsed : bool;
  s_substeps : list (option SubstepRecord)
}.

(** The fields of a stored object that [restoreTask] reads. *)
Definition fieldsOf (t : StoredTask) : TaskRecord :=
  {| r_id := s_id t; r_text := s_text t; r_desc := s_desc t;
     r_deadline := s_deadline t; r_etaMin := s_etaMin t;
     r_completed := s_completed t; r_isUrgent := s_isUrgent t;
     r_isImportant := s_isImportant t; r_elapsedMs := s_elapsedMs t;
     r_collapsed := s_collapsed t; r_substeps := [] |}.

(** A record of [saveTasks] as a stored object. *)
Definition storedOf (r : TaskRecord) : StoredTask :=
  {| s_id := r_id r; s_text := r_text r; s_desc := r_desc r;
     s_deadline := r_deadline r; s_etaMin := r_etaMin r;
     s_completed := r_completed r; s_isUrgent := r_isUrgent r;
     s_isImportant := r_isImportant r; s_elapsedMs := r_elapsedMs r;
     s_collapsed := r_collapsed r; s_substeps := Some <$> r_substeps r |}.

(** [task.substeps.forEach], lines 279-297: on an entry that is [null] the
    read of [sub.text] throws, [None] here. *)
Fixpoint loadSubsteps (subs : list (option SubstepRecord)) : option (list SubstepLi) :=
  match subs with
  | [] => Some []
  | None :: _ => None
  | Some sub :: rest => (λ l, loadSubstep sub :: l) <$> loadSubsteps rest
  end.

(** The body of [tasks.forEach], lines 246-302, on a stored object: the
    task is built and gets its handlers, which may draw an id, before the
    sub-steps are read; when one of them throws the task is not appended.
    The description is what the text area gives for the stored text. *)
Definition loadStoredTask (counter : N) (t : StoredTask) : N * option TaskLi :=
  let li := restoreTask (fieldsOf t) in
  let li := set_desc (textareaValue (desc li)) li in
  let '(counter, li) := attachTaskEventHandlers counter li in
  match loadSubsteps (s_substeps t) with
  | None => (counter, None)
  | Some subs =>
      (counter, Some (updateSubstepSummary (set_substeps (substeps li ++ subs) li)))
  end.

(** The [forEach] over the stored array inside the [try], lines 246-308: an
    entry that is [null] throws at [task.text]; the [catch] ends the load
    and the list keeps the tasks appended so far. *)
Fixpoint loadEntries (entries : list (option StoredTask)) (counter : N) (acc : list TaskLi)
  : N * list TaskLi :=
  match entries with
  | [] => (counter, acc)
  | None :: _ => (counter, acc)
  | Some t :: rest =>
      match loadStoredTask counter t with
      | (counter, Some li) => loadEntries rest counter (acc ++ [li])
      | (counter, None) => (counter, acc)
      end
  end.

(** What [localStorage.getItem] and [JSON.parse] give [loadTasks]. *)
Inductive StoredItem :=
  | Absent                                   (* no item, or the empty string *)
  | Unparsable                               (* [JSON.parse] throws *)
  | NotAnArray                               (* a value that is no array *)
  | Entries (entries : list (option StoredTask)).

(** [loadTasks()], lines 237-309, on any stored item.  [loadTasks] above is
    this function on the arrays that [saveTasks] writes. *)
Definition loadStored (raw : StoredItem) (counter : N) (listContainer : list TaskLi)
  : N * list TaskLi :=
  match raw with
  | Entries entries => loadEntries entries counter []
  | _ => (counter, listContainer)
  end.

(** ** Classifier *)

(** The result of [getTaskCategory] (the icon glyph is left out). *)
Record Category := {
  label : string;
  color : string;
  bg : string
}.

(** [getTaskCategory(etaMin)], lines 1201-1209. *)
Definition getTaskCategory (etaMin : number) : Category :=
  if ltb etaMin (Fin 15)
  then {| label := "Quick"; color := "text-emerald-400"; bg := "bg-emerald-400/20" |}
  else if leb (Fin 15) etaMin && leb etaMin (Fin 60)
  then {| label := "Core"; color := "text-blue-400"; bg := "bg-blue-400/20" |}
  else {| label := "Major"; color := "text-amber-400"; bg := "bg-amber-400/20" |}.

(** The calendar day of [new Date()] in local time: [getFullYear()],
    [getMonth()] (from 0) and [getDate()]. *)
Record LocalDay := {
  fullYear : Z;
  month : Z;
  date : Z
}.

(** The template string of line 1418. *)
Definition todayString (now : LocalDay) : jsstring :=
  String_ (Fin (fullYear now)) ++ js "-"
    ++ padStart2 (String_ (Fin (month now + 1))) ++ js "-"
    ++ padStart2 (String_ (Fin (date now))).

(** [autoClassifyTask(taskLi)], lines 1401-1424; [etaMin] is [None] for
    [null]. *)
Definition autoClassifyTask (now : LocalDay) (taskLi : TaskLi) : TaskLi :=
  let etaMin : option number :=
    if truthy (dataset taskLi !! "etaMin")
    then Some (parseInt (or_else (dataset taskLi !! "etaMin") []))
    else None in
  let deadline := or_else (dataset taskLi !! "deadline") [] in
  let isImportant := true in
  let isUrgent := false in
  let '(isImportant, isUrgent) :=
    match etaMin with
    | Some n =>
        if negb (isNaN n) then
          let category := getTaskCategory n in
          let isImportant :=
            if bool_decide (label category = "Quick") then false else isImportant in
          let isImportant :=
            if bool_decide (label category = "Core") || bool_decide (label category = "Major")
            then true else isImportant in
          let isUrgent := if ltb n (Fin 60) then true else isUrgent in
          (isImportant, isUrgent)
        else (isImportant, isUrgent)
    | None => (isImportant, isUrgent)
    end in
  let isUrgent :=
    match deadline with
    | [] => isUrgent
    | _ => if bool_decide (deadline = todayString now) then true else isUrgent
    end in
  set_dataset
    (<[ "isUrgent" := String_bool isUrgent ]>
       (<[ "isImportant" := String_bool isImportant ]> (dataset taskLi)))
    taskLi.

(** The four cells of the matrix. *)
Inductive Quadrant := DoFirst | Schedule | Delegate | Eliminate.

(** The cell [renderMatrixView] puts a task in, lines 1443-1454. *)
Definition targetCell (task : TaskLi) : Quadrant :=
  let isImportant := negb (bool_decide (dataset task !! "isImportant" = Some (js "false"))) in
  let isUrgent := bool_decide (dataset task !! "isUrgent" = Some (js "true")) in
  if isUrgent && isImportant then DoFirst
  else if negb isUrgent && isImportant then Schedule
  else if isUrgent && negb isImportant then Delegate
  else Eliminate.

(** ** Manual classification and estimate input *)

(** The [change] handler of the urgent toggle, lines 1679-1686, on the
    task element; [checked] is the state of the toggle.  The handler then
    calls [sortTasks], which reorders the list and writes no task. *)
Definition urgentToggleChange (checked : bool) (li : TaskLi) : TaskLi :=
  set_dataset
    (<[ "matrixTouched" := js "true" ]>
       (<[ "isUrgent" := if checked then js "true" else js "false" ]> (dataset li)))
    li.

(** The [change] handler of the important toggle, lines 1688-1695. *)
Definition importantToggleChange (checked : bool) (li : TaskLi) : TaskLi :=
  set_dataset
    (<[ "matrixTouched" := js "true" ]>
       (<[ "isImportant" := if checked then js "true" else js "false" ]> (dataset li)))
    li.

(** What the [drop] handler of a matrix cell writes to the task it finds,
    lines 1472-1485. *)
Definition matrixDrop (quadrant : jsstring) (taskLi : TaskLi) : TaskLi :=
  let put (u i : string) :=
    set_dataset (<[ "isImportant" := js i ]> (<[ "isUrgent" := js u ]> (dataset taskLi))) taskLi in
  if bool_decide (quadrant = js "do-first") then put "true" "true"
  else if bool_decide (quadrant = js "schedule") then put "false" "true"
  else if bool_decide (quadrant = js "delegate") then put "true" "false"
  else if bool_decide (quadrant = js "eliminate") then put "false" "false"
  else taskLi.

(** The exponent of a valid floating-point number, or nothing: [e] or [E],
    an optional sign and one or more digits. *)
Definition exponentOrEnd (s : jsstring) : bool :=
  match s with
  | [] => true
  | c :: r =>
      if ((c =? 101) || (c =? 69))%N then
        let r :=
          match r with
          | d :: r' => if ((d =? 45) || (d =? 43))%N then r' else r
          | [] => r
          end in
        match takeDigits r with
        | [] => false
        | ds => bool_decide (drop (length ds) r = [])
        end
      else false
  end.

(** A valid floating-point number of HTML: an optional minus sign, digits
    or a fraction (a dot and digits) or both, and an optional exponent. *)
Definition isValidFloat (s : jsstring) : bool :=
  let s :=
    match s with
    | c :: r => if (c =? 45)%N then r else s
    | [] => s
    end in
  let int := takeDigits s in
  match drop (length int) s with
  | c :: r =>
      if (c =? 46)%N then
        match takeDigits r with
        | [] => false
        | frac => exponentOrEnd (drop (length frac) r)
        end
      else
        match int with
        | [] => false
        | _ => exponentOrEnd (c :: r)
        end
  | [] => match int with [] => false | _ => true end
  end.

(** The [value] of an [<input type="number">] (lines 1052 and 1550) that
    holds the text [entry]: the text when it is a valid floating-point
    number, the empty string otherwise. *)
Definition numberInputValue (entry : jsstring) : jsstring :=
  if isValidFloat entry then entry else [].

(** The [change] handler of the task estimate input, lines 1761-1775;
    [entry] is the text in the field, [etaInp.value] what the field gives
    for it. *)
Definition etaInputChange (entry : jsstring) (li : TaskLi) : TaskLi :=
  let v := trim (numberInputValue entry) in
  match v with
  | [] => set_dataset (delete "etaMin" (dataset li)) li
  | _ =>
      let etaVal := parseInt v in
      set_dataset (<[ "etaMin" := String_ etaVal ]> (dataset li)) li
  end.

(** The [change] handler of a sub-step estimate input, lines 1102-1113. *)
Definition substepEtaInputChange (entry : jsstring) (subLi : SubstepLi) : SubstepLi :=
  let v := trim (numberInputValue entry) in
  match v with
  | [] => sub_set_dataset (delete "etaMin" (sub_dataset subLi)) subLi
  | _ => sub_set_dataset (<[ "etaMin" := String_ (parseInt v) ]> (sub_dataset subLi)) subLi
  end.

(** ** Dates *)

Module Date.

(** Two decimal digits. *)
Definition twoDigits (a b : N) : option Z :=
  if isDigit a && isDigit b then Some (10 * digitValue a + digitValue b) else None.

Definition isLeapYear (y : Z) : bool :=
  ((y mod 4 =? 0) && negb (y mod 100 =? 0)) || (y mod 400 =? 0).

Definition daysInMonth (y m : Z) : Z :=
  if m =? 2 then (if isLeapYear y then 29 else 28)
  else if (m =? 4) || (m =? 6) || (m =? 9) || (m =? 11) then 30
  else 31.

(** Day number of a calendar date, counted from 1970-01-01. *)
Definition dayFromCivil (y m d : Z) : Z :=
  let y' := if m <=? 2 then y - 1 else y in
  let era := y' / 400 in
  let yoe := y' - era * 400 in
  let mp := if 2 <? m then m - 3 else m + 9 in
  let doy := (153 * mp + 2) / 5 + d - 1 in
  let doe := yoe * 365 + yoe / 4 - yoe / 100 + doy in
  era * 146097 + doe - 719468.

Definition msPerDay : Z := 86400000.

(** The date part [YYYY-MM-DD] of the date-time string format: year, month
    and day when the string has this shape and names a day of the calendar. *)
Definition parseDate (s : jsstring) : option (Z * Z * Z) :=
  match s with
  | [y1; y2; y3; y4; h1; m1; m2; h2; d1; d2] =>
      if ((h1 =? 45) && (h2 =? 45))%N then
        match twoDigits y1 y2, twoDigits y3 y4, twoDigits m1 m2, twoDigits d1 d2 with
        | Some yh, Some yl, Some m, Some d =>
            let y := 100 * yh + yl in
            if (1 <=? m) && (m <=? 12) && (1 <=? d) && (d <=? daysInMonth y m)
            then Some (y, m, d) else None
        | _, _, _, _ => None
        end
      else None
  | _ => None
  end.

(** The time part [THH:mm:ss], in milliseconds within the day. *)
Definition parseTime (s : jsstring) : option Z :=
  match s with
  | [t; h1; h2; c1; m1; m2; c2; s1; s2] =>
      if ((t =? 84) && (c1 =? 58) && (c2 =? 58))%N then
        match twoDigits h1 h2, twoDigits m1 m2, twoDigits s1 s2 with
        | Some h, Some m, Some sec =>
            if (h <=? 23) && (m <=? 59) && (sec <=? 59)
            then Some (h * 3600000 + m * 60000 + sec * 1000) else None
        | _, _, _ => None
        end
      else None
  | _ => None
  end.

(** [new Date(s).getTime()] for a date-only string, which is read as UTC
    midnight.  The value of a date input is such a string or empty; other
    strings are left to the browser by the language and are NaN here. *)
Definition getTime (s : jsstring) : number :=
  match parseDate s with
  | Some (y, m, d) => Fin (dayFromCivil y m d * msPerDay)
  | None => NaN
  end.

(** [new Date(s).getTime()] for a date-time string without offset, which is
    read as local time; [UTC] is the conversion from local time to UTC of
    the browser's time zone. *)
Definition getTimeLocal (UTC : Z → Z) (s : jsstring) : number :=
  match parseDate (take 10 s), parseTime (drop 10 s) with
  | Some (y, m, d), Some t => Fin (UTC (dayFromCivil y m d * msPerDay + t))
  | _, _ => NaN
  end.

End Date.

(** ** Sorting *)

(** [Array.prototype.sort(comparefn)] is a stable sort: [a] is placed
    before [b] when [comparefn(a, b) < 0], after it when the value is
    positive, and the two keep their order when it is zero or NaN.  For a
    consistent comparator the result is fixed by these rules, and it is the
    one computed here by inserting the elements from the right. *)
Section Sort.
Context {A : Type} (comparefn : A → A → number).

Fixpoint insert_sorted (x : A) (l : list A) : list A :=
  match l with
  | [] => [x]
  | y :: l' => if is_pos (comparefn x y) then y :: insert_sorted x l' else x :: l
  end.

Fixpoint sort (l : list A) : list A :=
  match l with
  | [] => []
  | x :: l' => insert_sorted x (sort l')
  end.
End Sort.

(** The table [order] of [sortByUrgency]; [None] is [undefined]. *)
Definition order (priority : jsstring) : option Z :=
  if bool_decide (priority = js "high") then Some 3
  else if bool_decide (priority = js "medium") then Some 2
  else if bool_decide (priority = js "low") then Some 1
  else None.

(** [a.dataset.deadline ? new Date(a.dataset.deadline).getTime() : Infinity] *)
Definition deadlineKey (a : TaskLi) : number :=
  if truthy (dataset a !! "deadline")
  then Date.getTime (or_else (dataset a !! "deadline") [])
  else PosInf.

(** The comparator of [sortByUrgency], lines 697-711. *)
Definition compareUrgency (a b : TaskLi) : number :=
  let pa := order (or_else (dataset a !! "priority") (js "medium")) in
  let pb := order (or_else (dataset b !! "priority") (js "medium")) in
  if bool_decide (pb ≠ pa) then
    match pb, pa with
    | Some wb, Some wa => Fin (wb - wa)
    | _, _ => NaN
    end
  else sub (deadlineKey a) (deadlineKey b).

(** [sortByUrgency()], lines 689-720: the children of the list, sorted and
    appended again one after the other, which leaves them in sorted order. *)
Definition sortByUrgency (listContainer : list TaskLi) : list TaskLi :=
  sort compareUrgency listContainer.

(** [getPriorityScore(isUrgent, isImportant)], lines 1246-1251. *)
Definition getPriorityScore (isUrgent isImportant : bool) : Z :=
  if isUrgent && isImportant then 4
  else if negb isUrgent && isImportant then 3
  else if isUrgent && negb isImportant then 2
  else 1.

(** [sortTasks()], lines 1271-1284. *)
Definition sortTasks (listContainer : list TaskLi) : list TaskLi :=
  let score (a : TaskLi) :=
    getPriorityScore
      (bool_decide (dataset a !! "isUrgent" = Some (js "true")))
      (negb (bool_decide (dataset a !! "isImportant" = Some (js "false")))) in
  sort (λ a b, Fin (score b - score a)) listContainer.

(** ** Deadline countdown *)

(** The text written to the countdown element, one constructor per template
    string of [updateDeadlineCountdown] (each starts with an emoji):
    [Overdue: ${d}d ${h}h], [${h}h ${m}m], [${d}d ${h}h], [${d} days]. *)
Inductive CountdownText :=
  | NoText
  | OverdueText (days hours : number)
  | HoursMinutes (hours minutes : number)
  | DaysHours (days hours : number)
  | DaysText (days : number).

(** The countdown element [.deadline-countdown]. *)
Record Countdown := {
  textContent : CountdownText;
  className : string
}.

(** [Math.floor(x / d)] and [Math.floor(x / d) % m] for an integer or NaN
    [x] and positive integer constants. *)
Definition floorDiv (x : number) (d : Z) : number :=
  match x with
  | Fin z => Fin (z / d)
  | other => other
  end.

Definition remainder (x : number) (m : Z) : number :=
  match x with
  | Fin z => Fin (Z.rem z m)
  | _ => NaN
  end.

(** [Math.abs(x)] *)
Definition abs (x : number) : number :=
  match x with
  | Fin z => Fin (Z.abs z)
  | NegInf => PosInf
  | other => other
  end.

(** [diffMs / (1000 * 60 * 60)] as the exact quotient, and its comparison
    with a whole number of hours; a NaN difference ([None]) compares false. *)
Definition totalHours (diffMs : number) : option Q :=
  match diffMs with
  | Fin z => Some (z # 3600000)
  | _ => None
  end.

Definition hoursBelow (h : option Q) (bound : Z) : bool :=
  match h with
  | Some q => match (q ?= inject_Z bound)%Q with Lt => true | _ => false end
  | None => false
  end.

(** [updateDeadlineCountdown(li)], lines 734-789, as the new state of the
    countdown element.  [now] is the time value of [new Date()]. *)
Definition updateDeadlineCountdown (UTC : Z → Z) (now : Z) (li : TaskLi) : Countdown :=
  match or_else (dataset li !! "deadline") [] with
  | [] => {| textContent := NoText; className := "deadline-countdown" |}
  | deadline =>
      let deadlineDate := Date.getTimeLocal UTC (deadline ++ js "T23:59:59") in
      let diffMs := sub deadlineDate (Fin now) in
      if is_neg diffMs then
        let overdueDays := floorDiv (abs diffMs) (1000 * 60 * 60 * 24) in
        let overdueHours := remainder (floorDiv (abs diffMs) (1000 * 60 * 60)) 24 in
        {| textContent := OverdueText overdueDays overdueHours;
           className := "deadline-countdown overdue" |}
      else
        let days := floorDiv diffMs (1000 * 60 * 60 * 24) in
        let hours := remainder (floorDiv diffMs (1000 * 60 * 60)) 24 in
        let minutes := remainder (floorDiv diffMs (1000 * 60)) 60 in
        let totalHours := totalHours diffMs in
        if hoursBelow totalHours 24 then
          {| textContent := HoursMinutes hours minutes;
             className := "deadline-countdown critical" |}
        else if hoursBelow totalHours 48 then
          {| textContent := DaysHours days hours;
             className := "deadline-countdown urgent" |}
        else if hoursBelow totalHours 168 then
          {| textContent := DaysHours days hours;
             className := "deadline-countdown warning" |}
        else
          {| textContent := DaysText days;
             className := "deadline-countdown safe" |}
  end.

(** ** Smart paste *)

(** [s.replace(/\r\n/g, '\n')] *)
Fixpoint replaceCRLF (s : jsstring) : jsstring :=
  match s with
  | 13%N :: 10%N :: r => 10%N :: replaceCRLF r
  | c :: r => c :: replaceCRLF r
  | [] => []
  end.

(** [s.split('\n')] *)
Fixpoint split (s : jsstring) : list jsstring :=
  match s with
  | [] => [[]]
  | c :: r =>
      if (c =? 10)%N then [] :: split r
      else match split r with
           | l :: ls => (c :: l) :: ls
           | [] => [[c]]
           end
  end.

(** [lines.join('\n')] *)
Fixpoint join (lines : list jsstring) : jsstring :=
  match lines with
  | [] => []
  | [l] => l
  | l :: ls => l ++ 10%N :: join ls
  end.

(** The character class of [listRegex] as the source file spells it: the
    hyphen, the asterisk, and the three characters U+00E2, U+20AC, U+00A2. *)
Definition isBullet (c : N) : bool :=
  ((c =? 45) || (c =? 42) || (c =? 226) || (c =? 8364) || (c =? 162))%N.

(** The rest of the string after the marker [\d+\.] or [[-*...]], if the
    string starts with one.  The digit run is taken whole: a shorter run is
    followed by a digit and not by the dot. *)
Definition afterMarker (s : jsstring) : option jsstring :=
  match takeDigits s with
  | [] =>
      match s with
      | c :: r => if isBullet c then Some r else None
      | [] => None
      end
  | ds =>
      match drop (length ds) s with
      | c :: r => if (c =? 46)%N then Some r else None
      | [] => None
      end
  end.

(** [listRegex.test(s)] for [/^\s*(\d+\.|[-*...])\s+/]: leading white space,
    a marker, and at least one white space after it.  The leading white
    space is taken whole, since no marker starts with white space. *)
Definition listRegex_test (s : jsstring) : bool :=
  match afterMarker (trimStart s) with
  | Some (c :: _) => isWhiteSpace c
  | _ => false
  end.

(** The [lines.forEach] of [smartParsePaste] with its two arrays. *)
Fixpoint classifyLines (lines subSteps descriptionLines : list jsstring)
  : list jsstring * list jsstring :=
  match lines with
  | [] => (subSteps, descriptionLines)
  | line :: rest =>
      let trimmed := trim line in
      match trimmed with
      | [] => classifyLines rest subSteps descriptionLines
      | _ =>
          if listRegex_test trimmed
          then classifyLines rest (subSteps ++ [trimmed]) descriptionLines
          else classifyLines rest subSteps (descriptionLines ++ [line])
      end
  end.

(** The object [smartParsePaste] returns. *)
Record Parsed := {
  description : jsstring;
  subSteps : list jsstring
}.

(** [smartParsePaste(text)], lines 1291-1311. *)
Definition smartParsePaste (text : jsstring) : Parsed :=
  let raw := trim (replaceCRLF text) in
  match raw with
  | [] => {| description := []; subSteps := [] |}
  | _ =>
      let lines := split raw in
      let '(subSteps, descriptionLines) := classifyLines lines [] [] in
      {| description := trim (join descriptionLines); subSteps := subSteps |}
  end.

(** [description.split('\n').filter(Boolean)[0] || 'New Task'], lines 433
    and 444 of the paste handler. *)
Definition pasteTitle (description : jsstring) : jsstring :=
  or_else (head (filter (λ l, l ≠ []) (split description))) (js "New Task").

(** ** Further functions of the script *)

(** [s.startsWith(p)] *)
Fixpoint startsWith (p s : jsstring) : bool :=
  match p, s with
  | [], _ => true
  | a :: p', b :: s' => (a =? b)%N && startsWith p' s'
  | _ :: _, [] => false
  end.

(** [getThemeClass(value)], line 49. *)
Definition getThemeClass (value : jsstring) : jsstring :=
  if startsWith (js "theme-") value then value else js "theme-" ++ value.

(** [applyTheme(value)], lines 50-52: the class name written to the body;
    [None] is [undefined]. *)
Definition applyTheme (value : option jsstring) : jsstring :=
  getThemeClass (or_else value (js "morning-coffee")).

(** The two numbers [updateCounters] writes. *)
Record Counters := {
  completedTasks : Z;
  uncompletedTasks : Z
}.

(** [updateCounters()], lines 1903-1913. *)
Definition updateCounters (listContainer : list TaskLi) : Counters :=
  let totalTasks := Z.of_nat (length listContainer) in
  let completedTasks :=
    Z.of_nat (length (filter (λ li, contains "completed" (classList li) = true) listContainer)) in
  let uncompletedTasks := Z.max 0 (totalTasks - completedTasks) in
  {| completedTasks := completedTasks; uncompletedTasks := uncompletedTasks |}.

(** The comparator of [sortByDeadline], lines 844-850. *)
Definition compareDeadline (a b : TaskLi) : number :=
  sub (deadlineKey a) (deadlineKey b).

(** [sortByDeadline()], lines 839-857. *)
Definition sortByDeadline (listContainer : list TaskLi) : list TaskLi :=
  sort compareDeadline listContainer.

(** [formatTime(ms)], lines 915-921. *)
Definition formatTime (ms : number) : jsstring :=
  let totalSeconds := floorDiv ms 1000 in
  let hours := floorDiv totalSeconds 3600 in
  let minutes := floorDiv (remainder totalSeconds 3600) 60 in
  let seconds := remainder totalSeconds 60 in
  padStart2 (String_ hours) ++ js ":" ++ padStart2 (String_ minutes) ++ js ":"
    ++ padStart2 (String_ seconds).

Definition set_text (t : jsstring) (li : TaskLi) : TaskLi :=
  {| dataset := dataset li; classList := classList li; checkbox := checkbox li;
     text := t; desc := desc li; timerInterval := timerInterval li;
     substeps := substeps li |}.

(** [finish(save)] of [startInlineEdit], lines 1147-1166, with [value] the
    content of the edit box: a blank name is refused and the editor stays
    open; Escape ([save] false) leaves the task as it is. *)
Definition finishInlineEdit (save : bool) (value : jsstring) (li : TaskLi) : TaskLi :=
  if save then
    match trim value with
    | [] => li
    | val =>
        set_checkbox false
          (set_classList (classList li ∖ {[ "completed" ]}) (set_text val li))
    end
  else li.

(** [addTask()], lines 1617-1651, with [value] the content of the input
    box: a blank text is refused with an alert; otherwise the task is
    created, gets its handlers, is appended and the list is sorted. *)
Definition addTask (value : jsstring) (counter : N) (listContainer : list TaskLi)
  : N * list TaskLi :=
  let task := trim value in
  match task with
  | [] => (counter, listContainer)
  | _ =>
      let li := createTaskElement task (js "medium") [] in
      let '(counter, li) := attachTaskEventHandlers counter li in
      (counter, sortTasks (listContainer ++ [li]))
  end.

(** [createTaskWithSubsteps(title, description, subSteps)], lines 1375-1395.
    The script appends the element to the list and then adds the sub-steps
    to that same element; here the element is completed first and then
    appended. *)
Definition createTaskWithSubsteps (title description : jsstring) (subSteps : list jsstring)
    (counter : N) (listContainer : list TaskLi) : N * list TaskLi :=
  match title with
  | [] => (counter, listContainer)
  | _ =>
      let li := createTaskElement title (js "medium") [] in
      let li :=
        match description with
        | [] => li
        | _ => set_desc (textareaValue description)
                 (set_dataset (<[ "description" := description ]> (dataset li)) li)
        end in
      let '(counter, li) := attachTaskEventHandlers counter li in
      let '(counter, li) := addSubstepsToTask subSteps counter li in
      (counter, sortByUrgency (listContainer ++ [li]))
  end.

(** What the paste handler of the input box does with the pasted text,
    lines 424-452. *)
Inductive PasteOutcome :=
  | NotHandled
  | AskFirst (pendingPasteText : jsstring)
  | Created (counter : N) (listContainer : list TaskLi).

(** The body shared by the immediate path and by the click on the prompt. *)
Definition applyPaste (text : jsstring) (counter : N) (listContainer : list TaskLi)
  : N * list TaskLi :=
  let parsed := smartParsePaste text in
  let title := pasteTitle (description parsed) in
  createTaskWithSubsteps title (description parsed) (subSteps parsed) counter listContainer.

(** [(text.match(/\n/g) || []).length] *)
Definition lineBreaks (text : jsstring) : nat :=
  length (filter (λ c, c = 10%N) text).

Definition pasteHandler (text : jsstring) (counter : N) (listContainer : list TaskLi)
  : PasteOutcome :=
  if bool_decide (text ≠ []) && bool_decide (10%N ∈ text) then
    if (3 <=? lineBreaks text)%nat then AskFirst text
    else let '(counter, l) := applyPaste text counter listContainer in Created counter l
  else NotHandled.

(** The four lists of [renderMatrixView], each holding the texts of its
    items. *)
Record Matrix := {
  matrix_do_first : list jsstring;
  matrix_schedule : list jsstring;
  matrix_delegate : list jsstring;
  matrix_eliminate : list jsstring
}.

(** The text of [createMatrixTaskItem(taskLi)], lines 457-462. *)
Definition createMatrixTaskItem (taskLi : TaskLi) : jsstring :=
  or_else (Some (text taskLi)) (js "Untitled").

(** The [tasks.forEach] of [renderMatrixView], lines 1443-1454. *)
Fixpoint placeTasks (tasks : list TaskLi) (m : Matrix) : Matrix :=
  match tasks with
  | [] => m
  | task :: rest =>
      let item := createMatrixTaskItem task in
      let m :=
        match targetCell task with
        | DoFirst =>
            {| matrix_do_first := matrix_do_first m ++ [item];
               matrix_schedule := matrix_schedule m;
               matrix_delegate := matrix_delegate m;
               matrix_eliminate := matrix_eliminate m |}
        | Schedule =>
            {| matrix_do_first := matrix_do_first m;
               matrix_schedule := matrix_schedule m ++ [item];
               matrix_delegate := matrix_delegate m;
               matrix_eliminate := matrix_eliminate m |}
        | Delegate =>
            {| matrix_do_first := matrix_do_first m;
               matrix_schedule := matrix_schedule m;
               matrix_delegate := matrix_delegate m ++ [item];
               matrix_eliminate := matrix_eliminate m |}
        | Eliminate =>
            {| matrix_do_first := matrix_do_first m;
               matrix_schedule := matrix_schedule m;
               matrix_delegate := matrix_delegate m;
               matrix_eliminate := matrix_eliminate m ++ [item] |}
        end in
      placeTasks rest m
  end.

(** [renderMatrixView()], lines 1430-1456: the cells are emptied and filled
    from the list. *)
Definition renderMatrixView (listContainer : list TaskLi) : Matrix :=
  placeTasks listContainer
    {| matrix_do_first := []; matrix_schedule := [];
       matrix_delegate := []; matrix_eliminate := [] |}.

(** [getIconPath(isUrgent, isImportant)], lines 1231-1236. *)
Definition getIconPath (isUrgent isImportant : bool) : string :=
  if isUrgent && isImportant then "./assets/icons/rocket.png"
  else if negb isUrgent && isImportant then "./assets/icons/diamond.png"
  else if isUrgent && negb isImportant then "./assets/icons/lightning.png"
  else "./assets/icons/latte.png".

(** The [src] that [updateStatusIcon(taskLi)] gives the status icon, lines
    1238-1244. *)
Definition updateStatusIcon (taskLi : TaskLi) : string :=
  let isUrgent := bool_decide (dataset taskLi !! "isUrgent" = Some (js "true")) in
  let isImportant := bool_decide (dataset taskLi !! "isImportant" = Some (js "true")) in
  getIconPath isUrgent isImportant.

(** Click on the delete button of the task at position [i], lines
    1862-1882: the task leaves the list with its sub-steps. *)
Definition taskDeleteClick (i : nat) (listContainer : list TaskLi) : list TaskLi :=
  delete i listContainer.

(** ** The handlers as events on the list *)

(** The click on the collapse button, lines 1673-1676. *)
Definition collapseClick (li : TaskLi) : TaskLi :=
  set_classList
    (toggle "collapsed" (negb (contains "collapsed" (classList li))) (classList li)) li.

(** The [input] handler of the description box, lines 1801-1804; [entry]
    is the text in the box after the keystroke, [descBox.value] what the
    box gives for it. *)
Definition descInput (entry : jsstring) (li : TaskLi) : TaskLi :=
  let value := textareaValue entry in
  set_desc value (set_dataset (<[ "description" := value ]> (dataset li)) li).

(** [dragstart] and [dragend] of a task, lines 1779-1787. *)
Definition dragStart (li : TaskLi) : TaskLi :=
  set_classList ({[ "dragging" ]} ∪ classList li) li.

Definition dragEnd (li : TaskLi) : TaskLi :=
  set_classList (classList li ∖ {[ "dragging" ]}) li.

(** The position in [l] of the [j]-th element that is not being dragged,
    the candidates of [getDragAfterElement], lines 998-1010. *)
Fixpoint candidatePosition (j : nat) (l : list TaskLi) : option nat :=
  match l with
  | [] => None
  | li :: rest =>
      if contains "dragging" (classList li) then S <$> candidatePosition j rest
      else
        match j with
        | O => Some 0%nat
        | S j' => S <$> candidatePosition j' rest
        end
  end.

(** The [dragover] handler of the list, lines 1015-1022.  The dragged
    element is the first one that carries the class [dragging] (only tasks
    get it).  Which candidate [getDragAfterElement] finds depends on the
    layout: [after] is its number among the candidates, [None] when there
    is none.  The dragged element is put before it, or at the end. *)
Definition dragOver (after : option nat) (listContainer : list TaskLi) : list TaskLi :=
  match list_find (λ li, contains "dragging" (classList li) = true) listContainer with
  | None => listContainer
  | Some (i, dragging) =>
      let others := delete i listContainer in
      match after ≫= (λ j, candidatePosition j others) with
      | None => others ++ [dragging]
      | Some p => take p others ++ dragging :: drop p others
      end
  end.

(** The click on the timer button of a sub-step, lines 554-569. *)
Definition substepTimerToggle (subLi : SubstepLi) : SubstepLi :=
  if bool_decide (sub_dataset subLi !! "timerRunning" = Some (js "true"))
  then pauseTimer subLi
  else startTimer subLi.

(** The first task of the list whose [data-task-id] is [taskId], as
    [querySelector] finds it in the [drop] handler, line 1469. *)
Fixpoint findTask (taskId : jsstring) (l : list TaskLi) : option nat :=
  match l with
  | [] => None
  | li :: rest =>
      if bool_decide (dataset li !! "taskId" = Some taskId) then Some 0%nat
      else S <$> findTask taskId rest
  end.

(** The events of the page that change the task list. *)
Inductive Event :=
  | AddTaskEv (value : jsstring)
  | PasteEv (text : jsstring)
  | CollapseEv (i : nat)
  | UrgentEv (i : nat) (checked : bool)
  | ImportantEv (i : nat) (checked : bool)
  | CheckEv (i : nat)
  | EditEv (i : nat) (save : bool) (value : jsstring)
  | DeadlineEv (i : nat) (value : jsstring)
  | EtaEv (i : nat) (value : jsstring)
  | DescEv (i : nat) (value : jsstring)
  | DeleteEv (i : nat)
  | DragStartEv (i : nat)
  | DragOverEv (after : option nat)
  | DragEndEv (i : nat)
  | TimerStartEv (i : nat)
  | TimerPauseEv (i : nat)
  | TimerResetEv (i : nat)
  | TickEv (i : nat)
  | SubstepEv (i : nat) (e : SubstepEvent)
  | SubEtaEv (i j : nat) (value : jsstring)
  | SubTimerToggleEv (i j : nat)
  | SubTickEv (i j : nat)
  | SortUrgencyEv
  | SortDeadlineEv
  | MatrixDropEv (taskId quadrant : jsstring)
  | ReloadEv.

(** A handler of the task at position [i]; an event on a task that is not
    there cannot occur and changes nothing. *)
Definition onTask (i : nat) (f : TaskLi → TaskLi) (l : list TaskLi) : list TaskLi :=
  alter f i l.

(** The same for the sub-step at position [j] of the task at [i]. *)
Definition onSubstep (i j : nat) (f : SubstepLi → SubstepLi) (l : list TaskLi)
  : list TaskLi :=
  alter (λ li, set_substeps (alter f j (substeps li)) li) i l.

(** A handler of a task that sorts the list afterwards. *)
Definition onTaskThen (i : nat) (f : TaskLi → TaskLi)
    (after : list TaskLi → list TaskLi) (l : list TaskLi) : list TaskLi :=
  match l !! i with
  | None => l
  | Some li => after (<[ i := f li ]> l)
  end.

(** The effect of an event on the id counter and the list.  A paste is
    taken when it is applied, at once or by the click on the prompt; a
    reload saves the list and loads it into a fresh page. *)
Definition step (ev : Event) (st : N * list TaskLi) : N * list TaskLi :=
  let '(counter, l) := st in
  match ev with
  | AddTaskEv value => addTask value counter l
  | PasteEv text =>
      if bool_decide (10%N ∈ text) then applyPaste text counter l else (counter, l)
  | CollapseEv i => (counter, onTask i collapseClick l)
  | UrgentEv i checked => (counter, onTaskThen i (urgentToggleChange checked) sortTasks l)
  | ImportantEv i checked =>
      (counter, onTaskThen i (importantToggleChange checked) sortTasks l)
  | CheckEv i => (counter, taskCheckboxClick i l)
  | EditEv i save value => (counter, onTask i (finishInlineEdit save value) l)
  | DeadlineEv i value => (counter, onTaskThen i (applyDeadline value) sortByUrgency l)
  | EtaEv i value => (counter, onTask i (etaInputChange value) l)
  | DescEv i value => (counter, onTask i (descInput value) l)
  | DeleteEv i => (counter, taskDeleteClick i l)
  | DragStartEv i => (counter, onTask i dragStart l)
  | DragOverEv after => (counter, dragOver after l)
  | DragEndEv i => (counter, onTask i dragEnd l)
  | TimerStartEv i => (counter, onTask i startTimer l)
  | TimerPauseEv i => (counter, onTask i pauseTimer l)
  | TimerResetEv i => (counter, onTask i resetTimer l)
  | TickEv i => (counter, onTask i tick l)
  | SubstepEv i e =>
      match l !! i with
      | None => (counter, l)
      | Some li =>
          let '(counter, li) := substepEvent e counter li in
          (counter, <[ i := li ]> l)
      end
  | SubEtaEv i j value => (counter, onSubstep i j (substepEtaInputChange value) l)
  | SubTimerToggleEv i j => (counter, onSubstep i j substepTimerToggle l)
  | SubTickEv i j => (counter, onSubstep i j tick l)
  | SortUrgencyEv => (counter, sortByUrgency l)
  | SortDeadlineEv => (counter, sortByDeadline l)
  | MatrixDropEv taskId quadrant =>
      match taskId with
      | [] => (counter, l)
      | _ =>
          match findTask taskId l with
          | None => (counter, l)
          | Some i => (counter, onTask i (matrixDrop quadrant) l)
          end
      end
  | ReloadEv => loadTasks (Some (saveTasks l)) 0 []
  end.

(** The state after a sequence of events, from the empty page. *)
Definition run (evs : list Event) : N * list TaskLi :=
  foldl (λ st ev, step ev st) (0%N, []) evs.

(** ** Vocabulary of the properties *)

(** The task carries the class [completed]. *)
Definition completedFlag (li : TaskLi) : bool := contains "completed" (classList li).

(** Number of sub-steps that carry the class [completed]. *)
Definition completedSubsteps (li : TaskLi) : nat :=
  length (filter (λ s, contains "completed" (sub_classList s) = true) (substeps li)).

(** Every sub-step element carries the class [substep] that
    [createSubstepElement] gives it. *)
Definition substepsMarked (li : TaskLi) : Prop :=
  Forall (λ s, "substep" ∈ sub_classList s) (substeps li).



(** A data attribute as the script reads it, [el.dataset.k || '']. *)
Definition attr (d : gmap string jsstring) (k : string) : jsstring :=
  or_else (d !! k) [].

(** What [createTaskElement], [attachTaskEventHandlers] and
    [createSubstepElement] establish for every task of the list: an id, a
    text, the two flags and the elapsed time are present and not empty. *)
Definition storedSubstep (s : SubstepLi) : Prop :=
  truthy (sub_dataset s !! "elapsedMs") = true.

Definition storedTask (li : TaskLi) : Prop :=
  truthy (dataset li !! "taskId") = true
  ∧ text li ≠ []
  ∧ truthy (dataset li !! "isUrgent") = true
  ∧ truthy (dataset li !! "isImportant") = true
  ∧ truthy (dataset li !! "elapsedMs") = true
  ∧ Forall storedSubstep (substeps li).

(** A sub-step [s'] read back from the record of [s]. *)
Definition restoredSubstep (s s' : SubstepLi) : Prop :=
  attr (sub_dataset s') "substepId" = attr (sub_dataset s) "substepId"
  ∧ sub_text s' = sub_text s
  ∧ contains "completed" (sub_classList s') = contains "completed" (sub_classList s)
  ∧ sub_checkbox s' = contains "completed" (sub_classList s)
  ∧ attr (sub_dataset s') "etaMin" = attr (sub_dataset s) "etaMin"
  ∧ attr (sub_dataset s') "elapsedMs" = attr (sub_dataset s) "elapsedMs"
  ∧ sub_dataset s' !! "timerRunning" = None
  ∧ sub_timerInterval s' = None.

(** A task [li'] read back from the record of [li]. *)
Definition restoredTask (li li' : TaskLi) : Prop :=
  (∀ k, k ∈ ["taskId"; "deadline"; "etaMin"; "isUrgent"; "isImportant"; "elapsedMs"] →
        attr (dataset li') k = attr (dataset li) k)
  ∧ text li' = text li
  ∧ desc li' = desc li
  ∧ contains "collapsed" (classList li') = contains "collapsed" (classList li)
  ∧ Forall2 restoredSubstep (substeps li) (substeps li')
  ∧ (substeps li ≠ [] →
       completedFlag li' = bool_decide (completedSubsteps li = length (substeps li)))
  ∧ checkbox li' = completedFlag li'
  ∧ dataset li' !! "priority" = Some (js "medium")
  ∧ dataset li' !! "timerRunning" = None
  ∧ timerInterval li' = None.

(** The reload path: the list is saved, the page is loaded anew (the id
    counter starts at 0 and the list is empty) and [loadTasks] runs. *)
Definition reload (listContainer : list TaskLi) : list TaskLi :=
  (loadTasks (Some (saveTasks listContainer)) 0 []).2.

(** The estimate of a task in minutes, when the attribute holds a number. *)
Definition estimate (li : TaskLi) : option Z :=
  if truthy (dataset li !! "etaMin") then
    match parseInt (attr (dataset li) "etaMin") with
    | Fin z => Some z
    | _ => None
    end
  else None.

(** The estimate is below [bound] minutes. *)
Definition estimateBelow (bound : Z) (li : TaskLi) : bool :=
  match estimate li with
  | Some m => m <? bound
  | None => false
  end.

(** The user's ways to classify a task by hand. *)
Inductive ManualEvent :=
  | UrgentToggle (checked : bool)
  | ImportantToggle (checked : bool)
  | MatrixDrop (quadrant : jsstring).

Definition manualEvent (e : ManualEvent) (li : TaskLi) : TaskLi :=
  match e with
  | UrgentToggle b => urgentToggleChange b li
  | ImportantToggle b => importantToggleChange b li
  | MatrixDrop q => matrixDrop q li
  end.

(** The weight of a task's priority in [sortByUrgency]. *)
Definition weight (li : TaskLi) : Z :=
  default 0 (order (or_else (dataset li !! "priority") (js "medium"))).

(** The priority is one of the table and the deadline, if any, is a date. *)
Definition sortable (li : TaskLi) : Prop :=
  is_Some (order (or_else (dataset li !! "priority") (js "medium")))
  ∧ deadlineKey li ≠ NaN.

(** [a] may stand before [b] in the order by urgency: a higher weight, or
    the same weight and a deadline that is not later, where a missing
    deadline counts as +infinity. *)
Definition urgencyBefore (a b : TaskLi) : Prop :=
  weight b < weight a
  ∨ (weight a = weight b ∧ leb (deadlineKey a) (deadlineKey b) = true).

(** A trimmed line that [smartParsePaste] takes as a list item. *)
Definition isListItem (trimmed : jsstring) : Prop :=
  trimmed ≠ [] ∧ listRegex_test trimmed = true.

(** A line that [smartParsePaste] takes as description text. *)
Definition isDescriptionLine (line : jsstring) : Prop :=
  trim line ≠ [] ∧ listRegex_test (trim line) = false.

(** A string of white space only. *)
Definition blank (s : jsstring) : Prop := Forall (λ c, isWhiteSpace c = true) s.

(** The line feed, as a string. *)
Definition LF : jsstring := [10%N].

(** ** Sample states *)

(** A task as [addTask] builds it, before it is put in the list. *)
Definition plainTask : TaskLi :=
  (attachTaskEventHandlers 0 (createTaskElement (js "Water the plants") (js "medium") [])).2.

(** The same task after a click on its completion checkbox. *)
Definition checkedTask : TaskLi :=
  set_classList (toggle "completed" true (classList plainTask)) (set_checkbox true plainTask).

(** A task with two sub-steps, as the paste handler or the sub-step input
    builds it; the ids continue from [plainTask]. *)
Definition reportTask : TaskLi :=
  (addSubstepsToTask [js "Outline"; js "Draft"] 2
     (attachTaskEventHandlers 1 (createTaskElement (js "Write report") (js "medium") [])).2).2.

(** A task whose timer was started, ran for 65 seconds and was paused. *)
Definition pausedTask : TaskLi :=
  pauseTimer
    (Nat.iter 65 tick
       (startTimer
          (attachTaskEventHandlers 4 (createTaskElement (js "Call the bank") (js "medium") [])).2)).

(** The same task with the timer still running. *)
Definition runningTask : TaskLi :=
  Nat.iter 65 tick
    (startTimer
       (attachTaskEventHandlers 4 (createTaskElement (js "Call the bank") (js "medium") [])).2).

(** A list of three tasks: one plain, one with two sub-steps, one with a
    paused timer. *)
Definition sampleStore : list TaskLi := [plainTask; reportTask; pausedTask].

(** A task with an estimate of ten minutes typed in, and no deadline. *)
Definition quickTask : TaskLi := etaInputChange (js "10") plainTask.

(** A task of the given priority and deadline. *)
Definition dueTask (name priority deadline : string) : TaskLi :=
  (attachTaskEventHandlers 0 (createTaskElement (js name) (js priority) (js deadline))).2.

(** ** Vocabulary of the further properties *)

(** The score [sortTasks] sorts by. *)
Definition quadrantScore (a : TaskLi) : Z :=
  getPriorityScore
    (bool_decide (dataset a !! "isUrgent" = Some (js "true")))
    (negb (bool_decide (dataset a !! "isImportant" = Some (js "false")))).

(** The rank of a cell of the matrix: Do-First 4, Schedule 3, Delegate 2,
    Eliminate 1. *)
Definition rank (q : Quadrant) : Z :=
  match q with
  | DoFirst => 4
  | Schedule => 3
  | Delegate => 2
  | Eliminate => 1
  end.

(** The deadline of a task is absent or a calendar date. *)
Definition dated (li : TaskLi) : Prop := deadlineKey li ≠ NaN.

(** The task carries the class [completed] exactly when its checkbox is
    checked. *)
Definition checkboxInSync (li : TaskLi) : Prop :=
  contains "completed" (classList li) = checkbox li.

#[global] Instance Quadrant_eq_dec : EqDecision Quadrant.
Proof. solve_decision. Defined.

(** The accessors of an element behave as those of a record. *)
Class ElementLaws (E : Type) `{Element E} := {
  el_dataset_set_dataset (d : gmap string jsstring) (el : E) :
    el_dataset (el_set_dataset d el) = d;
  el_timerInterval_set_dataset (d : gmap string jsstring) (el : E) :
    el_timerInterval (el_set_dataset d el) = el_timerInterval el;
  el_dataset_set_timerInterval (t : option number) (el : E) :
    el_dataset (el_set_timerInterval t el) = el_dataset el;
  el_timerInterval_set_timerInterval (t : option number) (el : E) :
    el_timerInterval (el_set_timerInterval t el) = t
}.

#[global] Instance TaskLi_ElementLaws : ElementLaws TaskLi.
Proof. by split. Qed.

#[global] Instance SubstepLi_ElementLaws : ElementLaws SubstepLi.
Proof. by split. Qed.

(** The state of an element whose ticker has counted up to [x]. *)
Definition counting {E : Type} `{Element E} (x : N) (el : E) : Prop :=
  el_timerInterval el = Some (Fin (Z.of_N x))
  ∧ el_dataset el !! "elapsedMs" = Some (stringOfN x)
  ∧ el_dataset el !! "timerRunning" = Some (js "true").

(** The [completed] class of the task is what the roll-up over its
    sub-steps gives. *)
Definition rolledUp (li : TaskLi) : Prop :=
  completedFlag li
  = bool_decide (0 < length (substeps li)
                 ∧ completedSubsteps li = length (substeps li))%nat.

(** The three priority classes a task element can carry. *)
Definition priorityClasses (li : TaskLi) : list string :=
  filter (λ c, c ∈ classList li) ["priority-high"; "priority-medium"; "priority-low"].

(** The ids of the tasks of the list, in order. *)
Definition taskIds (l : list TaskLi) : list (option jsstring) :=
  (λ li, dataset li !! "taskId") <$> l.

(** Every task of the list has an id drawn from the counter, below its
    current value, and no two tasks share an id. *)
Definition idsFresh (counter : N) (l : list TaskLi) : Prop :=
  Forall (λ o, ∃ k, (k < counter)%N ∧ o = Some (taskIdOf k)) (taskIds l)
  ∧ NoDup (taskIds l).

(** The page is not reloaded by the event. *)
Definition staysOnPage (ev : Event) : bool :=
  match ev with
  | ReloadEv => false
  | _ => true
  end.

(** The class [has-deadline] is there exactly when the deadline attribute
    is. *)
Definition deadlineInSync (li : TaskLi) : Prop :=
  contains "has-deadline" (classList li) = truthy (dataset li !! "deadline").

(** The checkbox of a sub-step mirrors its [completed] class. *)
Definition subInSync (s : SubstepLi) : Prop :=
  sub_checkbox s = contains "completed" (sub_classList s).

(** What holds of every task of the list at any time. *)
Definition goodTask (li : TaskLi) : Prop :=
  storedTask li
  ∧ checkboxInSync li
  ∧ deadlineInSync li
  ∧ substepsMarked li
  ∧ Forall subInSync (substeps li).

(** *** The specification in its own words *)

(** The bullets that the spec lists as markers of a list item: the hyphen,
    the asterisk and the bullet U+2022. *)
Definition specBullet (c : N) : bool :=
  ((c =? 45) || (c =? 42) || (c =? 8226))%N.

(** A list item as the spec describes it: the line starts, after white
    space, with an ordinal (digits and a dot) or with one of the bullets.
    The spec does not say where a marker ends; as in its examples, it is
    set off from the text by white space. *)
Definition specListItem (line : jsstring) : bool :=
  let s := trimStart line in
  let rest :=
    match takeDigits s with
    | [] =>
        match s with
        | c :: r => if specBullet c then Some r else None
        | [] => None
        end
    | ds =>
        match drop (length ds) s with
        | c :: r => if (c =? 46)%N then Some r else None
        | [] => None
        end
    end in
  match rest with
  | Some (c :: _) => isWhiteSpace c
  | _ => false
  end.

(** The first character of a line after its leading white space is one of
    those on which the marker class of the script and the bullets of the
    spec differ: U+2022, U+00E2, U+20AC, U+00A2. *)
Definition contested (line : jsstring) : bool :=
  match trimStart line with
  | c :: _ => ((c =? 8226) || (c =? 226) || (c =? 8364) || (c =? 162))%N
  | [] => false
  end.

(** The calendar day that a deadline names, as the date field writes it. *)
Definition sameDay (now : LocalDay) (deadline : jsstring) : Prop :=
  Date.parseDate deadline = Some (fullYear now, month now + 1, date now).

(** A day of the calendar with a year of four digits. *)
Definition validDay (now : LocalDay) : Prop :=
  1000 ≤ fullYear now ≤ 9999 ∧ 0 ≤ month now ≤ 11
  ∧ 1 ≤ date now ≤ Date.daysInMonth (fullYear now) (month now + 1).

(** The event is not one of the user's ways to classify a task by hand. *)
Definition notManual (ev : Event) : bool :=
  match ev with
  | UrgentEv _ _ | ImportantEv _ _ | MatrixDropEv _ _ => false
  | _ => true
  end.

(** The task was never classified: both flags are as [createTaskElement]
    writes them. *)
Definition unclassified (li : TaskLi) : Prop :=
  dataset li !! "isUrgent" = Some (js "false")
  ∧ dataset li !! "isImportant" = Some (js "false").

(** An integer that a double holds exactly. *)
Definition safeInteger (z : Z) : Prop := - 2 ^ 53 ≤ z ≤ 2 ^ 53.

(** The entries of the stored array that [loadTasks] gets to load: those
    before the first entry that is [null] or holds a sub-step that is
    [null]. *)
Fixpoint loadable (entries : list (option StoredTask)) : list StoredTask :=
  match entries with
  | Some t :: rest =>
      if bool_decide (Forall is_Some (s_substeps t)) then t :: loadable rest else []
  | _ => []
  end.

(* THEOREMS *)

(** * Properties *)

(** ** Sub-step roll-up *)

Lemma substeps_updateSubstepSummary li :
  substeps (updateSubstepSummary li) = substeps li.
Proof. unfold updateSubstepSummary. by case_match. Qed.

Lemma dataset_updateSubstepSummary li :
  dataset (updateSubstepSummary li) = dataset li.
Proof. unfold updateSubstepSummary. by case_match. Qed.

Lemma marked_filter (l : list SubstepLi) :
  Forall (λ s, "substep" ∈ sub_classList s) l →
  filter (λ s, isCompletedSubstep s = true) l
  = filter (λ s, contains "completed" (sub_classList s) = true) l.
Proof.
  induction 1 as [|s l Hs _ IH]; [done|].
  assert (Hiff : isCompletedSubstep s = contains "completed" (sub_classList s)).
  { unfold isCompletedSubstep. unfold contains at 1.
    destruct (bool_decide_reflect ("substep" ∈ sub_classList s)); [done|contradiction]. }
  rewrite 2!filter_cons, IH, Hiff. done.
Qed.

(** The flag written by the recompute, for any number of sub-steps. *)
Lemma completedFlag_updateSubstepSummary li :
  substepsMarked li →
  completedFlag (updateSubstepSummary li)
  = bool_decide (0 < length (substeps li) ∧ completedSubsteps li = length (substeps li))%nat.
Proof.
  intros Hm. unfold updateSubstepSummary, completedFlag, completedSubsteps.
  rewrite (marked_filter _ Hm).
  set (c := length (filter _ _)). set (n := length (substeps li)).
  destruct (Nat.ltb_spec 0 c) as [Hc|Hc]; destruct (Nat.eqb_spec c n) as [Hn|Hn];
    simpl; unfold contains; apply bool_decide_ext;
    (split; [intros ? | intros [? ?]]); try lia; set_solver.
Qed.

Lemma checkbox_updateSubstepSummary li :
  checkbox (updateSubstepSummary li) = completedFlag (updateSubstepSummary li).
Proof.
  unfold updateSubstepSummary, completedFlag, contains.
  case_match; simpl.
  - rewrite bool_decide_eq_true_2; [done | set_solver].
  - rewrite bool_decide_eq_false_2; [done | set_solver].
Qed.

Lemma completedSubsteps_updateSubstepSummary li :
  completedSubsteps (updateSubstepSummary li) = completedSubsteps li.
Proof. unfold completedSubsteps. by rewrite substeps_updateSubstepSummary. Qed.

Lemma appendSubsteps_spec subSteps : ∀ counter subList,
  ∃ new,
    (appendSubsteps subSteps counter subList).2 = subList ++ new
    ∧ length new = length subSteps
    ∧ Forall (λ s, "substep" ∈ sub_classList s) new.
Proof.
  induction subSteps as [|t rest IH]; intros counter subList.
  - exists []. simpl. by rewrite app_nil_r.
  - cbn [appendSubsteps]. edestruct IH as (new & Heq & Hl & Hm).
    rewrite Heq. eexists (_ :: new). rewrite <- app_assoc.
    split; [reflexivity|]. split; [simpl; by rewrite Hl|].
    constructor; [|done]. simpl. by apply elem_of_singleton.
Qed.

(** Every sub-step event that takes effect ends in a recompute of the
    parent over the new list of sub-steps, which stays marked. *)
Lemma substepEvent_recomputes e counter li :
  substepsMarked li →
  takesEffect e li = true →
  ∃ l, (substepEvent e counter li).2 = updateSubstepSummary (set_substeps l li)
       ∧ Forall (λ s, "substep" ∈ sub_classList s) l.
Proof.
  intros Hm He. destruct e as [v|steps|i|i]; simpl in *.
  - unfold addSubFromInput. destruct (trim v) as [|c t] eqn:Ht; [done|].
    eexists. split; [reflexivity|].
    apply Forall_app. split; [done|]. constructor; [simpl; set_solver | done].
  - unfold addSubstepsToTask. destruct steps as [|t rest]; [done|].
    destruct (appendSubsteps_spec (t :: rest) counter (substeps li)) as (new & Hn & _ & Hf).
    destruct (appendSubsteps (t :: rest) counter (substeps li)) as [c' l'] eqn:Ha.
    simpl in Hn. subst l'. eexists. split; [reflexivity|].
    apply Forall_app. by split.
  - apply bool_decide_eq_true in He. unfold substepCheckboxClick.
    destruct (lookup_lt_is_Some_2 _ _ He) as [s Hs]. rewrite Hs.
    eexists. split; [reflexivity|].
    apply Forall_insert; [done|]. simpl.
    pose proof (Forall_lookup_1 _ _ _ _ Hm Hs) as Hin. simpl in Hin.
    unfold toggle. destruct (negb (sub_checkbox s)); set_solver.
  - apply bool_decide_eq_true in He. unfold substepDeleteClick.
    destruct (lookup_lt_is_Some_2 _ _ He) as [s Hs]. rewrite Hs.
    eexists. split; [reflexivity|]. by apply Forall_delete.
Qed.

(** C1. For a task that has N > 0 sub-steps once a sub-step was added,
    removed or toggled, the handler of that event leaves the task's
    [completed] class (and its checkbox) equal to "the number of completed
    sub-steps is N": the recompute is part of the handler itself. *)
Theorem substep_rollup (e : SubstepEvent) (counter : N) (li : TaskLi) :
  substepsMarked li →
  takesEffect e li = true →
  let li' := (substepEvent e counter li).2 in
  (0 < length (substeps li'))%nat →
  completedFlag li' = bool_decide (completedSubsteps li' = length (substeps li'))
  ∧ checkbox li' = completedFlag li'
  ∧ substepsMarked li'.
Proof.
  intros Hm He li' Hpos. subst li'.
  destruct (substepEvent_recomputes e counter li Hm He) as (l & Heq & Hl).
  rewrite Heq in *. rewrite substeps_updateSubstepSummary in Hpos.
  split; [|split].
  - rewrite completedFlag_updateSubstepSummary by done.
    rewrite completedSubsteps_updateSubstepSummary, substeps_updateSubstepSummary.
    apply bool_decide_ext. simpl in *. tauto.
  - apply checkbox_updateSubstepSummary.
  - unfold substepsMarked. by rewrite substeps_updateSubstepSummary.
Qed.

Lemma substep_rollup_witness :
  let li' := (substepEvent (CheckboxClick 0) 4 reportTask).2 in
  completedFlag li' = bool_decide (completedSubsteps li' = length (substeps li'))
  ∧ checkbox li' = completedFlag li'
  ∧ substepsMarked li'.
Proof.
  apply (substep_rollup (CheckboxClick 0) 4 reportTask).
  - apply (bool_decide_unpack _). by vm_compute.
  - by vm_compute.
  - vm_compute. lia.
Defined.

(** ** Tasks without sub-steps *)

(** C2. The recompute on a task without sub-steps writes the [completed]
    class and the checkbox off, whatever they were: a task the user
    checked does not stay completed. *)
Theorem recompute_without_substeps_clears_completed (li : TaskLi) :
  substeps li = [] →
  completedFlag (updateSubstepSummary li) = false
  ∧ checkbox (updateSubstepSummary li) = false.
Proof.
  intros Hs. unfold updateSubstepSummary. rewrite Hs. simpl.
  split; [|done]. unfold completedFlag, contains. simpl.
  apply bool_decide_eq_false_2. set_solver.
Qed.

(** A task checked by the user, with no sub-steps: it is completed, loses
    the class in the recompute, and comes back from the store unchecked. *)
Lemma recompute_without_substeps_clears_completed_witness :
  completedFlag checkedTask = true
  ∧ substeps checkedTask = []
  ∧ completedFlag (updateSubstepSummary checkedTask) = false
  ∧ checkbox (updateSubstepSummary checkedTask) = false
  ∧ completedFlag <$> (loadTasks (Some (saveTasks [checkedTask])) 1 []).2 = [false].
Proof.
  split; [by vm_compute|]. split; [reflexivity|].
  split; [|split].
  - apply (recompute_without_substeps_clears_completed checkedTask). reflexivity.
  - apply (recompute_without_substeps_clears_completed checkedTask). reflexivity.
  - by vm_compute.
Defined.

(** ** Completion checkbox of a task *)

(** C10. Checking the completion checkbox of the task at position [i]
    moves that task behind all others, which keep their order; unchecking
    it leaves every task at its position.  In both cases the task itself
    changes only in its checkbox and its [completed] class. *)
Theorem checkbox_click_moves_to_bottom (i : nat) (l : list TaskLi) (li : TaskLi) :
  l !! i = Some li →
  let li' :=
    set_classList (toggle "completed" (negb (checkbox li)) (classList li))
      (set_checkbox (negb (checkbox li)) li) in
  (checkbox li = false → taskCheckboxClick i l = delete i l ++ [li'])
  ∧ (checkbox li = true → taskCheckboxClick i l = <[ i := li' ]> l).
Proof.
  intros Hi li'. unfold taskCheckboxClick. rewrite Hi.
  split; intros Hc; subst li'; rewrite Hc; simpl.
  - unfold moveCompletedTaskToBottom.
    rewrite list_lookup_insert_eq by (by eapply lookup_lt_Some).
    f_equal. apply list_eq. intros j.
    destruct (decide (j < i)%nat).
    + rewrite !list_lookup_delete_lt, list_lookup_insert_ne by lia. done.
    + by rewrite !list_lookup_delete_ge, list_lookup_insert_ne by lia.
  - done.
Qed.

Lemma checkbox_click_moves_to_bottom_witness :
  taskCheckboxClick 0 [plainTask; plainTask] = [plainTask; checkedTask].
Proof.
  destruct (checkbox_click_moves_to_bottom 0 [plainTask; plainTask] plainTask eq_refl)
    as [Hmove _].
  exact (Hmove eq_refl).
Defined.

(** ** Persistence round trip *)

Lemma loadSubstep_restores s :
  storedSubstep s → restoredSubstep s (loadSubstep (serializeSubstep s)).
Proof.
  unfold storedSubstep, restoredSubstep, serializeSubstep, attr. intros He.
  destruct (sub_dataset s !! "substepId") as [[|c1 i1]|];
  destruct (sub_dataset s !! "etaMin") as [[|c2 i2]|];
  destruct (sub_dataset s !! "elapsedMs") as [[|c3 i3]|]; try done;
  destruct (contains "completed" (sub_classList s));
  vm_compute; repeat split.
Qed.

Lemma loadSubstep_marked r : "substep" ∈ sub_classList (loadSubstep r).
Proof.
  unfold loadSubstep.
  destruct (r_sub_id r), (r_sub_etaMin r), (r_sub_completed r); simpl; set_solver.
Qed.

Lemma classList_updateSubstepSummary_other c li :
  c ≠ "completed" →
  contains c (classList (updateSubstepSummary li)) = contains c (classList li).
Proof.
  intros Hc. unfold updateSubstepSummary, contains.
  case_match; simpl; apply bool_decide_ext; set_solver.
Qed.

Lemma timerInterval_updateSubstepSummary li :
  timerInterval (updateSubstepSummary li) = timerInterval li.
Proof. unfold updateSubstepSummary. by case_match. Qed.

Lemma text_updateSubstepSummary li : text (updateSubstepSummary li) = text li.
Proof. unfold updateSubstepSummary. by case_match. Qed.

Lemma desc_updateSubstepSummary li : desc (updateSubstepSummary li) = desc li.
Proof. unfold updateSubstepSummary. by case_match. Qed.

(** The element [restoreTask] builds. *)
Lemma restoreTask_shape r :
  r_id r ≠ [] →
  let li0 := restoreTask r in
  substeps li0 = []
  ∧ dataset li0 !! "description" = None
  ∧ attr (dataset li0) "taskId" = r_id r
  ∧ attr (dataset li0) "deadline" = r_deadline r
  ∧ attr (dataset li0) "etaMin" = r_etaMin r
  ∧ attr (dataset li0) "isUrgent" = or_else (Some (r_isUrgent r)) (js "false")
  ∧ attr (dataset li0) "isImportant" = or_else (Some (r_isImportant r)) (js "false")
  ∧ attr (dataset li0) "elapsedMs" = or_else (Some (r_elapsedMs r)) (js "0")
  ∧ text li0 = or_else (Some (r_text r)) (js "Untitled")
  ∧ desc li0 = r_desc r
  ∧ contains "collapsed" (classList li0) = r_collapsed r
  ∧ dataset li0 !! "priority" = Some (js "medium")
  ∧ dataset li0 !! "timerRunning" = None
  ∧ timerInterval li0 = None.
Proof.
  destruct r as [id txt dsc dl eta cpl urg imp el col subs]. simpl.
  intros Hid. destruct id as [|c0 i0]; [done|].
  destruct dl as [|c1 d1]; destruct eta as [|c2 e2]; destruct cpl; destruct col;
    destruct urg as [|c3 u3]; destruct imp as [|c4 i4]; destruct el as [|c5 e5];
    vm_compute; repeat split.
Qed.

(** [attachTaskEventHandlers] on an element that has an id, no sub-steps and
    no description attribute. *)
Lemma attachTaskEventHandlers_restored counter li :
  attr (dataset li) "taskId" ≠ [] →
  dataset li !! "description" = None →
  attachTaskEventHandlers counter li = (counter, updateSubstepSummary li).
Proof.
  intros Hid Hd. unfold attachTaskEventHandlers. rewrite Hd. simpl.
  rewrite dataset_updateSubstepSummary. unfold attr in Hid.
  by destruct (dataset li !! "taskId") as [[|c s]|].
Qed.

(** The element [loadTask] builds, before the final recompute. *)
Lemma loadTask_shape counter r :
  r_id r ≠ [] →
  ∃ li0,
    loadTask counter r = (counter, updateSubstepSummary li0)
    ∧ substeps li0 = loadSubstep <$> r_substeps r
    ∧ attr (dataset li0) "taskId" = r_id r
    ∧ attr (dataset li0) "deadline" = r_deadline r
    ∧ attr (dataset li0) "etaMin" = r_etaMin r
    ∧ attr (dataset li0) "isUrgent" = or_else (Some (r_isUrgent r)) (js "false")
    ∧ attr (dataset li0) "isImportant" = or_else (Some (r_isImportant r)) (js "false")
    ∧ attr (dataset li0) "elapsedMs" = or_else (Some (r_elapsedMs r)) (js "0")
    ∧ text li0 = or_else (Some (r_text r)) (js "Untitled")
    ∧ desc li0 = r_desc r
    ∧ contains "collapsed" (classList li0) = r_collapsed r
    ∧ dataset li0 !! "priority" = Some (js "medium")
    ∧ dataset li0 !! "timerRunning" = None
    ∧ timerInterval li0 = None.
Proof.
  intros Hid.
  destruct (restoreTask_shape r Hid) as
    (Hs & Hd & Aid & Adl & Aeta & Au & Ai & Ael & Atext & Adesc & Acol & Aprio & Arun & Aint).
  unfold loadTask.
  rewrite attachTaskEventHandlers_restored by (by rewrite ?Aid).
  eexists. split; [reflexivity|].
  cbn [substeps set_substeps dataset text desc classList timerInterval].
  rewrite dataset_updateSubstepSummary, substeps_updateSubstepSummary,
    text_updateSubstepSummary, desc_updateSubstepSummary,
    timerInterval_updateSubstepSummary,
    classList_updateSubstepSummary_other, Hs by done.
  done.
Qed.

Lemma or_else_default (x : option jsstring) (d : jsstring) :
  truthy x = true → or_else (Some (or_else x d)) d = or_else x [].
Proof. by destruct x as [[|c s]|]. Qed.

Lemma completed_count_restored (l l' : list SubstepLi) :
  Forall2 restoredSubstep l l' →
  length (filter (λ s, contains "completed" (sub_classList s) = true) l')
  = length (filter (λ s, contains "completed" (sub_classList s) = true) l).
Proof.
  induction 1 as [|s s' l l' Hs _ IH]; [done|].
  destruct Hs as (_ & _ & Hc & _).
  rewrite 2!filter_cons, Hc. case_decide; simpl; by rewrite IH.
Qed.

Lemma loadTask_restores counter li :
  storedTask li →
  ∃ li', loadTask counter (serializeTask li) = (counter, li') ∧ restoredTask li li'.
Proof.
  intros (Hid & Htext & Hu & Hi & He & Hsub).
  destruct (loadTask_shape counter (serializeTask li)) as
    (li0 & Heq & Hs0 & Aid & Adl & Aeta & Au & Ai & Ael & Atext & Adesc & Acol & Aprio & Arun & Aint).
  { simpl. by destruct (dataset li !! "taskId") as [[|c s]|]. }
  cbn [serializeTask r_id r_text r_desc r_deadline r_etaMin r_completed r_isUrgent
       r_isImportant r_elapsedMs r_collapsed r_substeps] in *.
  rewrite or_else_default in Au, Ai, Ael by done.
  assert (Hsubs : Forall2 restoredSubstep (substeps li) (substeps li0)).
  { rewrite Hs0, <- list_fmap_compose. apply Forall2_fmap_r, Forall_Forall2_diag.
    eapply Forall_impl; [exact Hsub|]. intros s Hs. by apply loadSubstep_restores. }
  assert (Hmark : substepsMarked li0).
  { unfold substepsMarked. rewrite Hs0. apply Forall_fmap, Forall_true.
    intros r. apply loadSubstep_marked. }
  exists (updateSubstepSummary li0). split; [done|].
  unfold restoredTask.
  rewrite dataset_updateSubstepSummary, text_updateSubstepSummary,
    desc_updateSubstepSummary, substeps_updateSubstepSummary,
    timerInterval_updateSubstepSummary,
    classList_updateSubstepSummary_other by done.
  split; [|split; [|split; [|split; [|split; [|split; [|split]]]]]]; try done.
  - intros k Hk. set_unfold in Hk. destruct_or!; subst k; done.
  - rewrite Atext. by destruct (text li).
  - intros Hne. rewrite completedFlag_updateSubstepSummary by done.
    unfold completedSubsteps. rewrite (completed_count_restored _ _ Hsubs).
    rewrite <- (Forall2_length _ _ _ Hsubs).
    apply bool_decide_ext. destruct (substeps li); [done|]. simpl. split; [tauto|].
    intros ?. split; [lia|done].
  - apply checkbox_updateSubstepSummary.
Qed.

Lemma loadAll_restores l : ∀ counter acc,
  Forall storedTask l →
  ∃ l', loadAll (saveTasks l) counter acc = (counter, acc ++ l')
        ∧ Forall2 restoredTask l l'.
Proof.
  induction l as [|li l IH]; intros counter acc Hl.
  - exists []. by rewrite app_nil_r.
  - apply Forall_cons in Hl as [Hli Hl]. simpl.
    destruct (loadTask_restores counter li Hli) as (li' & -> & Hr).
    destruct (IH counter (acc ++ [li']) Hl) as (l' & -> & Hr').
    exists (li' :: l'). rewrite <- app_assoc. split; [done|]. by constructor.
Qed.

(** C3 (amended). Saving the list and loading it again gives, task by
    task and in the same order, the same id, deadline, estimate, urgent and
    important flags, elapsed time, text, description, collapsed state and
    the same sub-steps (id, text, completed, estimate, elapsed time).  A task
    with at least one sub-step comes back completed exactly when all its
    sub-steps are completed.  Priority and timer state are not part of the
    record: every task comes back with priority [medium] and no timer
    running. *)
Theorem reload_restores (l old : list TaskLi) (counter : N) :
  Forall storedTask l →
  (loadTasks (Some (saveTasks l)) counter old).1 = counter
  ∧ Forall2 restoredTask l (loadTasks (Some (saveTasks l)) counter old).2.
Proof.
  intros Hl. simpl.
  destruct (loadAll_restores l counter [] Hl) as (l' & -> & Hr). by split.
Qed.

Lemma sampleStore_stored : Forall storedTask sampleStore.
Proof.
  vm_compute.
  repeat first [apply Forall_nil_2 | apply Forall_cons_2 | split]; done.
Qed.

Lemma reload_restores_witness :
  Forall2 restoredTask sampleStore (reload sampleStore)
  ∧ (λ li, attr (dataset li) "elapsedMs") <$> reload sampleStore
    = [js "0"; js "0"; js "65000"].
Proof.
  split.
  - apply (reload_restores sampleStore [] 0). exact sampleStore_stored.
  - by vm_compute.
Defined.

(** C3 as stated fails for the timer state: a task whose timer is running
    is a well-formed task of the list, and comes back from the store with
    no [timerRunning] attribute, its timer stopped at the last saved time. *)
Lemma reload_forgets_running_timer :
  storedTask runningTask
  ∧ dataset runningTask !! "timerRunning" = Some (js "true")
  ∧ (λ li, dataset li !! "timerRunning") <$> reload [runningTask] = [None]
  ∧ (λ li, attr (dataset li) "elapsedMs") <$> reload [runningTask] = [js "65000"].
Proof.
  split; [|split; [|split]].
  - vm_compute. repeat first [apply Forall_nil_2 | split]; done.
  - by vm_compute.
  - by vm_compute.
  - by vm_compute.
Qed.

(** ** Classifier *)

Lemma parseDigits_Fin_or_NaN sign s :
  parseDigits sign s = NaN ∨ ∃ z, parseDigits sign s = Fin z.
Proof. unfold parseDigits. destruct (takeDigits s); [by left | right; eauto]. Qed.

Lemma parseInt_Fin_or_NaN s : parseInt s = NaN ∨ ∃ z, parseInt s = Fin z.
Proof.
  unfold parseInt. destruct (trimStart s) as [|c r]; [by left|].
  repeat case_match; apply parseDigits_Fin_or_NaN.
Qed.

Lemma todayString_nonempty now : todayString now ≠ [].
Proof. unfold todayString. by destruct (String_ (Fin (fullYear now))). Qed.

Lemma label_getTaskCategory z :
  label (getTaskCategory (Fin z))
  = if z <? 15 then "Quick"
    else if negb (z <? 15) && negb (60 <? z) then "Core" else "Major".
Proof.
  unfold getTaskCategory. cbn [ltb leb].
  destruct (z <? 15); [done|]. by destruct (negb false && negb (60 <? z)).
Qed.


(** What [autoClassifyTask] computes when it is called.  Automatic
    classification writes [isImportant = "false"] when the
    estimate is below 15 minutes (the Quick category) and ["true"]
    otherwise, and [isUrgent = "true"] exactly when the estimate is below 60
    minutes or the deadline is today's date.  A task with an estimate of 10
    minutes and no deadline is classified urgent and not important and is
    shown in the Delegate cell. *)
Theorem autoClassify_spec :
  (∀ (now : LocalDay) (li : TaskLi),
     let li' := autoClassifyTask now li in
     dataset li' !! "isImportant" = Some (String_bool (negb (estimateBelow 15 li)))
     ∧ dataset li' !! "isUrgent"
       = Some (String_bool
                 (estimateBelow 60 li
                  || bool_decide (attr (dataset li) "deadline" = todayString now))))
  ∧ (∀ now : LocalDay,
       estimate quickTask = Some 10
       ∧ dataset quickTask !! "deadline" = None
       ∧ dataset (autoClassifyTask now quickTask) !! "isUrgent" = Some (js "true")
       ∧ dataset (autoClassifyTask now quickTask) !! "isImportant" = Some (js "false")
       ∧ targetCell (autoClassifyTask now quickTask) = Delegate).
Proof.
  assert (Hgen : ∀ (now : LocalDay) (li : TaskLi),
     let li' := autoClassifyTask now li in
     dataset li' !! "isImportant" = Some (String_bool (negb (estimateBelow 15 li)))
     ∧ dataset li' !! "isUrgent"
       = Some (String_bool
                 (estimateBelow 60 li
                  || bool_decide (attr (dataset li) "deadline" = todayString now)))).
  { intros now li li'. subst li'.
    unfold autoClassifyTask, estimateBelow, estimate, attr.
    assert (Hday : ∀ u : bool,
      match or_else (dataset li !! "deadline") [] with
      | [] => u
      | _ :: _ =>
          if bool_decide (or_else (dataset li !! "deadline") [] = todayString now)
          then true else u
      end = u || bool_decide (or_else (dataset li !! "deadline") [] = todayString now)).
    { intros u. pose proof (todayString_nonempty now) as Hne.
      destruct (or_else (dataset li !! "deadline") []) as [|c d] eqn:Hd.
      - rewrite bool_decide_eq_false_2 by done. by destruct u.
      - case_bool_decide; by destruct u. }
    destruct (truthy (dataset li !! "etaMin")) eqn:Ht.
    + destruct (parseInt_Fin_or_NaN (or_else (dataset li !! "etaMin") [])) as [->|[z ->]].
      * simpl. rewrite Hday. by simplify_map_eq.
      * cbn [isNaN negb]. rewrite label_getTaskCategory. cbn [ltb].
        destruct (z <? 15); destruct (60 <? z); destruct (z <? 60); simpl;
          rewrite Hday; by simplify_map_eq.
    + simpl. rewrite Hday. by simplify_map_eq. }
  split; [exact Hgen|].
  intros now.
  assert (He : estimate quickTask = Some 10) by by vm_compute.
  assert (Hd : dataset quickTask !! "deadline" = None) by by vm_compute.
  destruct (Hgen now quickTask) as [Hi Hu].
  replace (estimateBelow 15 quickTask) with true in Hi by by vm_compute.
  replace (estimateBelow 60 quickTask) with true in Hu by by vm_compute.
  split; [done|]. split; [done|]. split; [exact Hu|]. split; [exact Hi|].
  unfold targetCell. rewrite Hu, Hi. by vm_compute.
Qed.

(** ** Manual classification *)

Lemma etaInputChange_other value li k :
  k ≠ "etaMin" → dataset (etaInputChange value li) !! k = dataset li !! k.
Proof.
  intros Hk. unfold etaInputChange.
  destruct (trim (numberInputValue value)); simpl; by simplify_map_eq.
Qed.

Lemma etaInputChanges_other values : ∀ li k,
  k ≠ "etaMin" →
  dataset (foldl (λ li v, etaInputChange v li) li values) !! k = dataset li !! k.
Proof.
  induction values as [|v values IH]; intros li k Hk; [done|].
  simpl. rewrite IH by done. by apply etaInputChange_other.
Qed.

(** C6. After the user has set a flag with the urgent or important toggle
    or dropped the task on a matrix cell, any number of changes of the
    estimate leave [isUrgent], [isImportant] and the mark [matrixTouched]
    as they were; the toggles leave that mark set to ["true"]. *)
Theorem estimate_change_keeps_classification
    (e : ManualEvent) (values : list jsstring) (li : TaskLi) :
  let li1 := manualEvent e li in
  let li2 := foldl (λ li v, etaInputChange v li) li1 values in
  dataset li2 !! "isUrgent" = dataset li1 !! "isUrgent"
  ∧ dataset li2 !! "isImportant" = dataset li1 !! "isImportant"
  ∧ dataset li2 !! "matrixTouched" = dataset li1 !! "matrixTouched"
  ∧ match e with
    | UrgentToggle b =>
        dataset li2 !! "isUrgent" = Some (String_bool b)
        ∧ dataset li2 !! "matrixTouched" = Some (js "true")
    | ImportantToggle b =>
        dataset li2 !! "isImportant" = Some (String_bool b)
        ∧ dataset li2 !! "matrixTouched" = Some (js "true")
    | MatrixDrop q =>
        targetCell li2 = targetCell li1
    end.
Proof.
  intros li1 li2. subst li2.
  rewrite !etaInputChanges_other by done.
  repeat (split; [done|]).
  subst li1. destruct e as [b|b|q]; simpl.
  - destruct b; by simplify_map_eq.
  - destruct b; by simplify_map_eq.
  - unfold targetCell. by rewrite !etaInputChanges_other.
Qed.
(** ** Estimate input *)

Lemma digitsValue_acc s : ∀ a,
  digitsValue a s = a * 10 ^ Z.of_nat (length s) + digitsValue 0 s.
Proof.
  induction s as [|c s IH]; intros a; simpl digitsValue.
  - simpl. lia.
  - rewrite (IH (10 * a + digitValue c)), (IH (10 * 0 + digitValue c)).
    rewrite length_cons, Nat2Z.inj_succ, Z.pow_succ_r by lia. lia.
Qed.

Lemma isDigit_spec c : isDigit c = true ↔ (48 ≤ c ≤ 57)%N.
Proof. unfold isDigit. rewrite andb_true_iff, !N.leb_le. done. Qed.

Lemma digitsOf_digits fuel : ∀ n acc,
  Forall (λ c, isDigit c = true) acc →
  Forall (λ c, isDigit c = true) (digitsOf fuel n acc).
Proof.
  induction fuel as [|fuel IH]; intros n acc Hacc; [done|].
  assert (isDigit (48 + n mod 10) = true) as Hd.
  { apply isDigit_spec. assert (n mod 10 < 10)%N by (by apply N.mod_lt). set (m := (n mod 10)%N) in *. clearbody m. lia. }
  simpl. destruct (n <? 10)%N; [by constructor|]. apply IH. by constructor.
Qed.

Lemma digitsOf_value fuel : ∀ n acc,
  (n < 2 ^ N.of_nat fuel)%N →
  digitsValue 0 (digitsOf fuel n acc)
  = Z.of_N n * 10 ^ Z.of_nat (length acc) + digitsValue 0 acc.
Proof.
  induction fuel as [|fuel IH]; intros n acc Hn.
  - simpl in *. lia.
  - cbn [digitsOf]. destruct (N.ltb_spec n 10) as [Hlt|Hge].
    + cbn [digitsValue]. rewrite digitsValue_acc. unfold digitValue.
      rewrite N.mod_small by done. f_equal. lia.
    + rewrite IH.
      * cbn [digitsValue length]. rewrite (digitsValue_acc acc).
        unfold digitValue. rewrite Nat2Z.inj_succ, Z.pow_succ_r by lia.
        rewrite (N.div_mod n 10) at 3 by done.
        rewrite !N2Z.inj_add, N2Z.inj_mul.
        generalize (Z.of_N (n `div` 10)) (Z.of_N (n `mod` 10))
          (10 ^ Z.of_nat (length acc)). intros q m P. simpl Z.of_N. ring.
      * rewrite Nat2N.inj_succ, N.pow_succ_r' in Hn.
        apply N.Div0.div_lt_upper_bound. lia.
Qed.

Lemma digitsOf_nonempty fuel n acc : digitsOf (S fuel) n acc ≠ [].
Proof.
  revert n acc. induction fuel as [|fuel IH]; intros n acc; cbn [digitsOf].
  - by destruct (n <? 10)%N.
  - destruct (n <? 10)%N; [done|]. apply IH.
Qed.

Lemma stringOfN_digits n : Forall (λ c, isDigit c = true) (stringOfN n).
Proof. by apply digitsOf_digits. Qed.

Lemma stringOfN_nonempty n : stringOfN n ≠ [].
Proof. apply digitsOf_nonempty. Qed.

Lemma stringOfN_value n : digitsValue 0 (stringOfN n) = Z.of_N n.
Proof.
  unfold stringOfN. rewrite digitsOf_value; [simpl; lia|].
  rewrite Nat2N.inj_succ, N2Nat.id.
  destruct (decide (n = 0%N)) as [->|Hn]; [done|].
  apply N.log2_spec. lia.
Qed.

Lemma takeDigits_all s : Forall (λ c, isDigit c = true) s → takeDigits s = s.
Proof. induction 1 as [|c s Hc _ IH]; [done|]. simpl. by rewrite Hc, IH. Qed.

Lemma isDigit_not_white c : isDigit c = true → isWhiteSpace c = false.
Proof.
  rewrite isDigit_spec. intros Hc. unfold isWhiteSpace.
  repeat match goal with
         | |- context [(c =? ?k)%N] => rewrite (proj2 (N.eqb_neq c k)) by lia
         end.
  rewrite (proj2 (N.leb_gt c 13)), (proj2 (N.leb_gt 8192 c)) by lia.
  by rewrite andb_false_r.
Qed.

Lemma trimStart_head c s : isWhiteSpace c = false → trimStart (c :: s) = c :: s.
Proof. intros Hc. simpl. by rewrite Hc. Qed.

(** A string that neither starts nor ends with white space is its own trim. *)
Lemma trim_digits s : Forall (λ c, isDigit c = true) s → trim s = s.
Proof.
  intros Hs. unfold trim, trimEnd.
  assert (∀ t, Forall (λ c, isDigit c = true) t → trimStart t = t) as Hts.
  { intros [|c t] Ht; [done|]. apply trimStart_head, isDigit_not_white.
    by apply Forall_cons in Ht as [? _]. }
  rewrite (Hts s Hs), Hts by (by apply Forall_reverse). apply reverse_involutive.
Qed.

Lemma parseInt_stringOfN n : parseInt (stringOfN n) = Fin (Z.of_N n).
Proof.
  pose proof (stringOfN_digits n) as Hd. pose proof (stringOfN_nonempty n) as Hne.
  pose proof (stringOfN_value n) as Hv.
  unfold parseInt. destruct (stringOfN n) as [|c r] eqn:Hs; [done|].
  pose proof (Forall_inv Hd) as Hc.
  rewrite trimStart_head by (by apply isDigit_not_white).
  apply isDigit_spec in Hc.
  rewrite (proj2 (N.eqb_neq c 45)), (proj2 (N.eqb_neq c 43)) by lia.
  unfold parseDigits. rewrite takeDigits_all by done. rewrite Hv. f_equal. lia.
Qed.

Lemma String_parseInt_stringOfN n : String_ (parseInt (stringOfN n)) = stringOfN n.
Proof.
  rewrite parseInt_stringOfN. unfold String_.
  rewrite (proj2 (Z.ltb_ge _ _)) by lia. by rewrite N2Z.id.
Qed.

(** *** What the estimate fields let through *)

Lemma trimStart_id s :
  match s with c :: _ => isWhiteSpace c = false | [] => True end → trimStart s = s.
Proof. destruct s as [|c s]; [done|]. apply trimStart_head. Qed.

(** A string that neither starts nor ends with white space is its own trim. *)
Lemma trim_id a s b :
  isWhiteSpace a = false → isWhiteSpace b = false →
  head (a :: s) = Some a → last (a :: s) = Some b → trim (a :: s) = a :: s.
Proof.
  intros Ha Hb _ Hl. unfold trim, trimEnd. rewrite trimStart_head by done.
  apply last_Some in Hl as [l' Hl]. rewrite Hl, reverse_snoc.
  rewrite trimStart_head by done. by rewrite <- reverse_snoc, reverse_involutive.
Qed.

Lemma last_digits a s :
  Forall (λ c, isDigit c = true) (a :: s) →
  ∃ b, last (a :: s) = Some b ∧ isDigit b = true.
Proof.
  intros Hs. destruct (last (a :: s)) as [b|] eqn:Hl.
  - exists b. split; [done|]. apply last_Some in Hl as [l' Hl]. rewrite Hl in Hs.
    apply Forall_app in Hs as [_ Hb]. by apply Forall_inv in Hb.
  - by apply last_None in Hl.
Qed.

(** The three shapes of entry that the properties below are about are valid
    floating-point numbers, so the fields hand them to the handlers. *)
Lemma isValidFloat_digits ds :
  ds ≠ [] → Forall (λ c, isDigit c = true) ds → isValidFloat ds = true.
Proof.
  intros Hne Hd. destruct ds as [|c r]; [done|]. unfold isValidFloat.
  pose proof (Forall_inv Hd) as Hc. apply isDigit_spec in Hc.
  rewrite (proj2 (N.eqb_neq c 45)) by lia.
  rewrite takeDigits_all by done. by rewrite drop_all.
Qed.

Lemma isValidFloat_minus_digits ds :
  ds ≠ [] → Forall (λ c, isDigit c = true) ds → isValidFloat (45%N :: ds) = true.
Proof.
  intros Hne Hd. unfold isValidFloat. rewrite N.eqb_refl.
  rewrite takeDigits_all by done. rewrite drop_all. by destruct ds.
Qed.

Lemma isValidFloat_dot_digits ds :
  ds ≠ [] → Forall (λ c, isDigit c = true) ds → isValidFloat (46%N :: ds) = true.
Proof.
  intros Hne Hd. unfold isValidFloat.
  change (if (46 =? 45)%N then ds else 46%N :: ds) with (46%N :: ds). cbv zeta.
  assert (Ht : takeDigits (46%N :: ds) = []) by done.
  rewrite Ht. cbn [length drop]. rewrite N.eqb_refl.
  rewrite takeDigits_all by done. destruct ds as [|a s]; [done|].
  change (S (length s)) with (length (a :: s)). by rewrite drop_all.
Qed.

(** What both handlers store for a valid entry that has no white space
    around it. *)
Lemma estimate_stored a s b li subLi :
  isValidFloat (a :: s) = true →
  isWhiteSpace a = false → isWhiteSpace b = false → last (a :: s) = Some b →
  dataset (etaInputChange (a :: s) li) !! "etaMin" = Some (String_ (parseInt (a :: s)))
  ∧ sub_dataset (substepEtaInputChange (a :: s) subLi) !! "etaMin"
    = Some (String_ (parseInt (a :: s))).
Proof.
  intros Hv Ha Hb Hl. unfold etaInputChange, substepEtaInputChange, numberInputValue.
  rewrite Hv, (trim_id a s b) by done.
  cbn [dataset set_dataset sub_dataset sub_set_dataset]. by rewrite !lookup_insert_eq.
Qed.

Lemma parseInt_minus_stringOfN n :
  parseInt (45%N :: stringOfN n) = Fin (- Z.of_N n).
Proof.
  pose proof (stringOfN_nonempty n) as Hne. pose proof (stringOfN_value n) as Hv.
  unfold parseInt. rewrite trimStart_head by done. rewrite N.eqb_refl.
  unfold parseDigits. rewrite takeDigits_all by apply stringOfN_digits.
  destruct (stringOfN n) as [|a s]; [done|]. rewrite Hv. f_equal.
Qed.

Lemma parseInt_dot s : parseInt (46%N :: s) = NaN.
Proof. done. Qed.

(** C9. The estimate fields are number fields, so an entry that is not a
    number reaches the handlers as the empty string and clears the stored
    estimate, and a whole number that is not negative is stored as it was
    typed.  But the handlers check nothing: a negative whole number is stored
    as typed, and an entry that starts with the dot of a fraction is stored
    as the text [NaN].  (Whole numbers are taken up to 2^53, which a double
    holds exactly.) *)
Theorem estimate_field_stores_unvalidated (li : TaskLi) (subLi : SubstepLi) :
  (∀ entry : jsstring, isValidFloat entry = false →
     dataset (etaInputChange entry li) !! "etaMin" = None
     ∧ sub_dataset (substepEtaInputChange entry subLi) !! "etaMin" = None)
  ∧ (∀ n : N, safeInteger (Z.of_N n) →
     dataset (etaInputChange (stringOfN n) li) !! "etaMin" = Some (stringOfN n)
     ∧ sub_dataset (substepEtaInputChange (stringOfN n) subLi) !! "etaMin"
       = Some (stringOfN n))
  ∧ (∀ n : N, (0 < n)%N → safeInteger (Z.of_N n) →
     dataset (etaInputChange (45%N :: stringOfN n) li) !! "etaMin"
       = Some (45%N :: stringOfN n)
     ∧ sub_dataset (substepEtaInputChange (45%N :: stringOfN n) subLi) !! "etaMin"
       = Some (45%N :: stringOfN n))
  ∧ (∀ ds : jsstring, ds ≠ [] → Forall (λ c, isDigit c = true) ds →
     dataset (etaInputChange (46%N :: ds) li) !! "etaMin" = Some (js "NaN")
     ∧ sub_dataset (substepEtaInputChange (46%N :: ds) subLi) !! "etaMin"
       = Some (js "NaN")).
Proof.
  split; [|split; [|split]].
  - intros entry Hv. unfold etaInputChange, substepEtaInputChange, numberInputValue.
    rewrite Hv. cbn [trim trimStart trimEnd reverse rev_append dataset set_dataset
                     sub_dataset sub_set_dataset].
    by rewrite !lookup_delete_eq.
  - intros n _. pose proof (stringOfN_digits n) as Hd.
    pose proof (stringOfN_nonempty n) as Hne.
    pose proof (isValidFloat_digits _ Hne Hd) as Hv.
    pose proof (String_parseInt_stringOfN n) as Hs.
    destruct (stringOfN n) as [|a s] eqn:Hn; [done|].
    destruct (last_digits a s Hd) as (b & Hl & Hb).
    rewrite <- Hs at 2 4.
    apply (estimate_stored a s b); try done; apply isDigit_not_white; [|done].
    by apply Forall_inv in Hd.
  - intros n Hpos _. pose proof (stringOfN_digits n) as Hd.
    pose proof (stringOfN_nonempty n) as Hne.
    pose proof (isValidFloat_minus_digits _ Hne Hd) as Hv.
    assert (Hs : String_ (parseInt (45%N :: stringOfN n)) = 45%N :: stringOfN n).
    { rewrite parseInt_minus_stringOfN. unfold String_.
      rewrite (proj2 (Z.ltb_lt _ _)) by lia. do 2 f_equal. lia. }
    destruct (stringOfN n) as [|a s] eqn:Hn; [done|].
    destruct (last_digits a s Hd) as (b & Hl & Hb).
    rewrite <- Hs at 2 4.
    apply (estimate_stored 45%N (a :: s) b); try done.
    by apply isDigit_not_white.
  - intros ds Hne Hd. pose proof (isValidFloat_dot_digits _ Hne Hd) as Hv.
    destruct ds as [|a s]; [done|].
    destruct (last_digits a s Hd) as (b & Hl & Hb).
    change (js "NaN") with (String_ (parseInt (46%N :: a :: s))).
    apply (estimate_stored 46%N (a :: s) b); try done.
    by apply isDigit_not_white.
Qed.

Lemma estimate_field_stores_unvalidated_witness :
  dataset (etaInputChange (45%N :: stringOfN 5) plainTask) !! "etaMin"
  = Some (45%N :: stringOfN 5)
  ∧ 45%N :: stringOfN 5 = js "-5"
  ∧ isValidFloat (js "7 min") = false
  ∧ dataset (etaInputChange (js "7 min") plainTask) !! "etaMin" = None.
Proof.
  pose proof (estimate_field_stores_unvalidated plainTask (createSubstepElement []))
    as (Hbad & _ & Hneg & _).
  split; [|split; [by vm_compute|split; [by vm_compute|]]].
  - apply (Hneg 5%N); [lia|]. unfold safeInteger. lia.
  - apply Hbad. by vm_compute.
Defined.

(** ** Sorting by urgency *)

Section SortFacts.
Context {A : Type} (cmp : A → A → number) (V : A → Prop) (R : A → A → Prop).
Hypothesis R_trans : ∀ x y z, R x y → R y z → R x z.
Hypothesis cmp_keep : ∀ x y, V x → V y → is_pos (cmp x y) = false → R x y.
Hypothesis cmp_swap : ∀ x y, V x → V y → is_pos (cmp x y) = true → R y x.

Lemma insert_sorted_perm x l : insert_sorted cmp x l ≡ₚ x :: l.
Proof.
  induction l as [|y l IH]; [done|]. simpl.
  destruct (is_pos (cmp x y)); [|done]. rewrite IH. apply Permutation_swap.
Qed.

Lemma sort_perm l : sort cmp l ≡ₚ l.
Proof.
  induction l as [|x l IH]; [done|]. simpl.
  rewrite insert_sorted_perm. by rewrite IH.
Qed.

Lemma insert_sorted_sorted x l :
  V x → Forall V l → StronglySorted R l → StronglySorted R (insert_sorted cmp x l).
Proof.
  intros Hx Hl Hs. induction Hs as [|y l Hs IH Hy]; simpl.
  - repeat constructor.
  - apply Forall_cons in Hl as [Hvy Hl].
    destruct (is_pos (cmp x y)) eqn:Hc.
    + constructor; [by apply IH|].
      rewrite insert_sorted_perm. constructor; [by apply cmp_swap | done].
    + assert (R x y) as Hxy by by apply cmp_keep.
      constructor; [by constructor|]. constructor; [done|].
      eapply Forall_impl; [exact Hy|]. intros z Hz. by eapply R_trans.
Qed.

Lemma sort_sorted l : Forall V l → StronglySorted R (sort cmp l).
Proof.
  induction l as [|x l IH]; intros Hl; simpl; [constructor|].
  apply Forall_cons in Hl as [Hx Hl].
  apply insert_sorted_sorted; [done| |by apply IH].
  by rewrite sort_perm.
Qed.
End SortFacts.

Lemma leb_trans a b c : leb a b = true → leb b c = true → leb a c = true.
Proof.
  destruct a as [x| | |], b as [y| | |], c as [z| | |]; simpl; try done.
  rewrite !negb_true_iff, !Z.ltb_ge. lia.
Qed.

Lemma urgencyBefore_trans a b c :
  urgencyBefore a b → urgencyBefore b c → urgencyBefore a c.
Proof.
  unfold urgencyBefore. intros [Hab|[Hab Kab]] [Hbc|[Hbc Kbc]]; try (left; lia).
  right. split; [lia|]. by eapply leb_trans.
Qed.

Lemma sub_keep a b : a ≠ NaN → b ≠ NaN → is_pos (sub a b) = false → leb a b = true.
Proof.
  destruct a as [x| | |], b as [y| | |]; simpl; try done.
  rewrite negb_true_iff, Z.ltb_ge, Z.ltb_ge. lia.
Qed.

Lemma sub_swap a b : is_pos (sub a b) = true → leb b a = true.
Proof.
  destruct a as [x| | |], b as [y| | |]; simpl; try done.
  rewrite negb_true_iff, Z.ltb_lt, Z.ltb_ge. lia.
Qed.

Lemma compareUrgency_keep a b :
  sortable a → sortable b → is_pos (compareUrgency a b) = false → urgencyBefore a b.
Proof.
  unfold sortable, compareUrgency, urgencyBefore, weight.
  intros [[wa Ha] Ka] [[wb Hb] Kb]. rewrite Ha, Hb. simpl.
  case_bool_decide as Hw; simpl.
  - rewrite Z.ltb_ge. intros ?. left. assert (wb ≠ wa) by congruence. lia.
  - intros Hk. right. split; [congruence | by apply sub_keep].
Qed.

Lemma compareUrgency_swap a b :
  sortable a → sortable b → is_pos (compareUrgency a b) = true → urgencyBefore b a.
Proof.
  unfold sortable, compareUrgency, urgencyBefore, weight.
  intros [[wa Ha] Ka] [[wb Hb] Kb]. rewrite Ha, Hb. simpl.
  case_bool_decide as Hw; simpl.
  - rewrite Z.ltb_lt. intros ?. left. lia.
  - intros Hk. right. split; [congruence | by apply sub_swap].
Qed.

(** C5. Sorting by urgency rearranges the tasks so that a task of higher
    priority weight (high 3, medium 2, low 1) stands before one of lower
    weight, and among tasks of equal weight the earlier deadline stands
    first, a task without deadline counting as +infinity and standing last.
    Two tasks of priority high with deadlines 2026-01-01 and 2026-01-05 are
    put with the 2026-01-01 task first, whichever order they were in. *)
Theorem sortByUrgency_spec :
  (∀ l : list TaskLi,
     Forall sortable l →
     sortByUrgency l ≡ₚ l ∧ StronglySorted urgencyBefore (sortByUrgency l))
  ∧ order (js "high") = Some 3 ∧ order (js "medium") = Some 2 ∧ order (js "low") = Some 1
  ∧ (∀ a : TaskLi, dataset a !! "deadline" = None → deadlineKey a = PosInf)
  ∧ sortByUrgency [dueTask "B" "high" "2026-01-05"; dueTask "A" "high" "2026-01-01"]
    = [dueTask "A" "high" "2026-01-01"; dueTask "B" "high" "2026-01-05"]
  ∧ sortByUrgency [dueTask "A" "high" "2026-01-01"; dueTask "B" "high" "2026-01-05"]
    = [dueTask "A" "high" "2026-01-01"; dueTask "B" "high" "2026-01-05"].
Proof.
  split; [|split; [|split; [|split; [|split; [|split]]]]].
  - intros l Hl. split; [apply sort_perm|].
    apply (sort_sorted compareUrgency sortable urgencyBefore); try done.
    + intros x y z. apply urgencyBefore_trans.
    + apply compareUrgency_keep.
    + apply compareUrgency_swap.
  - by vm_compute.
  - by vm_compute.
  - by vm_compute.
  - intros a Ha. unfold deadlineKey. by rewrite Ha.
  - by vm_compute.
  - by vm_compute.
Qed.

Lemma sortByUrgency_spec_witness :
  let l := [dueTask "C" "low" "2026-01-02"; dueTask "D" "high" "";
            dueTask "B" "high" "2026-01-05"; dueTask "E" "medium" "";
            dueTask "A" "high" "2026-01-01"] in
  (sortByUrgency l ≡ₚ l ∧ StronglySorted urgencyBefore (sortByUrgency l))
  ∧ sortByUrgency l
    = [dueTask "A" "high" "2026-01-01"; dueTask "B" "high" "2026-01-05";
       dueTask "D" "high" ""; dueTask "E" "medium" ""; dueTask "C" "low" "2026-01-02"].
Proof.
  split.
  - apply (proj1 sortByUrgency_spec).
    unfold sortable. repeat apply Forall_cons_2; try apply Forall_nil_2;
      (split; [vm_compute; eauto | by vm_compute]).
  - by vm_compute.
Defined.

(** ** Deadline countdown *)

Lemma parseDate_length s r : Date.parseDate s = Some r → length s = 10%nat.
Proof. do 11 (destruct s as [|? s]; try done). Qed.

(** The end-of-day boundary: the deadline date at 23:59:59 local time. *)
Lemma getTimeLocal_end_of_day UTC s y m d :
  Date.parseDate s = Some (y, m, d) →
  Date.getTimeLocal UTC (s ++ js "T23:59:59")
  = Fin (UTC (Date.dayFromCivil y m d * Date.msPerDay + 86399000)).
Proof.
  intros Hs. unfold Date.getTimeLocal.
  rewrite <- (parseDate_length _ _ Hs), take_app_length, drop_app_length, Hs.
  done.
Qed.

Lemma hoursBelow_spec z bound :
  hoursBelow (totalHours (Fin z)) bound = (z <? bound * 3600000).
Proof.
  unfold hoursBelow, totalHours, Qcompare, Z.ltb. simpl Qnum. simpl Qden.
  by rewrite Z.mul_1_r.
Qed.

(** C7. With the boundary at 23:59:59 local time of the deadline date: as
    long as now is not past the boundary, the countdown is critical below 24
    hours remaining, urgent from 24 to below 48, warning from 48 to below
    168 and safe from 168 hours on, so that exactly 24 hours is urgent and
    exactly 168 hours is safe; once now is past the boundary the countdown
    is overdue and shows the whole days and the hours of the day elapsed
    since the boundary. *)
Theorem countdown_buckets (UTC : Z → Z) (now : Z) (li : TaskLi) (y m d : Z) :
  Date.parseDate (attr (dataset li) "deadline") = Some (y, m, d) →
  let boundary := UTC (Date.dayFromCivil y m d * Date.msPerDay + 86399000) in
  let remaining := boundary - now in
  let hour := 3600000 in
  let cd := updateDeadlineCountdown UTC now li in
  (now ≤ boundary →
     (className cd = "deadline-countdown critical" ↔ remaining < 24 * hour)
     ∧ (className cd = "deadline-countdown urgent" ↔ 24 * hour ≤ remaining < 48 * hour)
     ∧ (className cd = "deadline-countdown warning" ↔ 48 * hour ≤ remaining < 168 * hour)
     ∧ (className cd = "deadline-countdown safe" ↔ 168 * hour ≤ remaining))
  ∧ (remaining = 24 * hour → className cd = "deadline-countdown urgent")
  ∧ (remaining = 168 * hour → className cd = "deadline-countdown safe")
  ∧ (boundary < now →
     className cd = "deadline-countdown overdue"
     ∧ textContent cd
       = OverdueText (Fin ((now - boundary) / (24 * hour)))
                     (Fin (((now - boundary) / hour) mod 24))).
Proof.
  intros Hd boundary remaining hour cd.
  assert (Hcd : cd =
    if remaining <? 0 then
      {| textContent :=
           OverdueText (Fin (Z.abs remaining / (1000 * 60 * 60 * 24)))
                       (Fin (Z.rem (Z.abs remaining / (1000 * 60 * 60)) 24));
         className := "deadline-countdown overdue" |}
    else if remaining <? 24 * hour then
      {| textContent :=
           HoursMinutes (Fin (Z.rem (remaining / (1000 * 60 * 60)) 24))
                        (Fin (Z.rem (remaining / (1000 * 60)) 60));
         className := "deadline-countdown critical" |}
    else if remaining <? 48 * hour then
      {| textContent :=
           DaysHours (Fin (remaining / (1000 * 60 * 60 * 24)))
                     (Fin (Z.rem (remaining / (1000 * 60 * 60)) 24));
         className := "deadline-countdown urgent" |}
    else if remaining <? 168 * hour then
      {| textContent :=
           DaysHours (Fin (remaining / (1000 * 60 * 60 * 24)))
                     (Fin (Z.rem (remaining / (1000 * 60 * 60)) 24));
         className := "deadline-countdown warning" |}
    else
      {| textContent := DaysText (Fin (remaining / (1000 * 60 * 60 * 24)));
         className := "deadline-countdown safe" |}).
  { subst cd. unfold updateDeadlineCountdown. fold (attr (dataset li) "deadline").
    pose proof (getTimeLocal_end_of_day UTC _ y m d Hd) as Hb.
    destruct (attr (dataset li) "deadline") as [|c s]; [done|].
    rewrite Hb. cbn [sub is_neg abs floorDiv remainder]. fold boundary. fold remaining.
    rewrite !hoursBelow_spec. done. }
  rewrite Hcd. clear Hcd cd. subst hour.
  destruct (Z.ltb_spec remaining 0) as [H0|H0];
    [|destruct (Z.ltb_spec remaining (24 * 3600000)) as [H24|H24];
      [|destruct (Z.ltb_spec remaining (48 * 3600000)) as [H48|H48];
        [|destruct (Z.ltb_spec remaining (168 * 3600000)) as [H168|H168]]]];
    cbn [className textContent].
  - split; [lia|]. split; [lia|]. split; [lia|]. intros _. split; [done|].
    replace (Z.abs remaining) with (now - boundary) by lia.
    rewrite Z.rem_mod_nonneg; [done| |lia].
    apply Z.div_pos; lia.
  - split; [|split; [lia|split; [lia|lia]]].
    intros _. repeat split; intros; (done || lia).
  - split; [|split; [done|split; [lia|lia]]].
    intros _. repeat split; intros; (done || lia).
  - split; [|split; [lia|split; [lia|lia]]].
    intros _. repeat split; intros; (done || lia).
  - split; [|split; [lia|split; [done|lia]]].
    intros _. repeat split; intros; (done || lia).
Qed.

Lemma countdown_buckets_witness :
  className (updateDeadlineCountdown (λ t, t) 1767311999000
               (dueTask "A" "medium" "2026-01-02"))
  = "deadline-countdown urgent".
Proof.
  assert (Hd : Date.parseDate (attr (dataset (dueTask "A" "medium" "2026-01-02")) "deadline")
               = Some (2026, 1, 2)) by by vm_compute.
  destruct (countdown_buckets (λ t, t) 1767311999000 _ _ _ _ Hd) as (_ & H24 & _).
  apply H24. by vm_compute.
Defined.

(** ** Smart paste *)

Lemma classifyLines_spec lines : ∀ ss ds,
  classifyLines lines ss ds
  = (ss ++ filter isListItem (trim <$> lines), ds ++ filter isDescriptionLine lines).
Proof.
  induction lines as [|line rest IH]; intros ss ds.
  - simpl. by rewrite !app_nil_r.
  - cbn [classifyLines]. rewrite fmap_cons.
    destruct (trim line) as [|c t] eqn:Ht.
    + rewrite IH, filter_cons_False by (by intros [? _]).
      rewrite filter_cons_False; [done|]. unfold isDescriptionLine. rewrite Ht.
      by intros [? _].
    + destruct (listRegex_test (c :: t)) eqn:Hr.
      * rewrite IH, filter_cons_True by done.
        rewrite filter_cons_False, <- app_assoc; [done|].
        unfold isDescriptionLine. rewrite Ht. intros [_ ?]. congruence.
      * rewrite IH, filter_cons_False by (intros [_ ?]; congruence).
        rewrite filter_cons_True, <- app_assoc; [done|].
        unfold isDescriptionLine. by rewrite Ht, Hr.
Qed.

Lemma trimStart_nil s : trimStart s = [] ↔ blank s.
Proof.
  unfold blank. induction s as [|c s IH]; simpl.
  - split; [constructor | done].
  - destruct (isWhiteSpace c) eqn:Hc.
    + rewrite IH. split; [intros ?; by constructor | by inversion 1].
    + split; [done|]. inversion 1; congruence.
Qed.

Lemma trimEnd_nil s : trimEnd s = [] ↔ blank s.
Proof.
  unfold trimEnd. rewrite <- (reverse_involutive []) at 1.
  split.
  - intros H%(inj reverse). apply trimStart_nil in H.
    unfold blank in *. by rewrite Forall_reverse in H.
  - intros H. f_equal. apply trimStart_nil. unfold blank in *. by rewrite Forall_reverse.
Qed.

Lemma trim_nil s : trim s = [] ↔ blank s.
Proof.
  unfold trim. rewrite trimEnd_nil. split.
  - intros Hb. destruct (decide (trimStart s = [])) as [He|Hne]; [by apply trimStart_nil|].
    exfalso. clear -Hb Hne. induction s as [|c s IH]; [done|]. simpl in *.
    destruct (isWhiteSpace c) eqn:Hc; [by apply IH|].
    apply Forall_cons in Hb as [? _]. congruence.
  - intros Hb. apply trimStart_nil in Hb. rewrite Hb. constructor.
Qed.

Lemma trimStart_app s t : ¬ blank s → trimStart (s ++ t) = trimStart s ++ t.
Proof.
  induction s as [|c s IH]; intros Hs.
  - exfalso. apply Hs. constructor.
  - simpl. destruct (isWhiteSpace c) eqn:Hc; [|done].
    apply IH. intros Hb. apply Hs. by constructor.
Qed.

Lemma trimEnd_app s t : ¬ blank t → trimEnd (s ++ t) = s ++ trimEnd t.
Proof.
  intros Ht. unfold trimEnd. rewrite reverse_app, trimStart_app.
  - by rewrite reverse_app, reverse_involutive.
  - intros Hb. apply Ht. unfold blank in *. by rewrite Forall_reverse in Hb.
Qed.

Lemma blank_app s t : blank (s ++ t) ↔ blank s ∧ blank t.
Proof. apply Forall_app. Qed.

Lemma split_no_LF s :
  Forall (λ c, c ≠ 10%N) s → split s = [s].
Proof.
  induction 1 as [|c s Hc _ IH]; [done|]. simpl.
  rewrite (proj2 (N.eqb_neq c 10)) by done. by rewrite IH.
Qed.

Lemma split_app_LF s t :
  Forall (λ c, c ≠ 10%N) s → split (s ++ 10%N :: t) = s :: split t.
Proof.
  induction 1 as [|c s Hc _ IH]; [done|]. simpl.
  rewrite (proj2 (N.eqb_neq c 10)) by done. by rewrite IH.
Qed.

Lemma split_pieces s : Forall (λ l, Forall (λ c, c ≠ 10%N) l) (split s).
Proof.
  induction s as [|c s IH]; simpl; [by repeat constructor|].
  destruct (N.eqb_spec c 10) as [->|Hc]; [by constructor|].
  destruct (split s) as [|l ls]; [by repeat constructor|].
  apply Forall_cons in IH as [Hl Hls]. by repeat constructor.
Qed.

Lemma trimStart_suffix s : trimStart s `suffix_of` s.
Proof.
  induction s as [|c s IH]; simpl; [done|].
  destruct (isWhiteSpace c); [by apply suffix_cons_r | done].
Qed.

Lemma trimStart_no_LF s :
  Forall (λ c, c ≠ 10%N) s → Forall (λ c, c ≠ 10%N) (trimStart s).
Proof.
  intros Hs. destruct (trimStart_suffix s) as [k Hk].
  rewrite Hk in Hs. by apply Forall_app in Hs as [_ ?].
Qed.

Lemma trim_no_LF s :
  Forall (λ c, c ≠ 10%N) s → Forall (λ c, c ≠ 10%N) (trim s).
Proof.
  intros Hs. unfold trim, trimEnd.
  rewrite Forall_reverse. apply trimStart_no_LF. rewrite Forall_reverse.
  by apply trimStart_no_LF.
Qed.

Lemma join_cons l ls : ls ≠ [] → join (l :: ls) = l ++ 10%N :: join ls.
Proof. by destruct ls. Qed.

Lemma join_not_blank l ls : ¬ blank l → ¬ blank (join (l :: ls)).
Proof.
  intros Hl Hb. apply Hl. destruct ls as [|l' ls]; [done|].
  rewrite join_cons in Hb by done. by apply blank_app in Hb as [? _].
Qed.

(** The title drawn from the description of lines that are not blank and
    hold no line feed. *)
Lemma pasteTitle_join (ls : list jsstring) :
  Forall (λ l, ¬ blank l) ls →
  Forall (λ l, Forall (λ c, c ≠ 10%N) l) ls →
  pasteTitle (trim (join ls))
  = match ls with
    | [] => js "New Task"
    | [l] => trim l
    | l :: _ => trimStart l
    end.
Proof.
  intros Hnb Hlf. destruct ls as [|l1 [|l2 rest]].
  - done.
  - apply Forall_cons in Hnb as [H1 _]. apply Forall_cons in Hlf as [L1 _].
    simpl join. unfold pasteTitle. rewrite split_no_LF by (by apply trim_no_LF).
    rewrite filter_cons, decide_True by (by rewrite trim_nil).
    simpl. destruct (trim l1) eqn:Ht; [by apply trim_nil in Ht | done].
  - apply Forall_cons in Hnb as [H1 [H2 Hr]%Forall_cons].
    apply Forall_cons in Hlf as [L1 _].
    rewrite join_cons by done. unfold trim.
    rewrite trimStart_app by done.
    assert (H2' : ¬ blank (join (l2 :: rest))) by by apply join_not_blank.
    rewrite trimEnd_app.
    2:{ intros Hb. apply H2'. by apply Forall_cons in Hb as [_ ?]. }
    change (10%N :: join (l2 :: rest)) with ([10%N] ++ join (l2 :: rest)).
    rewrite trimEnd_app by done. simpl app.
    unfold pasteTitle. rewrite split_app_LF by (by apply trimStart_no_LF).
    rewrite filter_cons, decide_True by (by rewrite trimStart_nil).
    simpl. destruct (trimStart l1) eqn:Ht; [by apply trimStart_nil in Ht | done].
Qed.

(** The loop of the paste parser as two filters.  The parser takes the
    text with CR LF turned into LF and
    trimmed, cuts it into lines and drops the blank ones; a line is a list
    item exactly when, trimmed, it matches the marker pattern, and it is
    then kept trimmed, marker and all, in the order of the text; the other
    lines, joined and trimmed, are the description.  The title is the first
    description line without its leading white space (trimmed on both sides
    when it is the only one), or [New Task] when there is none.  The text
    "Buy milk / 1. eggs / 2. bread / - cheese" gives the description and
    title "Buy milk" and the three list lines as steps. *)
Theorem smartParsePaste_spec :
  (∀ text : jsstring,
     let lines := split (trim (replaceCRLF text)) in
     subSteps (smartParsePaste text) = filter isListItem (trim <$> lines)
     ∧ description (smartParsePaste text) = trim (join (filter isDescriptionLine lines))
     ∧ pasteTitle (description (smartParsePaste text))
       = match filter isDescriptionLine lines with
         | [] => js "New Task"
         | [l] => trim l
         | l :: _ => trimStart l
         end)
  ∧ (let text := js "Buy milk" ++ LF ++ js "1. eggs" ++ LF ++ js "2. bread" ++ LF ++ js "- cheese" in
     description (smartParsePaste text) = js "Buy milk"
     ∧ subSteps (smartParsePaste text) = [js "1. eggs"; js "2. bread"; js "- cheese"]
     ∧ pasteTitle (description (smartParsePaste text)) = js "Buy milk").
Proof.
  split; [|by vm_compute].
  intros text lines.
  assert (Hsub : subSteps (smartParsePaste text) = filter isListItem (trim <$> lines)
          ∧ description (smartParsePaste text)
            = trim (join (filter isDescriptionLine lines))).
  { subst lines. unfold smartParsePaste.
    destruct (trim (replaceCRLF text)) as [|c r] eqn:Hraw.
    - simpl. unfold isListItem, isDescriptionLine.
      rewrite !filter_cons, !decide_False by (by intros [? _]). done.
    - by rewrite classifyLines_spec. }
  destruct Hsub as [Hs Hd]. split; [done|]. split; [done|].
  rewrite Hd. apply pasteTitle_join.
  - apply Forall_forall. intros l [[Hl _] _]%list_elem_of_filter.
    by rewrite <- trim_nil.
  - apply Forall_forall. intros l [_ Hl]%list_elem_of_filter.
    revert l Hl. apply Forall_forall, split_pieces.
Qed.

(** * Further properties *)

(** ** Counters *)

Lemma completed_count_le (l : list TaskLi) :
  (length (filter (λ li, contains "completed" (classList li) = true) l) ≤ length l)%nat.
Proof. apply length_filter. Qed.

(** X1. The two counters add up to the number of tasks in the list, and
    the uncompleted counter is the number of tasks without the class
    [completed]; the [Math.max] never cuts in. *)
Theorem updateCounters_sum (l : list TaskLi) :
  completedTasks (updateCounters l) + uncompletedTasks (updateCounters l)
    = Z.of_nat (length l)
  ∧ uncompletedTasks (updateCounters l)
    = Z.of_nat (length (filter (λ li, contains "completed" (classList li) = false) l)).
Proof.
  unfold updateCounters. cbn [completedTasks uncompletedTasks].
  pose proof (completed_count_le l) as Hle.
  assert (Hsplit : (length (filter (λ li, contains "completed" (classList li) = true) l)
                  + length (filter (λ li, contains "completed" (classList li) = false) l)
                  = length l)%nat).
  { clear Hle. induction l as [|li l IH]; [done|].
    rewrite 2!filter_cons. destruct (contains "completed" (classList li)); simpl; lia. }
  lia.
Qed.

(** ** The three sorts *)

Section SortMore.
Context {A : Type} (cmp : A → A → number).

(** A list in which no element has to move behind a later one is left as
    it is. *)
Lemma sort_fixed l :
  StronglySorted (λ x y, is_pos (cmp x y) = false) l → sort cmp l = l.
Proof.
  induction 1 as [|x l Hs IH Hx]; [done|].
  simpl. rewrite IH. destruct l as [|y l']; [done|].
  simpl. by rewrite (Forall_inv Hx).
Qed.

(** Elements that the comparator does not order keep their order. *)
Lemma insert_sorted_filter (P : A → Prop) `{!∀ x, Decision (P x)} x l :
  (∀ y, P x → P y → is_pos (cmp x y) = false) →
  filter P (insert_sorted cmp x l) = filter P (x :: l).
Proof.
  intros Hxy. induction l as [|y l IH]; [done|]. simpl.
  destruct (is_pos (cmp x y)) eqn:Hc; [|done].
  rewrite filter_cons, IH, !filter_cons.
  destruct (decide (P y)) as [Hy|Hy]; [|done].
  destruct (decide (P x)) as [Hx|Hx]; [|done].
  rewrite Hxy in Hc by done. done.
Qed.

Lemma sort_filter (P : A → Prop) `{!∀ x, Decision (P x)} l :
  (∀ x y, P x → P y → is_pos (cmp x y) = false) →
  filter P (sort cmp l) = filter P l.
Proof.
  intros Hxy. induction l as [|x l IH]; [done|]. simpl.
  rewrite insert_sorted_filter by (intros y; apply Hxy).
  by rewrite !filter_cons, IH.
Qed.
End SortMore.

Lemma StronglySorted_weaken {A} (R R' : A → A → Prop) (V : A → Prop) l :
  (∀ x y, V x → V y → R x y → R' x y) →
  Forall V l → StronglySorted R l → StronglySorted R' l.
Proof.
  intros HR Hv Hs. induction Hs as [|x l Hs IH Hx]; [constructor|].
  apply Forall_cons in Hv as [Hvx Hv]. constructor; [by apply IH|].
  rewrite Forall_forall in *. intros y Hy. apply HR; auto.
Qed.

Lemma quadrantScore_rank a : quadrantScore a = rank (targetCell a).
Proof.
  unfold quadrantScore, targetCell, getPriorityScore.
  destruct (bool_decide (dataset a !! "isUrgent" = Some (js "true")));
    destruct (bool_decide (dataset a !! "isImportant" = Some (js "false"))); done.
Qed.

Lemma sortTasks_sort l :
  sortTasks l = sort (λ a b, Fin (quadrantScore b - quadrantScore a)) l.
Proof. done. Qed.

Lemma sortTasks_sorted l :
  StronglySorted (λ a b, quadrantScore b ≤ quadrantScore a) (sortTasks l).
Proof.
  rewrite sortTasks_sort.
  apply (sort_sorted _ (λ _, True) (λ a b, quadrantScore b ≤ quadrantScore a)).
  - intros x y z. lia.
  - intros x y _ _. simpl. rewrite Z.ltb_ge. lia.
  - intros x y _ _. simpl. rewrite Z.ltb_lt. lia.
  - by apply Forall_true.
Qed.

(** X2. [sortTasks] rearranges the list without losing or adding a
    task, puts the cells of the matrix in the order Do-First, Schedule,
    Delegate, Eliminate, and keeps the tasks of one cell in the order they
    had. *)
Theorem sortTasks_by_quadrant (l : list TaskLi) :
  sortTasks l ≡ₚ l
  ∧ StronglySorted (λ a b, rank (targetCell b) ≤ rank (targetCell a)) (sortTasks l)
  ∧ ∀ q, filter (λ a, targetCell a = q) (sortTasks l) = filter (λ a, targetCell a = q) l.
Proof.
  split; [apply sort_perm|]. split.
  - eapply (StronglySorted_weaken (λ a b, quadrantScore b ≤ quadrantScore a) _ (λ _, True));
      [| |apply sortTasks_sorted].
    + intros x y _ _. by rewrite !quadrantScore_rank.
    + by apply Forall_true.
  - intros q. rewrite sortTasks_sort. apply sort_filter.
    intros x y Hx Hy. change (is_pos (Fin (quadrantScore y - quadrantScore x)) = false).
    cbn [is_pos]. rewrite !quadrantScore_rank, Hx, Hy.
    rewrite Z.ltb_ge. lia.
Qed.

Lemma compareDeadline_keep a b :
  dated a → dated b → is_pos (compareDeadline a b) = false →
  leb (deadlineKey a) (deadlineKey b) = true.
Proof. intros Ha Hb. by apply sub_keep. Qed.

Lemma leb_not_pos a b : leb a b = true → is_pos (sub a b) = false.
Proof.
  destruct a as [x| | |], b as [y| | |]; simpl; try done.
  rewrite negb_true_iff, Z.ltb_ge, Z.ltb_ge. lia.
Qed.

Lemma sortByDeadline_sorted l :
  Forall dated l →
  StronglySorted (λ a b, leb (deadlineKey a) (deadlineKey b) = true) (sortByDeadline l).
Proof.
  intros Hl.
  apply (sort_sorted compareDeadline dated
           (λ a b, leb (deadlineKey a) (deadlineKey b) = true)); try done.
  - intros x y z. apply leb_trans.
  - apply compareDeadline_keep.
  - intros x y _ _. apply sub_swap.
Qed.

(** X3. On a list whose deadlines are absent or calendar dates,
    [sortByDeadline] rearranges the list, puts earlier deadlines first and
    the tasks without a deadline last, and keeps tasks with the same
    deadline in the order they had. *)
Theorem sortByDeadline_spec (l : list TaskLi) :
  Forall dated l →
  sortByDeadline l ≡ₚ l
  ∧ StronglySorted (λ a b, leb (deadlineKey a) (deadlineKey b) = true) (sortByDeadline l)
  ∧ ∀ k, filter (λ a, deadlineKey a = k) (sortByDeadline l)
         = filter (λ a, deadlineKey a = k) l.
Proof.
  intros Hl. split; [apply sort_perm|]. split; [by apply sortByDeadline_sorted|].
  intros k. apply sort_filter. intros x y Hx Hy. unfold compareDeadline.
  rewrite Hx, Hy. by destruct k as [z| | |]; simpl; rewrite ?Z.sub_diag.
Qed.

Lemma sortByDeadline_spec_witness :
  let l := [dueTask "C" "low" "2026-01-02"; dueTask "D" "high" "";
            dueTask "A" "high" "2026-01-01"; dueTask "E" "medium" ""] in
  sortByDeadline l
  = [dueTask "A" "high" "2026-01-01"; dueTask "C" "low" "2026-01-02";
     dueTask "D" "high" ""; dueTask "E" "medium" ""]
  ∧ sortByDeadline l ≡ₚ l.
Proof.
  split; [by vm_compute|].
  apply (sortByDeadline_spec
           [dueTask "C" "low" "2026-01-02"; dueTask "D" "high" "";
            dueTask "A" "high" "2026-01-01"; dueTask "E" "medium" ""]).
  unfold dated. repeat apply Forall_cons_2; try apply Forall_nil_2; by vm_compute.
Defined.

Lemma urgencyBefore_not_pos a b :
  sortable a → sortable b → urgencyBefore a b → is_pos (compareUrgency a b) = false.
Proof.
  unfold sortable, compareUrgency, urgencyBefore, weight.
  intros [[wa Ha] Ka] [[wb Hb] Kb]. rewrite Ha, Hb. simpl.
  intros [Hlt|[Heq Hk]].
  - rewrite bool_decide_eq_true_2 by (intros [= ?]; lia). simpl.
    rewrite Z.ltb_ge. lia.
  - subst wb. rewrite bool_decide_eq_false_2 by (by intros ?).
    by apply leb_not_pos.
Qed.

(** X4. Sorting a list that is already sorted leaves it as it is, for
    each of the three sorts ([sortByDeadline] and [sortByUrgency] on lists
    whose deadlines are absent or calendar dates). *)
Theorem sorting_twice (l : list TaskLi) :
  sortTasks (sortTasks l) = sortTasks l
  ∧ (Forall dated l → sortByDeadline (sortByDeadline l) = sortByDeadline l)
  ∧ (Forall sortable l → sortByUrgency (sortByUrgency l) = sortByUrgency l).
Proof.
  split; [|split].
  - rewrite (sortTasks_sort (sortTasks l)). apply sort_fixed.
    eapply (StronglySorted_weaken (λ a b, quadrantScore b ≤ quadrantScore a) _ (λ _, True));
      [| |apply sortTasks_sorted].
    + intros x y _ _ Hxy. cbn [is_pos]. rewrite Z.ltb_ge. lia.
    + by apply Forall_true.
  - intros Hl. apply sort_fixed.
    eapply (StronglySorted_weaken (λ a b, leb (deadlineKey a) (deadlineKey b) = true) _ dated);
      [| |by apply sortByDeadline_sorted].
    + intros x y _ _ Hxy. by apply leb_not_pos.
    + unfold sortByDeadline. by rewrite sort_perm.
  - intros Hl. apply sort_fixed.
    eapply (StronglySorted_weaken urgencyBefore _ sortable).
    + intros x y Hx Hy Hxy. by apply urgencyBefore_not_pos.
    + unfold sortByUrgency. by rewrite sort_perm.
    + apply (sort_sorted compareUrgency sortable urgencyBefore); try done.
      * intros x y z. apply urgencyBefore_trans.
      * apply compareUrgency_keep.
      * apply compareUrgency_swap.
Qed.

Lemma sorting_twice_witness :
  let l := [dueTask "C" "low" "2026-01-02"; dueTask "D" "high" "";
            dueTask "A" "high" "2026-01-01"] in
  sortByDeadline (sortByDeadline l) = sortByDeadline l
  ∧ sortByUrgency (sortByUrgency l) = sortByUrgency l.
Proof.
  pose proof (sorting_twice
    [dueTask "C" "low" "2026-01-02"; dueTask "D" "high" "";
     dueTask "A" "high" "2026-01-01"]) as (_ & Hd & Hu).
  split.
  - apply Hd. unfold dated.
    repeat apply Forall_cons_2; try apply Forall_nil_2; by vm_compute.
  - apply Hu. unfold sortable.
    repeat apply Forall_cons_2; try apply Forall_nil_2;
      (split; [vm_compute; eauto | by vm_compute]).
Defined.

(** ** Timers *)

Section Timer.
Context {E : Type} `{ElementLaws E}.

Lemma startTimer_counting (el : E) (e : N) :
  el_timerInterval el = None →
  el_dataset el !! "elapsedMs" = Some (stringOfN e) →
  counting e (startTimer el).
Proof.
  intros Hi He. unfold startTimer, counting. rewrite Hi, He.
  rewrite el_timerInterval_set_dataset, el_timerInterval_set_timerInterval,
    el_dataset_set_dataset, el_dataset_set_timerInterval.
  assert (or_else (Some (stringOfN e)) (js "0") = stringOfN e) as ->.
  { pose proof (stringOfN_nonempty e). by destruct (stringOfN e). }
  rewrite parseInt_stringOfN. by simplify_map_eq.
Qed.

Lemma tick_counting (el : E) (x : N) :
  counting x el → counting (x + 1000) (tick el).
Proof.
  intros (Hi & He & Hr). unfold tick, counting. rewrite Hi.
  rewrite el_timerInterval_set_dataset, el_timerInterval_set_timerInterval,
    el_dataset_set_dataset, el_dataset_set_timerInterval.
  cbn [add String_]. rewrite (proj2 (Z.ltb_ge _ _)) by lia.
  replace (Z.to_N (Z.of_N x + 1000)) with (x + 1000)%N by lia.
  split; [f_equal; f_equal; lia|]. by simplify_map_eq.
Qed.

Lemma ticks_counting (el : E) (x : N) (k : nat) :
  counting x el → counting (x + 1000 * N.of_nat k) (Nat.iter k tick el).
Proof.
  intros Hc. induction k as [|k IH].
  - simpl. by replace (x + 1000 * N.of_nat 0)%N with x by lia.
  - cbn [Nat.iter]. replace (x + 1000 * N.of_nat (S k))%N
      with (x + 1000 * N.of_nat k + 1000)%N by lia.
    by apply tick_counting.
Qed.

(** X5. A timer started on an element that shows [e] milliseconds and
    ticked [k] times shows [e + 1000 k] milliseconds and is marked running;
    starting it again changes nothing; pausing keeps the time, marks it not
    running and stops the ticks; resetting puts the time to 0 and stops the
    ticker. *)
Theorem timer_counts_seconds (el : E) (e : N) (k : nat) :
  el_timerInterval el = None →
  el_dataset el !! "elapsedMs" = Some (stringOfN e) →
  (e + 1000 * N.of_nat k ≤ 2 ^ 53)%N →
  let running := Nat.iter k tick (startTimer el) in
  let paused := pauseTimer running in
  el_dataset running !! "elapsedMs" = Some (stringOfN (e + 1000 * N.of_nat k))
  ∧ el_dataset running !! "timerRunning" = Some (js "true")
  ∧ startTimer running = running
  ∧ el_dataset paused !! "elapsedMs" = Some (stringOfN (e + 1000 * N.of_nat k))
  ∧ el_dataset paused !! "timerRunning" = Some (js "false")
  ∧ tick paused = paused
  ∧ el_dataset (resetTimer running) !! "elapsedMs" = Some (js "0")
  ∧ el_dataset (resetTimer running) !! "timerRunning" = Some (js "false")
  ∧ el_timerInterval (resetTimer running) = None.
Proof.
  intros Hi He _ running paused.
  pose proof (ticks_counting _ e k (startTimer_counting el e Hi He)) as (Ri & Re & Rr).
  fold running in Ri, Re, Rr.
  assert (Hp : el_timerInterval paused = None).
  { unfold paused, pauseTimer.
    by rewrite el_timerInterval_set_dataset, el_timerInterval_set_timerInterval. }
  assert (Hpd : el_dataset paused = <[ "timerRunning" := js "false" ]> (el_dataset running)).
  { unfold paused, pauseTimer.
    by rewrite el_dataset_set_dataset, el_dataset_set_timerInterval. }
  split; [done|]. split; [done|].
  split; [unfold startTimer; by rewrite Ri|].
  split; [rewrite Hpd; by simplify_map_eq|].
  split; [rewrite Hpd; by simplify_map_eq|].
  split; [unfold tick; by rewrite Hp|].
  unfold resetTimer. fold paused.
  rewrite el_dataset_set_dataset, el_timerInterval_set_dataset, Hpd.
  split; [by simplify_map_eq|]. split; [by simplify_map_eq|]. done.
Qed.
End Timer.

Lemma timer_counts_seconds_witness :
  el_dataset pausedTask !! "elapsedMs" = Some (js "65000")
  ∧ el_dataset runningTask !! "timerRunning" = Some (js "true").
Proof.
  pose proof (timer_counts_seconds
    (attachTaskEventHandlers 4 (createTaskElement (js "Call the bank") (js "medium") [])).2
    0%N 65) as Ht.
  destruct Ht as (_ & Hr & _ & Hp & _); [by vm_compute | by vm_compute | by vm_compute |].
  unfold pausedTask, runningTask. split.
  - etrans; [exact Hp|]. by vm_compute.
  - exact Hr.
Defined.

(** ** Timer display *)

Lemma padStart2_digits s :
  Forall (λ c, isDigit c = true) s → Forall (λ c, isDigit c = true) (padStart2 s).
Proof.
  intros Hs. destruct s as [|a [|b s]]; simpl; [|by constructor|done].
  by repeat constructor.
Qed.

Lemma padStart2_value s : digitsValue 0 (padStart2 s) = digitsValue 0 s.
Proof. by destruct s as [|a [|b s]]. Qed.

Lemma stringOfN_length_small n : (n < 100)%N → (length (stringOfN n) ≤ 2)%nat.
Proof.
  intros Hn. unfold stringOfN. cbn [digitsOf].
  destruct (N.ltb_spec n 10) as [|Hge]; [simpl; lia|].
  destruct (N.to_nat (N.log2 n)) as [|fuel]; [simpl; lia|].
  cbn [digitsOf]. rewrite (proj2 (N.ltb_lt (n `div` 10) 10)); [simpl; lia|].
  apply N.Div0.div_lt_upper_bound. lia.
Qed.

Lemma padStart2_length_small n : (n < 100)%N → length (padStart2 (stringOfN n)) = 2%nat.
Proof.
  intros Hn. pose proof (stringOfN_length_small n Hn) as Hl.
  pose proof (stringOfN_nonempty n) as Hne.
  destruct (stringOfN n) as [|a [|b [|c s]]]; simpl in *; try done; lia.
Qed.

(** The three fields of the display for a time that is not negative. *)
Lemma formatTime_fields (ms : Z) :
  0 ≤ ms →
  let t := ms / 1000 in
  formatTime (Fin ms)
  = padStart2 (stringOfN (Z.to_N (t / 3600))) ++ js ":"
    ++ padStart2 (stringOfN (Z.to_N (t mod 3600 / 60))) ++ js ":"
    ++ padStart2 (stringOfN (Z.to_N (t mod 60))).
Proof.
  intros Hms t. unfold formatTime. cbn [floorDiv remainder]. fold t.
  assert (0 ≤ t) by (apply Z.div_pos; lia).
  rewrite !Z.rem_mod_nonneg by lia.
  unfold String_.
  rewrite (proj2 (Z.ltb_ge (t / 3600) 0)) by (apply Z.div_pos; lia).
  rewrite (proj2 (Z.ltb_ge (t mod 3600 / 60) 0))
    by (apply Z.div_pos; [apply Z.mod_pos_bound|]; lia).
  rewrite (proj2 (Z.ltb_ge (t mod 60) 0)) by (apply Z.mod_pos_bound; lia).
  done.
Qed.

Lemma padded_value n : digitsValue 0 (padStart2 (stringOfN n)) = Z.of_N n.
Proof. by rewrite padStart2_value, stringOfN_value. Qed.

(** X6. [formatTime] shows the whole seconds of a time that is not
    negative and nothing else: two times get the same text exactly when they
    have the same number of whole seconds; below 100 hours the text has the
    eight characters of HH:MM:SS. *)
Theorem formatTime_shows_seconds (a b : Z) :
  0 ≤ a → 0 ≤ b →
  (formatTime (Fin a) = formatTime (Fin b) ↔ a / 1000 = b / 1000)
  ∧ (a < 360000000 → length (formatTime (Fin a)) = 8%nat).
Proof.
  intros Ha Hb. rewrite !formatTime_fields by done. cbv zeta.
  set (ta := a / 1000). set (tb := b / 1000).
  assert (0 ≤ ta) by (apply Z.div_pos; lia).
  assert (0 ≤ tb) by (apply Z.div_pos; lia).
  assert (Hm : ∀ t, 0 ≤ t → (Z.to_N (t mod 3600 / 60) < 100)%N).
  { intros t Ht. pose proof (Z.mod_pos_bound t 3600 ltac:(lia)).
    assert (t mod 3600 / 60 < 60) by (apply Z.div_lt_upper_bound; lia).
    assert (0 ≤ t mod 3600 / 60) by (apply Z.div_pos; lia). lia. }
  assert (Hs : ∀ t, 0 ≤ t → (Z.to_N (t mod 60) < 100)%N).
  { intros t Ht. pose proof (Z.mod_pos_bound t 60 ltac:(lia)). lia. }
  pose proof (padStart2_length_small _ (Hm ta H)) as Lma.
  pose proof (padStart2_length_small _ (Hm tb H0)) as Lmb.
  pose proof (padStart2_length_small _ (Hs ta H)) as Lsa.
  pose proof (padStart2_length_small _ (Hs tb H0)) as Lsb.
  split; [split|].
  - intros Heq.
    assert (Hlen := f_equal length Heq).
    rewrite !length_app, Lma, Lmb, Lsa, Lsb in Hlen.
    apply app_inj_1 in Heq as [Hh Heq]; [|lia].
    apply app_inj_1 in Heq as [_ Heq]; [|done].
    apply app_inj_1 in Heq as [Hmm Heq]; [|by rewrite Lma, Lmb].
    apply app_inj_1 in Heq as [_ Hss]; [|done].
    apply (f_equal (digitsValue 0)) in Hh, Hmm, Hss.
    rewrite !padded_value in Hh, Hmm, Hss.
    pose proof (Z.mod_pos_bound ta 3600 ltac:(lia)).
    pose proof (Z.mod_pos_bound tb 3600 ltac:(lia)).
    pose proof (Z.mod_pos_bound ta 60 ltac:(lia)).
    pose proof (Z.mod_pos_bound tb 60 ltac:(lia)).
    rewrite !Z2N.id in Hh, Hmm, Hss by (first [apply Z.div_pos; lia | lia]).
    rewrite (Z.div_mod ta 3600), (Z.div_mod tb 3600) by lia.
    rewrite (Z.div_mod (ta mod 3600) 60), (Z.div_mod (tb mod 3600) 60) by lia.
    rewrite !(Z.mod_mod_divide _ 3600 60) by (by exists 60).
    lia.
  - intros Heq. fold ta tb in Heq. by rewrite Heq.
  - intros Hlt. rewrite !length_app, Lma, Lsa.
    rewrite padStart2_length_small; [done|].
    assert (ta < 360000) by (apply Z.div_lt_upper_bound; lia).
    assert (ta / 3600 < 100) by (apply Z.div_lt_upper_bound; lia).
    assert (0 ≤ ta / 3600) by (apply Z.div_pos; lia). lia.
Qed.

Lemma formatTime_shows_seconds_witness :
  (formatTime (Fin 65000) = formatTime (Fin 65999))
  ∧ length (formatTime (Fin 65000)) = 8%nat
  ∧ formatTime (Fin 65000) = js "00:01:05"
  ∧ formatTime (Fin 90061000) = js "25:01:01".
Proof.
  destruct (formatTime_shows_seconds 65000 65999) as [Hiff Hlen]; [lia | lia |].
  split; [apply Hiff; by vm_compute|]. split; [apply Hlen; lia|].
  split; by vm_compute.
Defined.

(** ** Loading arbitrary records *)

Lemma restoreTask_stored r :
  let li0 := restoreTask r in
  substeps li0 = []
  ∧ dataset li0 !! "description" = None
  ∧ attr (dataset li0) "taskId" = r_id r
  ∧ text li0 ≠ []
  ∧ truthy (dataset li0 !! "isUrgent") = true
  ∧ truthy (dataset li0 !! "isImportant") = true
  ∧ truthy (dataset li0 !! "elapsedMs") = true.
Proof.
  destruct r as [id txt dsc dl eta cpl urg imp el col subs].
  destruct id as [|c0 i0]; destruct txt as [|c6 t6];
    destruct dl as [|c1 d1]; destruct eta as [|c2 e2]; destruct cpl; destruct col;
    destruct urg as [|c3 u3]; destruct imp as [|c4 i4]; destruct el as [|c5 e5];
    vm_compute; repeat split; discriminate.
Qed.

Lemma loadSubstep_stored r : storedSubstep (loadSubstep r).
Proof.
  destruct r as [id txt cpl eta el]. unfold storedSubstep.
  destruct id as [|c0 i0]; destruct eta as [|c2 e2]; destruct cpl;
    destruct el as [|c5 e5]; by vm_compute.
Qed.

Lemma taskIdOf_nonempty n : taskIdOf n ≠ [].
Proof. done. Qed.

(** What [loadTask] builds from any record. *)
Lemma loadTask_any counter r :
  ∃ li0 counter',
    loadTask counter r = (counter', updateSubstepSummary li0)
    ∧ substeps li0 = loadSubstep <$> r_substeps r
    ∧ truthy (dataset li0 !! "taskId") = true
    ∧ text li0 ≠ []
    ∧ truthy (dataset li0 !! "isUrgent") = true
    ∧ truthy (dataset li0 !! "isImportant") = true
    ∧ truthy (dataset li0 !! "elapsedMs") = true
    ∧ (r_id r ≠ [] → counter' = counter ∧ attr (dataset li0) "taskId" = r_id r)
    ∧ (r_id r = [] → counter' = N.succ counter
                     ∧ dataset li0 !! "taskId" = Some (taskIdOf counter)).
Proof.
  destruct (restoreTask_stored r) as (Hs & Hd & Aid & Htxt & Hu & Hi & He).
  unfold loadTask, attachTaskEventHandlers. rewrite Hd. cbn [truthy].
  rewrite dataset_updateSubstepSummary.
  unfold attr in Aid.
  destruct (dataset (restoreTask r) !! "taskId") as [[|c s]|] eqn:Hid;
    cbn [truthy or_else] in *;
    eexists _, _; (split; [reflexivity|]);
    cbn [substeps set_substeps set_dataset dataset text];
    rewrite ?substeps_updateSubstepSummary, ?Hs, ?dataset_updateSubstepSummary,
      ?text_updateSubstepSummary; unfold attr;
    rewrite ?lookup_insert_eq; repeat (rewrite lookup_insert_ne by done); rewrite ?Hid;
    (split; [done|]); (split; [done|]); (split; [done|]); (split; [done|]);
    (split; [done|]); (split; [done|]); (split; intros ?; split; first [done | congruence | by rewrite <- Aid]).
Qed.

Lemma loadTask_sound counter r :
  let li := (loadTask counter r).2 in
  storedTask li ∧ rolledUp li ∧ checkboxInSync li ∧ substepsMarked li
  ∧ (counter ≤ (loadTask counter r).1)%N
  ∧ (r_id r ≠ [] → (loadTask counter r).1 = counter)
  ∧ length (substeps li) = length (r_substeps r).
Proof.
  destruct (loadTask_any counter r) as
    (li0 & c' & -> & Hs & Hid & Htxt & Hu & Hi & He & Hsome & Hnone).
  cbn [fst snd].
  assert (Hm : substepsMarked li0).
  { unfold substepsMarked. rewrite Hs. apply Forall_fmap, Forall_true.
    intros s. apply loadSubstep_marked. }
  split; [|split; [|split; [|split; [|split; [|split]]]]].
  - unfold storedTask.
    rewrite dataset_updateSubstepSummary, text_updateSubstepSummary,
      substeps_updateSubstepSummary, Hs.
    repeat split; try done. apply Forall_fmap, Forall_true. intros s.
    apply loadSubstep_stored.
  - unfold rolledUp. rewrite completedFlag_updateSubstepSummary by done.
    by rewrite completedSubsteps_updateSubstepSummary, substeps_updateSubstepSummary.
  - unfold checkboxInSync. symmetry. apply checkbox_updateSubstepSummary.
  - unfold substepsMarked. by rewrite substeps_updateSubstepSummary.
  - destruct (decide (r_id r = [])) as [Hr|Hr].
    + destruct (Hnone Hr) as [-> _]. lia.
    + destruct (Hsome Hr) as [-> _]. lia.
  - intros Hr. by destruct (Hsome Hr).
  - by rewrite substeps_updateSubstepSummary, Hs, length_fmap.
Qed.

Lemma loadAll_sound recs : ∀ counter acc,
  ∃ l', (loadAll recs counter acc).2 = acc ++ l'
        ∧ length l' = length recs
        ∧ Forall (λ li, storedTask li ∧ rolledUp li ∧ checkboxInSync li) l'
        ∧ (counter ≤ (loadAll recs counter acc).1)%N
        ∧ (Forall (λ r, r_id r ≠ []) recs → (loadAll recs counter acc).1 = counter).
Proof.
  induction recs as [|r recs IH]; intros counter acc.
  - exists []. simpl. rewrite app_nil_r. repeat split; (done || lia).
  - cbn [loadAll].
    pose proof (loadTask_sound counter r) as (Hst & Hru & Hcb & _ & Hle & Hid & _).
    destruct (loadTask counter r) as [c1 li] eqn:Hl. cbn [fst snd] in *.
    destruct (IH c1 (acc ++ [li])) as (l' & Heq & Hlen & Hall & Hle' & Hid').
    exists (li :: l'). rewrite Heq, <- app_assoc.
    split; [done|]. split; [simpl; by rewrite Hlen|].
    split; [by constructor|]. split; [lia|].
    intros [Hr Hrs]%Forall_cons. rewrite Hid' by done. by apply Hid.
Qed.

(** From an array of records with the fields of [serializeTask],
    [loadTasks] builds one task per record; every task has an id, a name and
    its three stored attributes, its [completed] class is the roll-up of its
    sub-steps and its checkbox agrees with the class.  The id counter never
    goes down and stays put when every record has an id. *)
Lemma loadTasks_typed_records (recs : list TaskRecord) (counter : N) (old : list TaskLi) :
  let loaded := (loadTasks (Some recs) counter old).2 in
  let counter' := (loadTasks (Some recs) counter old).1 in
  length loaded = length recs
  ∧ Forall (λ li, storedTask li ∧ rolledUp li ∧ checkboxInSync li) loaded
  ∧ (counter ≤ counter')%N
  ∧ match decide (Forall (λ r, r_id r ≠ []) recs) with
    | left _ => counter' = counter
    | right _ => True
    end.
Proof.
  cbn [loadTasks].
  destruct (loadAll_sound recs counter []) as (l' & Heq & Hlen & Hall & Hle & Hid).
  rewrite Heq. cbn [app]. repeat split; try done. by case_decide; [apply Hid|].
Qed.

(** ** Saving what was loaded *)

Lemma or_else_attr (d d' : gmap string jsstring) k x :
  attr d' k = attr d k → or_else (d' !! k) x = or_else (d !! k) x.
Proof.
  unfold attr. by destruct (d' !! k) as [[|c s]|], (d !! k) as [[|c' s']|]; intros [=]; subst.
Qed.

Lemma serializeSubstep_restored s s' :
  restoredSubstep s s' → serializeSubstep s' = serializeSubstep s.
Proof.
  intros (Hid & Ht & Hc & _ & He & Hel & _). unfold serializeSubstep.
  rewrite Ht, Hc. fold (attr (sub_dataset s') "substepId") (attr (sub_dataset s) "substepId")
    (attr (sub_dataset s') "etaMin") (attr (sub_dataset s) "etaMin").
  rewrite Hid, He. by rewrite (or_else_attr _ _ "elapsedMs" _ Hel).
Qed.

Lemma serializeTask_restored li li' :
  rolledUp li → rolledUp li' → restoredTask li li' →
  serializeTask li' = serializeTask li.
Proof.
  intros Hr Hr' (Ha & Ht & Hd & Hc & Hs & _ & _ & _ & _ & _).
  assert (Hsub : serializeSubstep <$> substeps li' = serializeSubstep <$> substeps li).
  { clear -Hs. induction Hs as [|s s' l l' Hss _ IH]; [done|].
    rewrite !fmap_cons, IH. f_equal. by apply serializeSubstep_restored. }
  assert (Hcf : completedFlag li' = completedFlag li).
  { unfold rolledUp in Hr, Hr'. rewrite Hr, Hr'. unfold completedSubsteps.
    rewrite (completed_count_restored _ _ Hs), (Forall2_length _ _ _ Hs). done. }
  unfold serializeTask. unfold completedFlag in Hcf. rewrite Ht, Hd, Hc, Hcf, Hsub.
  rewrite (or_else_attr _ _ "taskId" _ (Ha "taskId" ltac:(set_solver))).
  rewrite (or_else_attr _ _ "deadline" _ (Ha "deadline" ltac:(set_solver))).
  rewrite (or_else_attr _ _ "etaMin" _ (Ha "etaMin" ltac:(set_solver))).
  rewrite (or_else_attr _ _ "isUrgent" _ (Ha "isUrgent" ltac:(set_solver))).
  rewrite (or_else_attr _ _ "isImportant" _ (Ha "isImportant" ltac:(set_solver))).
  rewrite (or_else_attr _ _ "elapsedMs" _ (Ha "elapsedMs" ltac:(set_solver))).
  done.
Qed.

Lemma loadAll_again l : ∀ counter acc,
  Forall (λ li, storedTask li ∧ rolledUp li ∧ checkboxInSync li) l →
  saveTasks (drop (length acc) (loadAll (saveTasks l) counter acc).2) = saveTasks l.
Proof.
  induction l as [|li l IH]; intros counter acc Hl.
  - simpl. by rewrite drop_all.
  - apply Forall_cons in Hl as [(Hst & Hru & _) Hl].
    cbn [saveTasks fmap list_fmap loadAll].
    destruct (loadTask_restores counter li Hst) as (li' & Heq & Hres).
    pose proof (loadTask_sound counter (serializeTask li)) as (_ & Hru' & _).
    rewrite Heq in *. cbn [snd] in Hru'. cbv beta iota.
    specialize (IH counter (acc ++ [li']) Hl).
    destruct (loadAll_sound (saveTasks l) counter (acc ++ [li'])) as (l' & Hl' & _).
    rewrite Hl' in IH. rewrite drop_app_length in IH.
    change (serializeTask <$> l) with (saveTasks l). rewrite Hl'.
    rewrite <- app_assoc, drop_app_length. cbn [app].
    unfold saveTasks at 1. rewrite fmap_cons. fold (saveTasks l'). rewrite IH.
    f_equal. by apply serializeTask_restored.
Qed.

(** X8. A list that [loadTasks] built is a fixed point of saving and
    loading: saving it, loading the item and saving again writes the same
    records. *)
Theorem saving_what_was_loaded (recs : list TaskRecord) (counter counter' : N)
    (old old' : list TaskLi) :
  let loaded := (loadTasks (Some recs) counter old).2 in
  saveTasks (loadTasks (Some (saveTasks loaded)) counter' old').2 = saveTasks loaded.
Proof.
  intros loaded.
  assert (Hall : Forall (λ li, storedTask li ∧ rolledUp li ∧ checkboxInSync li) loaded).
  { subst loaded. cbn [loadTasks].
    destruct (loadAll_sound recs counter []) as (l' & -> & _ & Hall & _). done. }
  cbn [loadTasks]. apply (loadAll_again loaded counter' [] Hall).
Qed.

(** ** Deadline and priority of an element *)

(** X9. After [applyDeadline] the class [has-deadline] is there exactly
    when the deadline attribute is, the attribute reads back as the value
    given (absent for the empty value), the sort key is that date, and no
    other attribute changes. *)
Theorem applyDeadline_in_sync (deadline : jsstring) (li : TaskLi) :
  let li' := applyDeadline deadline li in
  contains "has-deadline" (classList li') = truthy (dataset li' !! "deadline")
  ∧ attr (dataset li') "deadline" = deadline
  ∧ deadlineKey li' = match deadline with [] => PosInf | _ => Date.getTime deadline end
  ∧ ∀ k, k ≠ "deadline" → dataset li' !! k = dataset li !! k.
Proof.
  unfold applyDeadline, deadlineKey, attr, contains.
  destruct deadline as [|c d]; cbn [dataset classList set_dataset set_classList].
  - rewrite lookup_delete_eq. cbn [truthy or_else].
    rewrite bool_decide_eq_false_2 by set_solver.
    repeat split; try done. intros k Hk. by rewrite lookup_delete_ne.
  - rewrite lookup_insert_eq. cbn [truthy or_else].
    rewrite bool_decide_eq_true_2 by set_solver.
    repeat split; try done. intros k Hk. by rewrite lookup_insert_ne.
Qed.

(** X10. After [applyPriorityClass] the element carries exactly one of
    the three priority classes, [priority-low] for any value other than
    [high] and [medium]; the value is stored as given and no other class
    changes. *)
Theorem applyPriorityClass_one_class (priority : jsstring) (li : TaskLi) :
  let li' := applyPriorityClass priority li in
  priorityClasses li'
  = (if bool_decide (priority = js "high") then ["priority-high"]
     else if bool_decide (priority = js "medium") then ["priority-medium"]
     else ["priority-low"])
  ∧ dataset li' !! "priority" = Some priority
  ∧ ∀ c, c ∉ ["priority-high"; "priority-medium"; "priority-low"] →
         contains c (classList li') = contains c (classList li).
Proof.
  unfold applyPriorityClass, priorityClasses, contains.
  cbn [dataset classList set_dataset set_classList].
  rewrite lookup_insert_eq. split; [|split; [done|]].
  - repeat case_bool_decide; rewrite !filter_cons, filter_nil;
      repeat case_decide; try done; set_solver.
  - intros c Hc. apply bool_decide_ext.
    repeat case_bool_decide; set_solver.
Qed.

(** ** Theme class *)

Lemma startsWith_app p s : startsWith p (p ++ s) = true.
Proof. induction p as [|a p IH]; [done|]. simpl. by rewrite N.eqb_refl, IH. Qed.

(** X11. The class name [getThemeClass] gives always starts with
    [theme-], and applying the function to its own result changes nothing. *)
Theorem getThemeClass_idempotent (value : jsstring) :
  startsWith (js "theme-") (getThemeClass value) = true
  ∧ getThemeClass (getThemeClass value) = getThemeClass value.
Proof.
  assert (Hp : startsWith (js "theme-") (getThemeClass value) = true).
  { unfold getThemeClass. destruct (startsWith (js "theme-") value) eqn:Hs; [done|].
    apply startsWith_app. }
  split; [done|]. unfold getThemeClass at 1. by rewrite Hp.
Qed.

(** ** Adding and editing tasks *)

Lemma updateSubstepSummary_set_desc v li :
  updateSubstepSummary (set_desc v li) = set_desc v (updateSubstepSummary li).
Proof. unfold updateSubstepSummary. cbn [substeps set_desc]. by case_match. Qed.

Lemma attachTaskEventHandlers_fields counter li :
  let r := attachTaskEventHandlers counter li in
  text r.2 = text li
  ∧ substeps r.2 = substeps li
  ∧ (∀ k, k ≠ "taskId" → dataset r.2 !! k = dataset li !! k)
  ∧ (truthy (dataset li !! "taskId") = true →
       r.1 = counter ∧ dataset r.2 !! "taskId" = dataset li !! "taskId")
  ∧ (truthy (dataset li !! "taskId") = false →
       r.1 = N.succ counter ∧ dataset r.2 !! "taskId" = Some (taskIdOf counter))
  ∧ completedFlag r.2 = completedFlag (updateSubstepSummary li)
  ∧ checkbox r.2 = completedFlag r.2.
Proof.
  unfold attachTaskEventHandlers.
  assert (Hgen : ∀ li1, text li1 = text li → substeps li1 = substeps li →
    dataset li1 = dataset li →
    completedFlag (updateSubstepSummary li1) = completedFlag (updateSubstepSummary li) →
    let r := if truthy (dataset (updateSubstepSummary li1) !! "taskId")
             then (counter, updateSubstepSummary li1)
             else (N.succ counter,
                   set_dataset (<["taskId":=taskIdOf counter]>
                                  (dataset (updateSubstepSummary li1)))
                     (updateSubstepSummary li1)) in
    text r.2 = text li
    ∧ substeps r.2 = substeps li
    ∧ (∀ k, k ≠ "taskId" → dataset r.2 !! k = dataset li !! k)
    ∧ (truthy (dataset li !! "taskId") = true →
         r.1 = counter ∧ dataset r.2 !! "taskId" = dataset li !! "taskId")
    ∧ (truthy (dataset li !! "taskId") = false →
         r.1 = N.succ counter ∧ dataset r.2 !! "taskId" = Some (taskIdOf counter))
    ∧ completedFlag r.2 = completedFlag (updateSubstepSummary li)
    ∧ checkbox r.2 = completedFlag r.2).
  { intros li1 Ht Hs Hd Hc. rewrite dataset_updateSubstepSummary, Hd.
    destruct (truthy (dataset li !! "taskId")) eqn:Hid; cbn [fst snd];
      cbn [text substeps dataset set_dataset];
      rewrite ?text_updateSubstepSummary, ?substeps_updateSubstepSummary,
        ?dataset_updateSubstepSummary, ?Hd.
    - split; [done|]. split; [done|]. split; [done|]. split; [done|].
      split; [done|]. split; [done|]. apply checkbox_updateSubstepSummary.
    - split; [done|]. split; [done|].
      split; [intros k Hk; by rewrite lookup_insert_ne|].
      split; [done|]. split; [intros _; by rewrite lookup_insert_eq|].
      split; [done|]. apply checkbox_updateSubstepSummary. }
  destruct (truthy (dataset li !! "description")); [|by apply Hgen].
  apply Hgen; try done. by rewrite updateSubstepSummary_set_desc.
Qed.

Section SortSnoc.
Context {A : Type} (cmp : A → A → number).

(** An element that no other one has to stand behind stays last. *)
Lemma insert_sorted_snoc a l x :
  is_pos (cmp a x) = false →
  insert_sorted cmp a (l ++ [x]) = insert_sorted cmp a l ++ [x].
Proof.
  intros Hax. induction l as [|y l IH]; simpl; [by rewrite Hax|].
  destruct (is_pos (cmp a y)); [by rewrite IH | done].
Qed.

Lemma sort_snoc l x :
  Forall (λ a, is_pos (cmp a x) = false) l →
  sort cmp (l ++ [x]) = sort cmp l ++ [x].
Proof.
  induction 1 as [|a l Ha _ IH]; [done|]. simpl.
  by rewrite IH, insert_sorted_snoc.
Qed.
End SortSnoc.

Lemma quadrantScore_min a : 1 ≤ quadrantScore a.
Proof. rewrite quadrantScore_rank. by destruct (targetCell a). Qed.

Lemma createTaskElement_fields t p d :
  text (createTaskElement t p d) = t
  ∧ substeps (createTaskElement t p d) = []
  ∧ dataset (createTaskElement t p d) !! "taskId" = None
  ∧ dataset (createTaskElement t p d) !! "description" = None
  ∧ dataset (createTaskElement t p d) !! "isUrgent" = Some (js "false")
  ∧ dataset (createTaskElement t p d) !! "isImportant" = Some (js "false")
  ∧ dataset (createTaskElement t p d) !! "priority" = Some p.
Proof.
  unfold createTaskElement, applyDeadline, applyPriorityClass.
  destruct d as [|c d]; cbn [text substeps dataset set_dataset set_classList];
    by simplify_map_eq.
Qed.

Lemma completedFlag_no_substeps li :
  substeps li = [] → completedFlag (updateSubstepSummary li) = false.
Proof.
  intros Hs. unfold updateSubstepSummary. rewrite Hs. simpl.
  unfold completedFlag, contains. simpl. apply bool_decide_eq_false_2. set_solver.
Qed.

(** The element [addTask] appends for a text that is not blank. *)
Lemma addTask_new_task value counter :
  trim value ≠ [] →
  let r := attachTaskEventHandlers counter (createTaskElement (trim value) (js "medium") []) in
  r.1 = N.succ counter
  ∧ text r.2 = trim value
  ∧ substeps r.2 = []
  ∧ dataset r.2 !! "taskId" = Some (taskIdOf counter)
  ∧ completedFlag r.2 = false
  ∧ checkbox r.2 = false
  ∧ targetCell r.2 = Eliminate.
Proof.
  intros Hv r.
  destruct (createTaskElement_fields (trim value) (js "medium") []) as
    (Ht & Hs & Hid & _ & Hu & Hi & _).
  destruct (attachTaskEventHandlers_fields counter
              (createTaskElement (trim value) (js "medium") [])) as
    (At & As & Ad & _ & Anew & Ac & Acb).
  fold r in At, As, Ad, Anew, Ac, Acb.
  rewrite Hid in Anew. destruct (Anew eq_refl) as [Hc Hnew].
  rewrite completedFlag_no_substeps in Ac by done.
  split; [done|]. split; [congruence|]. split; [congruence|]. split; [done|].
  split; [done|]. split; [congruence|].
  unfold targetCell. rewrite (Ad "isImportant"), (Ad "isUrgent") by done.
  by rewrite Hu, Hi.
Qed.

(** X13. [addTask] refuses a blank text and leaves the counter and the
    list alone.  Otherwise the counter goes up by one and the list is the
    old list sorted with the new task at its end: the new task has the
    trimmed text, the id made from the old counter, no sub-steps, is not
    completed and belongs to the cell Eliminate. *)
Theorem addTask_appends (value : jsstring) (counter : N) (l : list TaskLi) :
  (trim value = [] → addTask value counter l = (counter, l))
  ∧ (trim value ≠ [] →
     ∃ new,
       addTask value counter l = (N.succ counter, sortTasks l ++ [new])
       ∧ text new = trim value
       ∧ substeps new = []
       ∧ dataset new !! "taskId" = Some (taskIdOf counter)
       ∧ completedFlag new = false
       ∧ targetCell new = Eliminate).
Proof.
  split; intros Hv; unfold addTask.
  - by rewrite Hv.
  - destruct (addTask_new_task value counter Hv) as (Hc & Ht & Hs & Hid & Hcf & _ & Hq).
    destruct (trim value) as [|c v] eqn:Htrim; [done|].
    destruct (attachTaskEventHandlers counter (createTaskElement (c :: v) (js "medium") []))
      as [c' new] eqn:Hnew.
    cbn [fst snd] in *. subst c'. exists new.
    split; [|done].
    f_equal. rewrite !sortTasks_sort. apply sort_snoc.
    apply Forall_true. intros a.
    change (is_pos (Fin (quadrantScore new - quadrantScore a)) = false). cbn [is_pos].
    rewrite (quadrantScore_rank new), Hq. cbn [rank].
    pose proof (quadrantScore_min a). rewrite Z.ltb_ge. lia.
Qed.

Lemma addTask_appends_witness :
  ∃ new,
    addTask (js "  Buy stamps ") 1 [plainTask] = (2%N, sortTasks [plainTask] ++ [new])
    ∧ text new = js "Buy stamps".
Proof.
  destruct (addTask_appends (js "  Buy stamps ") 1 [plainTask]) as [_ Hadd].
  destruct Hadd as (new & Heq & Ht & _); [by vm_compute|].
  exists new. split; [exact Heq|]. rewrite Ht. by vm_compute.
Defined.

(** ** What every handler keeps *)

Lemma String_nonempty x : String_ x ≠ [].
Proof.
  destruct x as [z| | |]; try done. simpl.
  destruct (z <? 0); [done | apply stringOfN_nonempty].
Qed.

Lemma truthy_Some s : s ≠ [] → truthy (Some s) = true.
Proof. by destruct s. Qed.

(** A change of the data attributes that keeps the stored ones present and
    the deadline as it is. *)
Lemma goodTask_set_dataset d li :
  goodTask li →
  truthy (d !! "taskId") = true →
  truthy (d !! "isUrgent") = true →
  truthy (d !! "isImportant") = true →
  truthy (d !! "elapsedMs") = true →
  d !! "deadline" = dataset li !! "deadline" →
  goodTask (set_dataset d li).
Proof.
  intros ((_ & Ht & _ & _ & _ & Hs) & Hc & Hd & Hm & Hss) ? ? ? ? Hdl.
  unfold goodTask, storedTask, checkboxInSync, deadlineInSync, substepsMarked in *.
  cbn [dataset classList checkbox text substeps set_dataset]. rewrite Hdl.
  done.
Qed.

(** A change of the class list that leaves [completed] and [has-deadline]
    alone. *)
Lemma goodTask_set_classList cl li :
  goodTask li →
  contains "completed" cl = contains "completed" (classList li) →
  contains "has-deadline" cl = contains "has-deadline" (classList li) →
  goodTask (set_classList cl li).
Proof.
  intros (Hst & Hc & Hd & Hm & Hss) H1 H2.
  unfold goodTask, storedTask, checkboxInSync, deadlineInSync, substepsMarked in *.
  cbn [dataset classList checkbox text substeps set_classList]. rewrite H1, H2.
  done.
Qed.

Lemma goodTask_set_desc v li : goodTask li → goodTask (set_desc v li).
Proof. done. Qed.

Lemma goodTask_set_timerInterval t li : goodTask li → goodTask (set_timerInterval t li).
Proof. done. Qed.

Lemma goodTask_stored li k :
  goodTask li → k ∈ ["taskId"; "isUrgent"; "isImportant"; "elapsedMs"] →
  truthy (dataset li !! k) = true.
Proof.
  intros ((? & _ & ? & ? & ? & _) & _) Hk. set_unfold in Hk.
  by destruct_or!; subst k.
Qed.

Ltac stored_keys H :=
  repeat match goal with
  | |- truthy (<[ ?k := _ ]> _ !! ?k) = true =>
      rewrite lookup_insert_eq; apply truthy_Some; try done
  | |- truthy (<[ _ := _ ]> _ !! _) = true => rewrite lookup_insert_ne by done
  | |- truthy (delete _ _ !! _) = true => rewrite lookup_delete_ne by done
  | |- truthy (dataset _ !! _) = true => apply (goodTask_stored _ _ H); set_solver
  | |- <[ _ := _ ]> _ !! "deadline" = _ => rewrite lookup_insert_ne by done
  | |- delete _ _ !! "deadline" = _ => rewrite lookup_delete_ne by done
  end; try done.

Lemma goodTask_collapseClick li : goodTask li → goodTask (collapseClick li).
Proof.
  intros H. apply goodTask_set_classList; [done| |]; unfold contains, toggle;
    apply bool_decide_ext; case_match; set_solver.
Qed.

Lemma goodTask_dragStart li : goodTask li → goodTask (dragStart li).
Proof.
  intros H. apply goodTask_set_classList; [done| |]; unfold contains;
    apply bool_decide_ext; set_solver.
Qed.

Lemma goodTask_dragEnd li : goodTask li → goodTask (dragEnd li).
Proof.
  intros H. apply goodTask_set_classList; [done| |]; unfold contains;
    apply bool_decide_ext; set_solver.
Qed.

Lemma goodTask_urgentToggleChange b li : goodTask li → goodTask (urgentToggleChange b li).
Proof.
  intros H. apply goodTask_set_dataset; [done|..]; stored_keys H. by destruct b.
Qed.

Lemma goodTask_importantToggleChange b li :
  goodTask li → goodTask (importantToggleChange b li).
Proof.
  intros H. apply goodTask_set_dataset; [done|..]; stored_keys H. by destruct b.
Qed.

Lemma goodTask_matrixDrop q li : goodTask li → goodTask (matrixDrop q li).
Proof.
  intros H. unfold matrixDrop.
  repeat case_bool_decide; try done; apply goodTask_set_dataset; try done; stored_keys H.
Qed.

Lemma goodTask_etaInputChange v li : goodTask li → goodTask (etaInputChange v li).
Proof.
  intros H. unfold etaInputChange.
  destruct (trim (numberInputValue v)); apply goodTask_set_dataset; try done; stored_keys H.
Qed.

Lemma goodTask_descInput v li : goodTask li → goodTask (descInput v li).
Proof.
  intros H. unfold descInput. apply goodTask_set_desc.
  apply goodTask_set_dataset; try done; stored_keys H.
Qed.

Lemma goodTask_startTimer li : goodTask li → goodTask (startTimer li).
Proof.
  intros H. unfold startTimer. cbn. destruct (timerInterval li); [done|].
  apply goodTask_set_dataset; try done; cbn; stored_keys H.
Qed.

Lemma goodTask_pauseTimer li : goodTask li → goodTask (pauseTimer li).
Proof.
  intros H. unfold pauseTimer. cbn.
  apply goodTask_set_dataset; try done; cbn; stored_keys H.
Qed.

Lemma goodTask_resetTimer li : goodTask li → goodTask (resetTimer li).
Proof.
  intros H. unfold resetTimer. cbn.
  apply goodTask_set_dataset; [by apply goodTask_pauseTimer|..];
    unfold pauseTimer; cbn; stored_keys H.
Qed.

Lemma goodTask_tick li : goodTask li → goodTask (tick li).
Proof.
  intros H. unfold tick. cbn. destruct (timerInterval li); [|done].
  apply goodTask_set_dataset; try done; cbn; stored_keys H. apply String_nonempty.
Qed.

Lemma goodTask_applyDeadline v li : goodTask li → goodTask (applyDeadline v li).
Proof.
  intros ((Hid & Ht & Hu & Hi & He & Hs) & Hc & Hd & Hm & Hss).
  unfold goodTask, storedTask, checkboxInSync, deadlineInSync, substepsMarked,
    applyDeadline, contains in *.
  destruct v as [|c v]; cbn [dataset classList checkbox text substeps set_dataset set_classList].
  - rewrite !lookup_delete_ne by done. rewrite lookup_delete_eq.
    repeat split; try done.
    + rewrite <- Hc. apply bool_decide_ext. set_solver.
    + cbn. apply bool_decide_eq_false_2. set_solver.
  - rewrite !lookup_insert_ne by done. rewrite lookup_insert_eq.
    repeat split; try done.
    + rewrite <- Hc. apply bool_decide_ext. set_solver.
    + cbn. apply bool_decide_eq_true_2. set_solver.
Qed.

Lemma goodTask_finishInlineEdit save v li :
  goodTask li → goodTask (finishInlineEdit save v li).
Proof.
  intros ((Hid & Ht & Hu & Hi & He & Hs) & Hc & Hd & Hm & Hss).
  unfold finishInlineEdit. destruct save; [|done].
  destruct (trim v) as [|c t] eqn:Hv; [done|].
  unfold goodTask, storedTask, checkboxInSync, deadlineInSync, substepsMarked, contains in *.
  cbn [dataset classList checkbox text substeps set_checkbox set_classList set_text].
  repeat split; try done.
  - apply bool_decide_eq_false_2. set_solver.
  - rewrite <- Hd. apply bool_decide_ext. set_solver.
Qed.

Lemma goodTask_checkbox_toggle li :
  goodTask li →
  goodTask (set_classList (toggle "completed" (negb (checkbox li)) (classList li))
              (set_checkbox (negb (checkbox li)) li)).
Proof.
  intros ((Hid & Ht & Hu & Hi & He & Hs) & Hc & Hd & Hm & Hss).
  unfold goodTask, storedTask, checkboxInSync, deadlineInSync, substepsMarked, contains,
    toggle in *.
  cbn [dataset classList checkbox text substeps set_checkbox set_classList].
  repeat split; try done.
  - destruct (negb (checkbox li)).
    + apply bool_decide_eq_true_2. set_solver.
    + apply bool_decide_eq_false_2. set_solver.
  - rewrite <- Hd. apply bool_decide_ext. destruct (negb (checkbox li)); set_solver.
Qed.

(** The recompute puts the class and the checkbox of the task in step,
    whatever they were. *)
Lemma goodTask_updateSubstepSummary li :
  storedTask li → deadlineInSync li → substepsMarked li → Forall subInSync (substeps li) →
  goodTask (updateSubstepSummary li).
Proof.
  intros Hst Hd Hm Hss.
  unfold goodTask, storedTask, checkboxInSync, deadlineInSync, substepsMarked in *.
  rewrite !dataset_updateSubstepSummary, text_updateSubstepSummary,
    !substeps_updateSubstepSummary.
  rewrite (classList_updateSubstepSummary_other "has-deadline") by done.
  repeat split; try done; try apply Hst.
  symmetry. apply checkbox_updateSubstepSummary.
Qed.

Lemma goodTask_set_substeps l li :
  goodTask li →
  Forall storedSubstep l → Forall (λ s, "substep" ∈ sub_classList s) l →
  Forall subInSync l →
  goodTask (updateSubstepSummary (set_substeps l li)).
Proof.
  intros ((Hid & Ht & Hu & Hi & He & Hs) & Hc & Hd & Hm & Hss) H1 H2 H3.
  by apply goodTask_updateSubstepSummary.
Qed.

Lemma newSubstep_good t c :
  let s := sub_set_dataset (<["substepId":=substepIdOf c]> (sub_dataset (createSubstepElement t)))
             (createSubstepElement t) in
  storedSubstep s ∧ "substep" ∈ sub_classList s ∧ subInSync s
  ∧ sub_text s = t ∧ contains "completed" (sub_classList s) = false.
Proof.
  unfold storedSubstep, subInSync, contains, createSubstepElement.
  cbn [sub_dataset sub_classList sub_checkbox sub_text sub_set_dataset].
  rewrite lookup_insert_ne by done. rewrite lookup_singleton_eq.
  repeat split; try done; set_solver.
Qed.

(** The elements [appendSubsteps] adds. *)
Lemma appendSubsteps_new steps : ∀ c subList,
  ∃ new,
    appendSubsteps steps c subList = ((c + N.of_nat (length steps))%N, subList ++ new)
    ∧ sub_text <$> new = steps
    ∧ Forall storedSubstep new
    ∧ Forall (λ s, "substep" ∈ sub_classList s) new
    ∧ Forall subInSync new
    ∧ Forall (λ s, contains "completed" (sub_classList s) = false) new.
Proof.
  induction steps as [|t steps IH]; intros c subList.
  - exists []. cbn. rewrite app_nil_r, N.add_0_r. repeat split; constructor.
  - cbn [appendSubsteps].
    destruct (newSubstep_good t c) as (G1 & G2 & G3 & G4 & G5).
    edestruct IH as (new & -> & Ht & F1 & F2 & F3 & F4).
    exists (sub_set_dataset
              (<["substepId":=substepIdOf c]> (sub_dataset (createSubstepElement t)))
              (createSubstepElement t) :: new).
    rewrite <- app_assoc. cbn [app length].
    split; [f_equal; lia|]. split; [by rewrite fmap_cons, Ht, G4|].
    repeat split; by constructor.
Qed.

Lemma goodTask_substepEvent e c li :
  goodTask li → goodTask (substepEvent e c li).2 ∧ (c ≤ (substepEvent e c li).1)%N.
Proof.
  intros H. pose proof H as ((Hid & Ht & Hu & Hi & He & Hs) & Hc & Hd & Hm & Hss).
  destruct e as [v|steps|i|i]; cbn [substepEvent].
  - unfold addSubFromInput. destruct (trim v) as [|a t]; [split; [done|cbn; lia]|].
    cbn [fst snd]. split; [|lia].
    destruct (newSubstep_good (a :: t) c) as (G1 & G2 & G3 & _).
    apply goodTask_set_substeps; [done|..]; apply Forall_app; split; try done;
      by repeat constructor.
  - unfold addSubstepsToTask. destruct steps as [|t steps]; [split; [done|cbn; lia]|].
    destruct (appendSubsteps_new (t :: steps) c (substeps li))
      as (new & -> & _ & F1 & F2 & F3 & _).
    cbn [fst snd]. split; [|lia].
    apply goodTask_set_substeps; [done|..]; apply Forall_app; by split.
  - cbn [fst snd]. split; [|lia]. unfold substepCheckboxClick.
    destruct (substeps li !! i) as [s|] eqn:Hsi; [|done].
    pose proof (Forall_lookup_1 _ _ _ _ Hs Hsi) as S1.
    pose proof (Forall_lookup_1 _ _ _ _ Hm Hsi) as S2.
    apply goodTask_set_substeps; [done|..]; apply Forall_insert; try done.
    + cbn. unfold toggle. destruct (negb (sub_checkbox s)); set_solver.
    + unfold subInSync, contains, toggle. cbn. destruct (negb (sub_checkbox s)).
      * symmetry. apply bool_decide_eq_true_2. set_solver.
      * symmetry. apply bool_decide_eq_false_2. set_solver.
  - cbn [fst snd]. split; [|lia]. unfold substepDeleteClick.
    destruct (substeps li !! i) as [s|] eqn:Hsi; [|done].
    apply goodTask_set_substeps; [done|..]; by apply Forall_delete.
Qed.

(** A change of one sub-step that keeps its marks. *)
Lemma goodTask_alter_substep f j li :
  goodTask li →
  (∀ s, storedSubstep s → storedSubstep (f s)) →
  (∀ s, sub_classList (f s) = sub_classList s) →
  (∀ s, sub_checkbox (f s) = sub_checkbox s) →
  goodTask (set_substeps (alter f j (substeps li)) li).
Proof.
  intros ((Hid & Ht & Hu & Hi & He & Hs) & Hc & Hd & Hm & Hss) F1 F2 F3.
  unfold goodTask, storedTask, checkboxInSync, deadlineInSync, substepsMarked in *.
  cbn [dataset classList checkbox text substeps set_substeps].
  repeat split; try done.
  - apply Forall_alter; [done|]. auto.
  - apply Forall_alter; [done|]. intros s. by rewrite F2.
  - apply Forall_alter; [done|]. intros s. unfold subInSync. by rewrite F2, F3.
Qed.

Lemma substep_element_keeps (f : SubstepLi → SubstepLi) :
  (∀ s, ∃ d t, f s = sub_set_timerInterval t (sub_set_dataset d s)
               ∧ (storedSubstep s → truthy (d !! "elapsedMs") = true)) →
  (∀ s, storedSubstep s → storedSubstep (f s))
  ∧ (∀ s, sub_classList (f s) = sub_classList s)
  ∧ (∀ s, sub_checkbox (f s) = sub_checkbox s).
Proof.
  intros Hf. repeat split; intros s; destruct (Hf s) as (d & t & -> & Hd); auto.
Qed.

Lemma substepEtaInputChange_shape v s :
  ∃ d t, substepEtaInputChange v s = sub_set_timerInterval t (sub_set_dataset d s)
         ∧ (storedSubstep s → truthy (d !! "elapsedMs") = true).
Proof.
  unfold substepEtaInputChange, storedSubstep.
  destruct (trim (numberInputValue v)) as [|n l].
  - exists (delete "etaMin" (sub_dataset s)), (sub_timerInterval s).
    split; [done|]. by rewrite lookup_delete_ne.
  - exists (<["etaMin":=String_ (parseInt (n :: l))]> (sub_dataset s)), (sub_timerInterval s).
    split; [done|]. by rewrite lookup_insert_ne.
Qed.

Lemma substep_startTimer_shape (s : SubstepLi) :
  ∃ d t, startTimer s = sub_set_timerInterval t (sub_set_dataset d s)
         ∧ (storedSubstep s → truthy (d !! "elapsedMs") = true).
Proof.
  unfold startTimer, storedSubstep. cbn. destruct (sub_timerInterval s) as [x|] eqn:Hx.
  - exists (sub_dataset s), (Some x). split; [|done]. destruct s. cbn in *. by subst.
  - exists (<["timerRunning":=js "true"]> (sub_dataset s)),
      (Some (parseInt (or_else (sub_dataset s !! "elapsedMs") (js "0")))).
    split; [done|]. by rewrite lookup_insert_ne.
Qed.

Lemma substep_pauseTimer_shape (s : SubstepLi) :
  ∃ d t, pauseTimer s = sub_set_timerInterval t (sub_set_dataset d s)
         ∧ (storedSubstep s → truthy (d !! "elapsedMs") = true).
Proof.
  unfold pauseTimer, storedSubstep. cbn.
  exists (<["timerRunning":=js "false"]> (sub_dataset s)), None.
  split; [done|]. by rewrite lookup_insert_ne.
Qed.

Lemma substep_tick_shape (s : SubstepLi) :
  ∃ d t, tick s = sub_set_timerInterval t (sub_set_dataset d s)
         ∧ (storedSubstep s → truthy (d !! "elapsedMs") = true).
Proof.
  unfold tick, storedSubstep. cbn. destruct (sub_timerInterval s) as [x|] eqn:Hx.
  - exists (<["elapsedMs":=String_ (add x (Fin 1000))]> (sub_dataset s)),
      (Some (add x (Fin 1000))).
    split; [done|]. intros _. rewrite lookup_insert_eq.
    apply truthy_Some, String_nonempty.
  - exists (sub_dataset s), None. split; [|done]. destruct s. cbn in *. by subst.
Qed.

Lemma substepTimerToggle_shape (s : SubstepLi) :
  ∃ d t, substepTimerToggle s = sub_set_timerInterval t (sub_set_dataset d s)
         ∧ (storedSubstep s → truthy (d !! "elapsedMs") = true).
Proof.
  unfold substepTimerToggle. case_bool_decide.
  - apply substep_pauseTimer_shape.
  - apply substep_startTimer_shape.
Qed.

Lemma createTaskElement_good t p d :
  t ≠ [] →
  let li := createTaskElement t p d in
  text li ≠ []
  ∧ truthy (dataset li !! "isUrgent") = true
  ∧ truthy (dataset li !! "isImportant") = true
  ∧ truthy (dataset li !! "elapsedMs") = true
  ∧ substeps li = []
  ∧ deadlineInSync li.
Proof.
  intros Ht. unfold createTaskElement, applyDeadline, applyPriorityClass, deadlineInSync,
    contains.
  destruct d as [|c d];
    cbn [text substeps dataset classList set_dataset set_classList].
  - rewrite !lookup_delete_ne by done. rewrite lookup_delete_eq.
    rewrite !lookup_insert_ne by done.
    repeat split; try done; try by simplify_map_eq.
    cbn. apply bool_decide_eq_false_2. set_solver.
  - rewrite lookup_insert_eq.
    repeat split; try done; try by simplify_map_eq.
    cbn. apply bool_decide_eq_true_2. set_solver.
Qed.

(** An element that has no sub-steps yet is in order once it has its
    handlers. *)
Lemma goodTask_attach counter li :
  text li ≠ [] →
  truthy (dataset li !! "isUrgent") = true →
  truthy (dataset li !! "isImportant") = true →
  truthy (dataset li !! "elapsedMs") = true →
  substeps li = [] →
  deadlineInSync li →
  goodTask (attachTaskEventHandlers counter li).2.
Proof.
  intros Ht Hu Hi He Hs Hd.
  destruct (attachTaskEventHandlers_fields counter li) as (At & As & Ad & Aold & Anew & Ac & Acb).
  assert (Hcl : contains "has-deadline" (classList (attachTaskEventHandlers counter li).2)
                = contains "has-deadline" (classList li)).
  { unfold attachTaskEventHandlers.
    destruct (truthy (dataset li !! "description"));
      repeat case_match; cbn [snd classList set_dataset];
      rewrite classList_updateSubstepSummary_other by done; done. }
  unfold goodTask, storedTask, checkboxInSync, deadlineInSync, substepsMarked in *.
  rewrite At, As, Hs, Hcl.
  rewrite (Ad "isUrgent"), (Ad "isImportant"), (Ad "elapsedMs"), (Ad "deadline") by done.
  repeat split; try done; try constructor; try (symmetry; exact Acb).
  destruct (truthy (dataset li !! "taskId")) eqn:Hid.
  - destruct (Aold eq_refl) as [_ ->]. done.
  - destruct (Anew eq_refl) as [_ ->]. done.
Qed.

Lemma goodTask_addSubstepsToTask steps c li :
  goodTask li → goodTask (addSubstepsToTask steps c li).2.
Proof. intros H. apply (goodTask_substepEvent (AddMany steps) c li H). Qed.

Lemma pasteTitle_nonempty d : pasteTitle d ≠ [].
Proof.
  unfold pasteTitle.
  by destruct (head (filter (λ l, l ≠ []) (split d))) as [[|c s]|].
Qed.

Lemma createTaskWithSubsteps_new title description steps counter l :
  title ≠ [] →
  ∃ new,
    createTaskWithSubsteps title description steps counter l
    = ((N.succ counter + N.of_nat (length steps))%N, sortByUrgency (l ++ [new]))
    ∧ goodTask new
    ∧ text new = title
    ∧ desc new = textareaValue description
    ∧ sub_text <$> substeps new = steps
    ∧ Forall (λ s, contains "completed" (sub_classList s) = false) (substeps new)
    ∧ completedFlag new = false
    ∧ dataset new !! "taskId" = Some (taskIdOf counter).
Proof.
  intros Ht. unfold createTaskWithSubsteps. destruct title as [|a t]; [done|].
  set (li0 := createTaskElement (a :: t) (js "medium") []).
  set (li1 := match description with [] => li0 | _ => _ end).
  destruct (createTaskElement_good (a :: t) (js "medium") [] Ht) as (G1 & G2 & G3 & G4 & G5 & G6).
  destruct (createTaskElement_fields (a :: t) (js "medium") []) as (F1 & _ & F3 & F4 & _).
  fold li0 in G1, G2, G3, G4, G5, G6, F1, F3, F4.
  assert (H1 : text li1 = a :: t ∧ substeps li1 = [] ∧ dataset li1 !! "taskId" = None
               ∧ truthy (dataset li1 !! "isUrgent") = true
               ∧ truthy (dataset li1 !! "isImportant") = true
               ∧ truthy (dataset li1 !! "elapsedMs") = true
               ∧ deadlineInSync li1
               ∧ desc (attachTaskEventHandlers counter li1).2 = textareaValue description).
  { subst li1. destruct description as [|c d].
    - repeat split; try done.
      all: unfold attachTaskEventHandlers; rewrite F4; cbn [truthy];
        rewrite dataset_updateSubstepSummary;
        by destruct (truthy (dataset li0 !! "taskId")); cbn;
          rewrite desc_updateSubstepSummary.
    - unfold deadlineInSync in *.
      cbn [text substeps dataset classList set_dataset set_desc].
      rewrite !lookup_insert_ne by done.
      repeat split; try done.
      all: unfold attachTaskEventHandlers; cbn [dataset set_dataset set_desc];
        rewrite lookup_insert_eq; cbn [truthy or_else];
        rewrite dataset_updateSubstepSummary; cbn [dataset set_dataset set_desc];
        by destruct (truthy _); cbn [snd desc set_dataset];
          rewrite desc_updateSubstepSummary. }
  destruct H1 as (T1 & S1 & I1 & U1 & M1 & E1 & D1 & Hdesc).
  pose proof (goodTask_attach counter li1 ltac:(by rewrite T1) U1 M1 E1 S1 D1) as Hgood.
  destruct (attachTaskEventHandlers_fields counter li1) as (At & As & Ad & _ & Anew & Ac & _).
  rewrite I1 in Anew. destruct (Anew eq_refl) as [Hc Hid].
  destruct (attachTaskEventHandlers counter li1) as [c1 li2] eqn:Hatt.
  cbn [fst snd] in *. subst c1.
  rewrite completedFlag_no_substeps in Ac by done.
  pose proof (goodTask_addSubstepsToTask steps (N.succ counter) li2 Hgood) as Hgood'.
  unfold addSubstepsToTask in *. destruct steps as [|s steps].
  - exists li2. cbn [length N.of_nat]. rewrite N.add_0_r.
    rewrite As, S1. split_and!; try done. congruence.
  - destruct (appendSubsteps_new (s :: steps) (N.succ counter) (substeps li2))
      as (new & Heq & Htxt & _ & Fm & _ & Fc).
    rewrite Heq in *. cbn [fst snd] in *. rewrite As, S1 in *. cbn [app] in *.
    eexists. split; [reflexivity|].
    rewrite text_updateSubstepSummary, desc_updateSubstepSummary,
      substeps_updateSubstepSummary, dataset_updateSubstepSummary.
    cbn [text desc substeps dataset set_substeps].
    split_and!; try done; try congruence.
    rewrite completedFlag_updateSubstepSummary by done.
    apply bool_decide_eq_false_2. unfold completedSubsteps.
    cbn [substeps set_substeps]. intros [_ Hall].
    assert (Hnone : filter (λ s0, contains "completed" (sub_classList s0) = true) new = []).
    { clear -Fc. induction Fc as [|x new Hx _ IH]; [done|].
      rewrite filter_cons, IH. rewrite Hx. done. }
    rewrite Hnone in Hall. destruct new as [|x new']; [by inversion Htxt|done].
Qed.

Lemma attach_has_deadline counter li :
  contains "has-deadline" (classList (attachTaskEventHandlers counter li).2)
  = contains "has-deadline" (classList li).
Proof.
  unfold attachTaskEventHandlers.
  destruct (truthy (dataset li !! "description"));
    repeat case_match; cbn [snd classList set_dataset];
    rewrite classList_updateSubstepSummary_other by done; done.
Qed.

Lemma restoreTask_deadlineInSync r : deadlineInSync (restoreTask r).
Proof.
  destruct r as [id txt dsc dl eta cpl urg imp el col subs]. unfold deadlineInSync.
  destruct id as [|c0 i0]; destruct txt as [|c6 t6];
    destruct dl as [|c1 d1]; destruct eta as [|c2 e2]; destruct cpl; destruct col;
    destruct urg as [|c3 u3]; destruct imp as [|c4 i4]; destruct el as [|c5 e5];
    by vm_compute.
Qed.

Lemma loadSubstep_subInSync r : subInSync (loadSubstep r).
Proof.
  destruct r as [id txt cpl eta el]. unfold subInSync.
  destruct id as [|c0 i0]; destruct eta as [|c2 e2]; destruct cpl;
    destruct el as [|c5 e5]; by vm_compute.
Qed.

(** A task read from any record is in order. *)
Lemma loadTask_good counter r : goodTask (loadTask counter r).2.
Proof.
  pose proof (loadTask_sound counter r) as (Hst & _ & Hcb & Hm & _).
  split_and!; try done.
  - pose proof (attach_has_deadline counter (restoreTask r)) as Hcl.
    destruct (attachTaskEventHandlers_fields counter (restoreTask r)) as (_ & _ & Ad & _).
    pose proof (restoreTask_deadlineInSync r) as Hd.
    unfold loadTask, deadlineInSync in *.
    destruct (attachTaskEventHandlers counter (restoreTask r)) as [c1 li1].
    cbn [fst snd] in *.
    rewrite (classList_updateSubstepSummary_other "has-deadline") by done.
    rewrite dataset_updateSubstepSummary. cbn [classList dataset set_substeps].
    by rewrite Hcl, (Ad "deadline").
  - destruct (loadTask_any counter r) as (li0 & c' & -> & Hs & _).
    cbn [snd]. rewrite substeps_updateSubstepSummary, Hs.
    apply Forall_fmap, Forall_true. intros s. apply loadSubstep_subInSync.
Qed.

Lemma loadAll_good recs : ∀ counter acc,
  Forall goodTask acc → Forall goodTask (loadAll recs counter acc).2.
Proof.
  induction recs as [|r recs IH]; intros counter acc Hacc; [done|].
  cbn [loadAll]. pose proof (loadTask_good counter r) as Hg.
  destruct (loadTask counter r) as [c1 li]. apply IH.
  apply Forall_app. split; [done|]. by constructor.
Qed.

Section SortKeeps.
Context {A : Type} (cmp : A → A → number) (P : A → Prop).

Lemma Forall_sort l : Forall P l → Forall P (sort cmp l).
Proof. intros H. by rewrite sort_perm. Qed.

End SortKeeps.

Lemma Forall_onTask (P : TaskLi → Prop) i f l :
  (∀ li, P li → P (f li)) → Forall P l → Forall P (onTask i f l).
Proof. intros Hf Hl. unfold onTask. apply Forall_alter; auto. Qed.

Lemma Forall_onTaskThen (P : TaskLi → Prop) i f after l :
  (∀ li, P li → P (f li)) → (∀ l, Forall P l → Forall P (after l)) →
  Forall P l → Forall P (onTaskThen i f after l).
Proof.
  intros Hf Ha Hl. unfold onTaskThen. destruct (l !! i) as [li|] eqn:Hi; [|done].
  apply Ha, Forall_insert; [done|]. apply Hf. by eapply Forall_lookup_1.
Qed.


(** The drag moves one task and keeps all of them. *)
Lemma dragOver_perm after (l : list TaskLi) : dragOver after l ≡ₚ l.
Proof.
  unfold dragOver.
  destruct (list_find _ l) as [[i x]|] eqn:Hf; [|done].
  apply list_find_Some in Hf as (Hi & _).
  pose proof (delete_Permutation l i x Hi) as Hp.
  destruct (after ≫= _) as [p|].
  - rewrite <- Permutation_middle, take_drop. by symmetry.
  - rewrite <- Permutation_cons_append. by symmetry.
Qed.

Lemma goodTasks_taskCheckboxClick i l :
  Forall goodTask l → Forall goodTask (taskCheckboxClick i l).
Proof.
  intros Hl. unfold taskCheckboxClick. destruct (l !! i) as [li|] eqn:Hi; [|done].
  pose proof (Forall_lookup_1 _ _ _ _ Hl Hi) as Hli.
  apply goodTask_checkbox_toggle in Hli.
  set (li' := set_classList _ _) in *.
  assert (Hl' : Forall goodTask (<[i:=li']> l)) by by apply Forall_insert.
  cbv zeta. destruct (negb (checkbox li)); [|done].
  unfold moveCompletedTaskToBottom.
  destruct (<[i:=li']> l !! i) as [x|] eqn:Hx; [|done].
  apply Forall_app. split; [by apply Forall_delete|].
  constructor; [|done]. by eapply Forall_lookup_1.
Qed.

Lemma step_good ev counter l :
  Forall goodTask l → Forall goodTask (step ev (counter, l)).2.
Proof.
  intros Hl.
  destruct ev as [value|pasted|i|i checked|i checked|i|i save value|i value|i value|i value|i|i|after|i|i|i|i|i|i e|i j value|i j|i j| | |taskId quadrant| ];
    cbn [step snd].
  - unfold addTask. destruct (trim value) as [|a t] eqn:Hv; [done|].
    destruct (createTaskElement_good (a :: t) (js "medium") [] ltac:(done))
      as (G1 & G2 & G3 & G4 & G5 & G6).
    pose proof (goodTask_attach counter _ G1 G2 G3 G4 G5 G6) as Hg.
    destruct (attachTaskEventHandlers counter _) as [c1 li]. cbn [snd] in *.
    rewrite sortTasks_sort. apply Forall_sort, Forall_app. split; [done|by constructor].
  - case_bool_decide; [|done]. unfold applyPaste.
    destruct (createTaskWithSubsteps_new (pasteTitle (description (smartParsePaste pasted)))
                (description (smartParsePaste pasted)) (subSteps (smartParsePaste pasted))
                counter l (pasteTitle_nonempty _)) as (new & -> & Hg & _).
    cbn [snd]. apply Forall_sort, Forall_app. split; [done|by constructor].
  - apply Forall_onTask; [apply goodTask_collapseClick|done].
  - apply Forall_onTaskThen; [apply goodTask_urgentToggleChange| |done].
    intros l0 H0. rewrite sortTasks_sort. by apply Forall_sort.
  - apply Forall_onTaskThen; [apply goodTask_importantToggleChange| |done].
    intros l0 H0. rewrite sortTasks_sort. by apply Forall_sort.
  - by apply goodTasks_taskCheckboxClick.
  - apply Forall_onTask; [apply goodTask_finishInlineEdit|done].
  - apply Forall_onTaskThen; [apply goodTask_applyDeadline| |done].
    intros l0 H0. by apply Forall_sort.
  - apply Forall_onTask; [apply goodTask_etaInputChange|done].
  - apply Forall_onTask; [apply goodTask_descInput|done].
  - by apply Forall_delete.
  - apply Forall_onTask; [apply goodTask_dragStart|done].
  - by rewrite dragOver_perm.
  - apply Forall_onTask; [apply goodTask_dragEnd|done].
  - apply Forall_onTask; [apply goodTask_startTimer|done].
  - apply Forall_onTask; [apply goodTask_pauseTimer|done].
  - apply Forall_onTask; [apply goodTask_resetTimer|done].
  - apply Forall_onTask; [apply goodTask_tick|done].
  - destruct (l !! i) as [li|] eqn:Hi; [|done].
    pose proof (Forall_lookup_1 _ _ _ _ Hl Hi) as Hli.
    destruct (goodTask_substepEvent e counter li Hli) as [Hg _].
    destruct (substepEvent e counter li) as [c1 li1]. cbn [snd] in *.
    by apply Forall_insert.
  - unfold onSubstep. apply Forall_alter; [done|]. intros li _ Hli.
    destruct (substep_element_keeps _ (substepEtaInputChange_shape value)) as (F1 & F2 & F3).
    by apply goodTask_alter_substep.
  - unfold onSubstep. apply Forall_alter; [done|]. intros li _ Hli.
    destruct (substep_element_keeps _ substepTimerToggle_shape) as (F1 & F2 & F3).
    by apply goodTask_alter_substep.
  - unfold onSubstep. apply Forall_alter; [done|]. intros li _ Hli.
    destruct (substep_element_keeps _ substep_tick_shape) as (F1 & F2 & F3).
    by apply goodTask_alter_substep.
  - by apply Forall_sort.
  - by apply Forall_sort.
  - destruct taskId as [|a t]; [done|].
    destruct (findTask (a :: t) l) as [i|]; [|done]. cbn [snd].
    apply Forall_onTask; [apply goodTask_matrixDrop|done].
  - unfold loadTasks. by apply loadAll_good.
Qed.

(** X14. After any sequence of events of the page, every task of the
    list has an id, a name that is not empty and its urgent, important and
    elapsed attributes; its checkbox agrees with its class [completed]; it
    carries [has-deadline] exactly when it has a deadline; and each of its
    sub-steps has the class [substep], an elapsed time and a checkbox that
    agrees with its class [completed]. *)
Theorem handlers_keep_tasks_in_order (evs : list Event) :
  Forall goodTask (run evs).2.
Proof.
  unfold run.
  assert (H : ∀ st, Forall goodTask st.2 →
                    Forall goodTask (foldl (λ st ev, step ev st) st evs).2).
  { induction evs as [|ev evs IH]; intros st Hst; [done|].
    cbn [foldl]. apply IH. destruct st as [c l]. by apply step_good. }
  by apply H.
Qed.

(** ** Task ids *)

Lemma taskId_set_classList cl li :
  dataset (set_classList cl li) !! "taskId" = dataset li !! "taskId".
Proof. done. Qed.

Ltac keeps_id :=
  repeat first
    [ progress cbn [dataset set_dataset set_classList set_checkbox set_desc set_text
                    set_substeps set_timerInterval el_dataset el_set_dataset
                    el_set_timerInterval el_timerInterval]
    | rewrite lookup_insert_ne by done
    | rewrite lookup_delete_ne by done
    | rewrite dataset_updateSubstepSummary ];
  try done.

Lemma taskId_collapseClick li :
  dataset (collapseClick li) !! "taskId" = dataset li !! "taskId".
Proof. done. Qed.

Lemma taskId_dragStart li : dataset (dragStart li) !! "taskId" = dataset li !! "taskId".
Proof. done. Qed.

Lemma taskId_dragEnd li : dataset (dragEnd li) !! "taskId" = dataset li !! "taskId".
Proof. done. Qed.

Lemma taskId_urgentToggleChange b li :
  dataset (urgentToggleChange b li) !! "taskId" = dataset li !! "taskId".
Proof. unfold urgentToggleChange. keeps_id. Qed.

Lemma taskId_importantToggleChange b li :
  dataset (importantToggleChange b li) !! "taskId" = dataset li !! "taskId".
Proof. unfold importantToggleChange. keeps_id. Qed.

Lemma taskId_matrixDrop q li :
  dataset (matrixDrop q li) !! "taskId" = dataset li !! "taskId".
Proof. unfold matrixDrop. repeat case_bool_decide; keeps_id. Qed.

Lemma taskId_etaInputChange v li :
  dataset (etaInputChange v li) !! "taskId" = dataset li !! "taskId".
Proof. unfold etaInputChange. destruct (trim (numberInputValue v)); keeps_id. Qed.

Lemma taskId_descInput v li :
  dataset (descInput v li) !! "taskId" = dataset li !! "taskId".
Proof. unfold descInput. keeps_id. Qed.

Lemma taskId_startTimer (li : TaskLi) :
  dataset (startTimer li) !! "taskId" = dataset li !! "taskId".
Proof. unfold startTimer. cbn. destruct (timerInterval li); keeps_id. Qed.

Lemma taskId_pauseTimer (li : TaskLi) :
  dataset (pauseTimer li) !! "taskId" = dataset li !! "taskId".
Proof. unfold pauseTimer. cbn. keeps_id. Qed.

Lemma taskId_resetTimer (li : TaskLi) :
  dataset (resetTimer li) !! "taskId" = dataset li !! "taskId".
Proof. unfold resetTimer, pauseTimer. cbn. keeps_id. Qed.

Lemma taskId_tick (li : TaskLi) :
  dataset (tick li) !! "taskId" = dataset li !! "taskId".
Proof. unfold tick. cbn. destruct (timerInterval li); keeps_id. Qed.

Lemma taskId_applyDeadline v li :
  dataset (applyDeadline v li) !! "taskId" = dataset li !! "taskId".
Proof. unfold applyDeadline. destruct v; keeps_id. Qed.

Lemma taskId_finishInlineEdit save v li :
  dataset (finishInlineEdit save v li) !! "taskId" = dataset li !! "taskId".
Proof. unfold finishInlineEdit. destruct save, (trim v); keeps_id. Qed.

Lemma taskId_substepEvent e c li :
  dataset (substepEvent e c li).2 !! "taskId" = dataset li !! "taskId".
Proof.
  destruct e as [v|steps|i|i]; cbn [substepEvent].
  - unfold addSubFromInput. destruct (trim v); cbn [snd]; keeps_id.
  - unfold addSubstepsToTask. destruct steps; [done|].
    destruct (appendSubsteps _ _ _). cbn [snd]. keeps_id.
  - unfold substepCheckboxClick. destruct (substeps li !! i); cbn [snd]; keeps_id.
  - unfold substepDeleteClick. destruct (substeps li !! i); cbn [snd]; keeps_id.
Qed.

(** *** The ids of a list *)

Lemma taskIds_alter f i l :
  (∀ li, dataset (f li) !! "taskId" = dataset li !! "taskId") →
  taskIds (alter f i l) = taskIds l.
Proof.
  intros Hf. unfold taskIds. revert i.
  induction l as [|x l IH]; intros [|i]; cbn; try done.
  - by rewrite Hf.
  - by rewrite IH.
Qed.

Lemma taskIds_insert i li l x :
  l !! i = Some x → dataset li !! "taskId" = dataset x !! "taskId" →
  taskIds (<[i:=li]> l) = taskIds l.
Proof.
  intros Hi Hid. unfold taskIds. rewrite list_fmap_insert, Hid.
  apply list_insert_id. by rewrite list_lookup_fmap, Hi.
Qed.

Lemma taskIds_sort cmp l : taskIds (sort cmp l) ≡ₚ taskIds l.
Proof. unfold taskIds. by rewrite sort_perm. Qed.


Lemma idsFresh_perm c c' l l' :
  (c ≤ c')%N → taskIds l' ≡ₚ taskIds l → idsFresh c l → idsFresh c' l'.
Proof.
  intros Hc Hp [Hb Hn]. split.
  - rewrite Hp. eapply Forall_impl; [exact Hb|].
    intros o (k & Hk & ->). exists k. split; [lia|done].
  - by rewrite Hp.
Qed.

Lemma idsFresh_delete c i l : idsFresh c l → idsFresh c (delete i l).
Proof.
  intros [Hb Hn]. unfold idsFresh, taskIds in *.
  assert (Hs : (λ li, dataset li !! "taskId") <$> delete i l
               = delete i ((λ li, dataset li !! "taskId") <$> l)).
  { clear. revert i. induction l as [|x l IH]; intros [|i]; cbn; try done.
    by rewrite IH. }
  rewrite Hs. split; [by apply Forall_delete|].
  eapply sublist_NoDup; [exact Hn|apply sublist_delete].
Qed.

Lemma taskIdOf_inj a b : taskIdOf a = taskIdOf b → a = b.
Proof.
  unfold taskIdOf. intros H%app_inv_head.
  assert (Hs : ∀ n, String_ (Fin (Z.of_N n)) = stringOfN n).
  { intros n. unfold String_. rewrite (proj2 (Z.ltb_ge _ _)) by lia. by rewrite N2Z.id. }
  rewrite !Hs in H. pose proof (parseInt_stringOfN a) as Ha.
  rewrite H, parseInt_stringOfN in Ha. injection Ha. lia.
Qed.

Lemma idsFresh_snoc c c' l new :
  (c < c')%N → dataset new !! "taskId" = Some (taskIdOf c) →
  idsFresh c l → idsFresh c' (l ++ [new]).
Proof.
  intros Hc Hid [Hb Hn]. unfold idsFresh, taskIds in *. rewrite fmap_app. cbn [fmap list_fmap].
  rewrite Hid. split.
  - apply Forall_app. split.
    + eapply Forall_impl; [exact Hb|]. intros o (k & Hk & ->). exists k. split; [lia|done].
    + constructor; [|done]. exists c. done.
  - apply NoDup_app. split; [done|]. split; [|apply NoDup_singleton].
    intros o Ho ->%list_elem_of_singleton.
    rewrite Forall_forall in Hb. destruct (Hb _ Ho) as (k & Hk & Heq).
    assert (Hck : taskIdOf c = taskIdOf k) by congruence.
    apply taskIdOf_inj in Hck. lia.
Qed.

Lemma substepEvent_counter e c li : (c ≤ (substepEvent e c li).1)%N.
Proof.
  destruct e as [v|steps|i|i]; cbn [substepEvent fst]; try lia.
  - unfold addSubFromInput. destruct (trim v); cbn [fst]; lia.
  - unfold addSubstepsToTask. destruct steps as [|t steps]; [cbn; lia|].
    destruct (appendSubsteps_new (t :: steps) c (substeps li)) as (new & -> & _).
    cbn [fst]. lia.
Qed.

Lemma moveCompletedTaskToBottom_perm i l : moveCompletedTaskToBottom i l ≡ₚ l.
Proof.
  unfold moveCompletedTaskToBottom. destruct (l !! i) as [x|] eqn:Hi; [|done].
  rewrite <- Permutation_cons_append. symmetry. by apply delete_Permutation.
Qed.

Lemma taskIds_perm l l' : l ≡ₚ l' → taskIds l ≡ₚ taskIds l'.
Proof. intros H. unfold taskIds. by rewrite H. Qed.

Lemma taskIds_taskCheckboxClick i l : taskIds (taskCheckboxClick i l) ≡ₚ taskIds l.
Proof.
  unfold taskCheckboxClick. destruct (l !! i) as [li|] eqn:Hi; [|done].
  cbv zeta. set (li' := set_classList _ _).
  assert (Hins : taskIds (<[i:=li']> l) = taskIds l) by by eapply taskIds_insert.
  destruct (negb (checkbox li)); [|by rewrite Hins].
  by rewrite (taskIds_perm _ _ (moveCompletedTaskToBottom_perm _ _)), Hins.
Qed.

Lemma taskIds_onTaskThen i f after l :
  (∀ li, dataset (f li) !! "taskId" = dataset li !! "taskId") →
  (∀ l, after l ≡ₚ l) →
  taskIds (onTaskThen i f after l) ≡ₚ taskIds l.
Proof.
  intros Hf Ha. unfold onTaskThen. destruct (l !! i) as [li|] eqn:Hi; [|done].
  rewrite (taskIds_perm _ _ (Ha _)). by erewrite taskIds_insert.
Qed.

Lemma sortTasks_perm l : sortTasks l ≡ₚ l.
Proof. rewrite sortTasks_sort. apply sort_perm. Qed.

Lemma step_ids ev c l :
  staysOnPage ev = true → idsFresh c l →
  idsFresh (step ev (c, l)).1 (step ev (c, l)).2.
Proof.
  intros Hev Hl.
  assert (Hsame : ∀ l', taskIds l' ≡ₚ taskIds l → idsFresh c l').
  { intros l' Hp. by apply (idsFresh_perm c c l l'); [lia| |]. }
  destruct ev as [value|pasted|i|i checked|i checked|i|i save value|i value|i value|i value|i|i|after|i|i|i|i|i|i e|i j value|i j|i j| | |taskId quadrant| ];
    cbn [step fst snd]; try discriminate Hev.
  - unfold addTask. destruct (trim value) as [|a t] eqn:Hv; [done|].
    destruct (addTask_new_task value c) as (Hc & _ & _ & Hid & _); [by rewrite Hv|].
    rewrite Hv in Hc, Hid.
    destruct (attachTaskEventHandlers c _) as [c1 li]. cbn [fst snd] in *. subst c1.
    apply (idsFresh_perm (N.succ c) _ (l ++ [li])); [lia|apply taskIds_perm, sortTasks_perm|].
    apply (idsFresh_snoc c); [lia|done|done].
  - case_bool_decide; [|done]. unfold applyPaste.
    destruct (createTaskWithSubsteps_new (pasteTitle (description (smartParsePaste pasted)))
                (description (smartParsePaste pasted)) (subSteps (smartParsePaste pasted))
                c l (pasteTitle_nonempty _)) as (new & -> & _ & _ & _ & _ & _ & _ & Hid).
    cbn [fst snd].
    eapply (idsFresh_perm _ _ (l ++ [new])); [reflexivity|apply taskIds_perm, sort_perm|].
    apply (idsFresh_snoc c); [lia|done|done].
  - apply Hsame. unfold onTask. by rewrite taskIds_alter.
  - apply Hsame, taskIds_onTaskThen; [apply taskId_urgentToggleChange|apply sortTasks_perm].
  - apply Hsame, taskIds_onTaskThen; [apply taskId_importantToggleChange|apply sortTasks_perm].
  - apply Hsame, taskIds_taskCheckboxClick.
  - apply Hsame. unfold onTask. rewrite taskIds_alter; [done|].
    apply taskId_finishInlineEdit.
  - apply Hsame, taskIds_onTaskThen; [apply taskId_applyDeadline|apply sort_perm].
  - apply Hsame. unfold onTask. rewrite taskIds_alter; [done|]. apply taskId_etaInputChange.
  - apply Hsame. unfold onTask. rewrite taskIds_alter; [done|]. apply taskId_descInput.
  - by apply idsFresh_delete.
  - apply Hsame. unfold onTask. by rewrite taskIds_alter.
  - apply Hsame, taskIds_perm, dragOver_perm.
  - apply Hsame. unfold onTask. by rewrite taskIds_alter.
  - apply Hsame. unfold onTask. rewrite taskIds_alter; [done|]. apply taskId_startTimer.
  - apply Hsame. unfold onTask. rewrite taskIds_alter; [done|]. apply taskId_pauseTimer.
  - apply Hsame. unfold onTask. rewrite taskIds_alter; [done|]. apply taskId_resetTimer.
  - apply Hsame. unfold onTask. rewrite taskIds_alter; [done|]. apply taskId_tick.
  - destruct (l !! i) as [li|] eqn:Hi; [|done].
    pose proof (substepEvent_counter e c li) as Hc.
    pose proof (taskId_substepEvent e c li) as Hid.
    destruct (substepEvent e c li) as [c1 li1]. cbn [fst snd] in *.
    apply (idsFresh_perm c c1 l); [done| |done]. by erewrite taskIds_insert.
  - apply Hsame. unfold onSubstep. by rewrite taskIds_alter.
  - apply Hsame. unfold onSubstep. by rewrite taskIds_alter.
  - apply Hsame. unfold onSubstep. by rewrite taskIds_alter.
  - apply Hsame, taskIds_perm, sort_perm.
  - apply Hsame, taskIds_perm, sort_perm.
  - destruct taskId as [|a t]; [done|].
    destruct (findTask (a :: t) l) as [i|]; [|done]. cbn [fst snd].
    apply Hsame. unfold onTask. rewrite taskIds_alter; [done|]. apply taskId_matrixDrop.
Qed.

(** X15. As long as the page is not reloaded, no two tasks of the list
    share an id, and every id was drawn from the counter below its current
    value. *)
Theorem task_ids_stay_distinct (evs : list Event) :
  forallb staysOnPage evs = true →
  idsFresh (run evs).1 (run evs).2.
Proof.
  unfold run.
  assert (H : ∀ st, idsFresh st.1 st.2 → forallb staysOnPage evs = true →
                    idsFresh (foldl (λ st ev, step ev st) st evs).1
                             (foldl (λ st ev, step ev st) st evs).2).
  { induction evs as [|ev evs IH]; intros st Hst Hevs; [done|].
    cbn [foldl forallb] in *. apply andb_prop in Hevs as [Hev Hevs].
    apply IH; [|done]. destruct st as [c l]. by apply step_ids. }
  apply H. split; constructor.
Qed.

Lemma task_ids_stay_distinct_witness :
  idsFresh (run [AddTaskEv (js "read"); PasteEv (js "plan
- one
- two"); AddTaskEv (js "write"); DeleteEv 0]).1
    (run [AddTaskEv (js "read"); PasteEv (js "plan
- one
- two"); AddTaskEv (js "write"); DeleteEv 0]).2.
Proof.
  apply task_ids_stay_distinct. reflexivity.
Defined.

Lemma attr_truthy d d' k :
  truthy (d !! k) = true → truthy (d' !! k) = true → attr d' k = attr d k →
  d' !! k = d !! k.
Proof.
  unfold attr. destruct (d !! k) as [[|a s]|], (d' !! k) as [[|a' s']|]; try done.
  cbn. congruence.
Qed.

(** X16. For a list whose tasks have an id, a name and their stored
    attributes, a reload keeps the ids of the tasks and starts the id counter
    again at 0: the next task added gets the id [task-0], whatever ids the
    loaded tasks have. *)
Theorem reload_restarts_the_ids (counter : N) (l : list TaskLi) (value : jsstring) :
  Forall storedTask l → trim value ≠ [] →
  let st := step ReloadEv (counter, l) in
  st.1 = 0%N
  ∧ taskIds st.2 = taskIds l
  ∧ ∃ new, new ∈ (step (AddTaskEv value) st).2
           ∧ text new = trim value
           ∧ dataset new !! "taskId" = Some (taskIdOf 0).
Proof.
  intros Hl Hv. cbn [step loadTasks].
  destruct (loadAll_sound (saveTasks l) 0 []) as (l0 & Heq0 & _ & Hst & _).
  destruct (loadAll_restores l 0 [] Hl) as (l' & Heq & Hr).
  rewrite Heq in *. cbn [fst snd app] in *. subst l0.
  split; [done|]. split.
  - unfold taskIds. clear Heq. induction Hr as [|li li' l l' H1 H2 IH]; [done|].
    apply Forall_cons in Hl as [Hli Hl]. apply Forall_cons in Hst as [(Hli' & _) Hst].
    cbn [fmap list_fmap]. f_equal; [|by apply IH].
    destruct H1 as (Hk & _). apply attr_truthy; [apply Hli|apply Hli'|].
    apply Hk. set_solver.
  - cbn [step]. unfold addTask.
    destruct (addTask_new_task value 0 Hv) as (_ & Ht & _ & Hid & _).
    destruct (trim value) as [|a t] eqn:Htrim; [done|].
    destruct (attachTaskEventHandlers 0 _) as [c2 new]. cbn [fst snd] in *.
    exists new. split; [|done].
    rewrite sortTasks_sort, sort_perm. set_solver.
Qed.

Lemma reload_restarts_the_ids_witness :
  taskIds (step ReloadEv (3%N, sampleStore)).2 = taskIds sampleStore
  ∧ ∃ new, new ∈ (step (AddTaskEv (js "Post the letter")) (step ReloadEv (3%N, sampleStore))).2
           ∧ dataset new !! "taskId" = Some (taskIdOf 0).
Proof.
  destruct (reload_restarts_the_ids 3 sampleStore (js "Post the letter"))
    as (_ & Hids & new & Hin & _ & Hid).
  - exact sampleStore_stored.
  - by vm_compute.
  - split; [exact Hids|]. exists new. by split.
Defined.

(** ** Paste *)

(** X17. The paste handler ignores a text without a line break and asks
    first when there are three line breaks or more.  Otherwise it creates one
    task: its name is the first line of the description that is not empty (or
    [New Task]), its description is the parsed description as the text area
    gives it back (a lone CR reads as a line feed), its sub-steps are the
    parsed list items in order, none completed, and the task is not
    completed; the counter goes up by one for the task and one for each
    sub-step. *)
Theorem paste_creates_one_task (pasted : jsstring) (counter : N) (l : list TaskLi) :
  let parsed := smartParsePaste pasted in
  (10%N ∉ pasted → pasteHandler pasted counter l = NotHandled)
  ∧ (10%N ∈ pasted → (3 ≤ lineBreaks pasted)%nat → pasteHandler pasted counter l = AskFirst pasted)
  ∧ (10%N ∈ pasted → (lineBreaks pasted < 3)%nat →
     ∃ new,
       pasteHandler pasted counter l
       = Created (N.succ counter + N.of_nat (length (subSteps parsed)))
                 (sortByUrgency (l ++ [new]))
       ∧ text new = pasteTitle (description parsed)
       ∧ desc new = textareaValue (description parsed)
       ∧ sub_text <$> substeps new = subSteps parsed
       ∧ Forall (λ s, contains "completed" (sub_classList s) = false) (substeps new)
       ∧ completedFlag new = false
       ∧ dataset new !! "taskId" = Some (taskIdOf counter)).
Proof.
  intros parsed. unfold pasteHandler. split; [|split].
  - intros Hn. rewrite (bool_decide_eq_false_2 (10%N ∈ pasted)) by done.
    by rewrite andb_false_r.
  - intros Hin Hlb. rewrite (bool_decide_eq_true_2 (10%N ∈ pasted)) by done.
    rewrite bool_decide_eq_true_2 by (intros ->; set_solver).
    cbn [andb]. by rewrite (proj2 (Nat.leb_le _ _)).
  - intros Hin Hlb. rewrite (bool_decide_eq_true_2 (10%N ∈ pasted)) by done.
    rewrite bool_decide_eq_true_2 by (intros ->; set_solver).
    cbn [andb]. rewrite (proj2 (Nat.leb_gt _ _)) by done.
    unfold applyPaste. fold parsed.
    destruct (createTaskWithSubsteps_new (pasteTitle (description parsed))
                (description parsed) (subSteps parsed) counter l (pasteTitle_nonempty _))
      as (new & -> & _ & Hrest).
    by exists new.
Qed.

Lemma paste_creates_one_task_witness :
  ∃ new,
    pasteHandler [97; 13; 98; 10; 45; 32; 120]%N 5 [plainTask]
    = Created 7 (sortByUrgency ([plainTask] ++ [new]))
    ∧ text new = [97; 13; 98]%N
    ∧ desc new = [97; 10; 98]%N
    ∧ sub_text <$> substeps new = [[45; 32; 120]%N].
Proof.
  destruct (paste_creates_one_task [97; 13; 98; 10; 45; 32; 120]%N 5 [plainTask])
    as (_ & _ & Hc).
  destruct Hc as (new & Heq & Ht & Hd & Hs & _).
  - apply (bool_decide_unpack _). by vm_compute.
  - vm_compute. lia.
  - exists new. split; [|split; [|split]].
    + rewrite Heq. f_equal.
    + rewrite Ht. by vm_compute.
    + rewrite Hd. by vm_compute.
    + rewrite Hs. by vm_compute.
Defined.

(** ** The matrix *)

Lemma placeTasks_cells l : ∀ m,
  let cell q := createMatrixTaskItem <$> filter (λ li, targetCell li = q) l in
  matrix_do_first (placeTasks l m) = matrix_do_first m ++ cell DoFirst
  ∧ matrix_schedule (placeTasks l m) = matrix_schedule m ++ cell Schedule
  ∧ matrix_delegate (placeTasks l m) = matrix_delegate m ++ cell Delegate
  ∧ matrix_eliminate (placeTasks l m) = matrix_eliminate m ++ cell Eliminate.
Proof.
  induction l as [|x l IH]; intros m.
  - cbn. by rewrite !app_nil_r.
  - cbn [placeTasks]. cbv zeta.
    destruct (targetCell x) eqn:Hq;
      match goal with
      | |- context [placeTasks l ?m'] => destruct (IH m') as (H1 & H2 & H3 & H4)
      end;
      rewrite H1, H2, H3, H4;
      cbn [matrix_do_first matrix_schedule matrix_delegate matrix_eliminate];
      rewrite !filter_cons, Hq;
      repeat (case_decide; [try done|try done]);
      cbn [fmap list_fmap]; by rewrite <- ?app_assoc.
Qed.

(** X18. Each cell of the matrix lists, in the order of the task list,
    the names of the tasks that belong to it; every task of the list is in
    exactly one cell. *)
Theorem renderMatrixView_cells (l : list TaskLi) :
  let m := renderMatrixView l in
  let cell q := createMatrixTaskItem <$> filter (λ li, targetCell li = q) l in
  matrix_do_first m = cell DoFirst
  ∧ matrix_schedule m = cell Schedule
  ∧ matrix_delegate m = cell Delegate
  ∧ matrix_eliminate m = cell Eliminate
  ∧ (length (matrix_do_first m) + length (matrix_schedule m)
     + length (matrix_delegate m) + length (matrix_eliminate m) = length l)%nat.
Proof.
  intros m cell. subst m. unfold renderMatrixView.
  destruct (placeTasks_cells l {| matrix_do_first := []; matrix_schedule := [];
                                  matrix_delegate := []; matrix_eliminate := [] |})
    as (H1 & H2 & H3 & H4).
  cbn [matrix_do_first matrix_schedule matrix_delegate matrix_eliminate app] in *.
  rewrite H1, H2, H3, H4. repeat split; try done.
  subst cell. cbv beta. rewrite !length_fmap.
  clear. induction l as [|x l IH]; [done|].
  rewrite !filter_cons. destruct (targetCell x);
    repeat (case_decide; [try done|try done]); cbn [length]; lia.
Qed.

(** ** Counters and the completion checkbox *)

Lemma insert_perm {A} (l : list A) i x y :
  l !! i = Some x → <[i:=y]> l ≡ₚ y :: delete i l.
Proof.
  intros Hi. rewrite insert_take_drop by (by eapply lookup_lt_Some).
  rewrite delete_take_drop. by rewrite <- Permutation_middle.
Qed.

(** X19. A click on the completion checkbox of a task whose checkbox
    agrees with its class moves one task from one counter to the other:
    checking adds one to the completed counter and takes one from the
    uncompleted counter, unchecking does the reverse. *)
Theorem checkbox_click_counts (i : nat) (l : list TaskLi) (li : TaskLi) :
  l !! i = Some li → checkboxInSync li →
  let before := updateCounters l in
  let after := updateCounters (taskCheckboxClick i l) in
  let change := if checkbox li then -1 else 1 in
  completedTasks after = completedTasks before + change
  ∧ uncompletedTasks after = uncompletedTasks before - change.
Proof.
  intros Hi Hsync.
  set (P := λ li : TaskLi, contains "completed" (classList li) = true).
  set (li' := set_classList (toggle "completed" (negb (checkbox li)) (classList li))
                (set_checkbox (negb (checkbox li)) li)).
  assert (Hclick : taskCheckboxClick i l ≡ₚ li' :: delete i l).
  { unfold taskCheckboxClick. rewrite Hi. cbv zeta. fold li'.
    destruct (negb (checkbox li)).
    - rewrite moveCompletedTaskToBottom_perm. by eapply insert_perm.
    - by eapply insert_perm. }
  pose proof (delete_Permutation l i li Hi) as Hl.
  assert (Hlen : length (taskCheckboxClick i l) = length l).
  { rewrite (Permutation_length Hclick), (Permutation_length Hl). done. }
  assert (Hf : length (filter P (taskCheckboxClick i l))
               = length (filter P (li' :: delete i l))).
  { apply Permutation_length. by apply filter_Permutation. }
  assert (Hf0 : length (filter P l) = length (filter P (li :: delete i l))).
  { apply Permutation_length. by apply filter_Permutation. }
  assert (HP : P li ↔ checkbox li = true) by (unfold P; by rewrite Hsync).
  assert (HP' : P li' ↔ checkbox li = false).
  { unfold P, li', contains, toggle. cbn [classList set_classList set_checkbox].
    destruct (checkbox li); cbn [negb]; rewrite bool_decide_eq_true; set_solver. }
  assert (Hli : length (filter P (li :: delete i l))
                = ((if checkbox li then 1 else 0) + length (filter P (delete i l)))%nat).
  { rewrite filter_cons. destruct (checkbox li).
    - by rewrite decide_True by (by apply HP).
    - by rewrite decide_False by (rewrite HP; congruence). }
  assert (Hli' : length (filter P (li' :: delete i l))
                 = ((if checkbox li then 0 else 1) + length (filter P (delete i l)))%nat).
  { rewrite filter_cons. destruct (checkbox li).
    - by rewrite decide_False by (rewrite HP'; congruence).
    - by rewrite decide_True by (by apply HP'). }
  pose proof (completed_count_le l) as Hle.
  pose proof (completed_count_le (taskCheckboxClick i l)) as Hle'.
  fold P in Hle, Hle'. rewrite Hlen, Hf, Hli' in Hle'. rewrite Hf0, Hli in Hle.
  unfold updateCounters. cbn [completedTasks uncompletedTasks]. fold P.
  rewrite Hlen, Hf, Hf0, Hli, Hli'.
  destruct (checkbox li); lia.
Qed.

Lemma checkbox_click_counts_witness :
  completedTasks (updateCounters (taskCheckboxClick 0 sampleStore))
  = completedTasks (updateCounters sampleStore) + 1.
Proof.
  destruct (checkbox_click_counts 0 sampleStore plainTask) as [H _].
  - by vm_compute.
  - by vm_compute.
  - rewrite H. by vm_compute.
Defined.

(** ** Dragging *)

Lemma candidatePosition_spec l : ∀ j p,
  candidatePosition j l = Some p →
  l !! p = filter (λ li, contains "dragging" (classList li) = false) l !! j
  ∧ filter (λ li, contains "dragging" (classList li) = false) (take p l)
    = take j (filter (λ li, contains "dragging" (classList li) = false) l)
  ∧ (p < length l)%nat.
Proof.
  induction l as [|x l IH]; intros j p Hp; [done|].
  cbn [candidatePosition] in Hp. rewrite filter_cons.
  destruct (contains "dragging" (classList x)) eqn:Hx.
  - rewrite decide_False by done.
    destruct (candidatePosition j l) as [q|] eqn:Hq; [|done].
    injection Hp as <-. destruct (IH j q Hq) as (H1 & H2 & H3).
    cbn [take]. rewrite filter_cons, Hx, decide_False by done.
    repeat split; try done. cbn. lia.
  - rewrite decide_True by done. destruct j as [|j].
    + injection Hp as <-. repeat split; try done. cbn. lia.
    + destruct (candidatePosition j l) as [q|] eqn:Hq; [|done].
      injection Hp as <-. destruct (IH j q Hq) as (H1 & H2 & H3).
      cbn [take]. rewrite filter_cons, Hx, decide_True by done.
      repeat split; try done; [by rewrite H2|cbn; lia].
Qed.

Lemma filter_delete_dragging (l : list TaskLi) i x :
  l !! i = Some x → contains "dragging" (classList x) = true →
  filter (λ li, contains "dragging" (classList li) = false) (delete i l)
  = filter (λ li, contains "dragging" (classList li) = false) l.
Proof.
  intros Hi Hx. rewrite delete_take_drop.
  rewrite <- (take_drop_middle l i x Hi) at 3.
  rewrite !filter_app, filter_cons, Hx. by rewrite decide_False.
Qed.

(** X20. A [dragover] only moves the dragged task: the list keeps the
    same tasks, and the tasks that are not being dragged keep their order.
    When a candidate is found the dragged task is put right before it. *)
Theorem dragOver_moves_one_task (after : option nat) (l : list TaskLi) :
  let waiting := filter (λ li, contains "dragging" (classList li) = false) in
  dragOver after l ≡ₚ l
  ∧ waiting (dragOver after l) = waiting l
  ∧ ∀ i x j target,
      list_find (λ li, contains "dragging" (classList li) = true) l = Some (i, x) →
      after = Some j → waiting l !! j = Some target →
      ∃ p, dragOver after l !! p = Some x
           ∧ dragOver after l !! S p = Some target
           ∧ waiting (take p (dragOver after l)) = take j (waiting l).
Proof.
  intros waiting. unfold waiting. clear waiting.
  split; [apply dragOver_perm|]. split.
  - unfold dragOver.
    destruct (list_find _ l) as [[i x]|] eqn:Hf; [|done].
    apply list_find_Some in Hf as (Hi & Hx & _).
    rewrite <- (filter_delete_dragging l i x Hi Hx).
    destruct (after ≫= _) as [p|].
    + rewrite filter_app, filter_cons, Hx, decide_False by done.
      by rewrite <- filter_app, take_drop.
    + rewrite filter_app, filter_cons, Hx, decide_False by done.
      cbn. by rewrite app_nil_r.
  - intros i x j target Hf -> Hj. unfold dragOver. rewrite Hf.
    apply list_find_Some in Hf as (Hi & Hx & _).
    pose proof (filter_delete_dragging l i x Hi Hx) as Hd.
    cbn [mbind option_bind].
    assert (Hsome : ∃ p, candidatePosition j (delete i l) = Some p).
    { rewrite <- Hd in Hj. clear -Hj. revert j Hj.
      induction (delete i l) as [|y r IH]; intros j Hj; [done|].
      rewrite filter_cons in Hj. cbn [candidatePosition].
      destruct (contains "dragging" (classList y)) eqn:Hy.
      - rewrite decide_False in Hj by done.
        destruct (IH j Hj) as [q ->]. by eexists.
      - rewrite decide_True in Hj by done. destruct j as [|j]; [by eexists|].
        cbn in Hj. destruct (IH j Hj) as [q ->]. by eexists. }
    destruct Hsome as [p Hp]. rewrite Hp.
    destruct (candidatePosition_spec _ _ _ Hp) as (H1 & H2 & H3).
    rewrite Hd in H1, H2.
    exists p.
    assert (Hlen : length (take p (delete i l)) = p) by (rewrite length_take; lia).
    split; [|split].
    + rewrite lookup_app_r by lia. by rewrite Hlen, Nat.sub_diag.
    + rewrite lookup_app_r by lia. rewrite Hlen.
      replace (S p - p)%nat with 1%nat by lia. rewrite lookup_cons.
      rewrite lookup_drop, Nat.add_0_r. by rewrite H1.
    + rewrite take_app_length' by done. done.
Qed.

Lemma dragOver_moves_one_task_witness :
  ∃ p, dragOver (Some 0%nat) [plainTask; reportTask; dragStart pausedTask] !! p
       = Some (dragStart pausedTask)
       ∧ dragOver (Some 0%nat) [plainTask; reportTask; dragStart pausedTask] !! S p
         = Some plainTask.
Proof.
  destruct (dragOver_moves_one_task (Some 0%nat) [plainTask; reportTask; dragStart pausedTask])
    as (_ & _ & H).
  destruct (H 2%nat (dragStart pausedTask) 0%nat plainTask) as (p & H1 & H2 & _).
  - by vm_compute.
  - reflexivity.
  - by vm_compute.
  - exists p. by split.
Defined.

(** ** The percentage of the progress bar *)

(** [percent] on small lists: the quotient is rounded to a double before it
    is multiplied, so 23 of 40 gives 57 where the exact value 57.5 would
    round to 58. *)
Lemma percent_examples :
  percent 0 0 = 0%nat ∧ percent 0 4 = 0%nat ∧ percent 1 3 = 33%nat ∧ percent 2 3 = 67%nat
  ∧ percent 1 8 = 13%nat ∧ percent 23 40 = 57%nat ∧ percent 29 40 = 73%nat
  ∧ percent 40 40 = 100%nat.
Proof. by vm_compute. Qed.

(** ** The markers of the parser and of the spec *)

(** Away from four characters the marker pattern of the script is the one
    the spec describes: an ordinal or one of the bullets, then white space. *)
Lemma listRegex_matches_spec (line : jsstring) :
  contested line = false → listRegex_test line = specListItem line.
Proof.
  unfold contested, listRegex_test, specListItem, afterMarker.
  destruct (trimStart line) as [|c r] eqn:Hs; [done|]. intros Hc.
  destruct (takeDigits (c :: r)) as [|d ds] eqn:Hd; [|done].
  unfold isBullet, specBullet.
  destruct (N.eqb_spec c 8226), (N.eqb_spec c 226), (N.eqb_spec c 8364),
    (N.eqb_spec c 162); try done.
  by rewrite !orb_false_r.
Qed.

(** C8. A line that starts with the bullet U+2022 and white space is a list
    item by the spec, and the parser takes it as description text; a line
    that starts with one of U+00E2, U+20AC, U+00A2 and white space is no list
    item, and the parser takes it as a step.  The class of the marker pattern
    in the script holds these three characters where the bullet belongs. *)
Theorem bullet_lines_are_not_list_items (line : jsstring) (c w : N) (rest : jsstring) :
  trimStart line = c :: w :: rest → isWhiteSpace w = true →
  (c = 8226%N → specListItem line = true ∧ listRegex_test line = false)
  ∧ (c ∈ [226; 8364; 162]%N → specListItem line = false ∧ listRegex_test line = true).
Proof.
  intros Hs Hw. unfold listRegex_test, specListItem, afterMarker. rewrite Hs.
  split.
  - intros ->. cbn -[isWhiteSpace]. by rewrite Hw.
  - intros Hc. set_unfold in Hc.
    destruct_or!; subst c; try done; cbn -[isWhiteSpace]; by rewrite Hw.
Qed.

Lemma bullet_lines_are_not_list_items_witness :
  let bullet := [8226; 32; 101; 103; 103; 115]%N in
  let euro := [8364; 32; 53]%N in
  (specListItem bullet = true ∧ listRegex_test bullet = false)
  ∧ subSteps (smartParsePaste (js "Buy milk" ++ LF ++ bullet)) = []
  ∧ description (smartParsePaste (js "Buy milk" ++ LF ++ bullet))
    = js "Buy milk" ++ LF ++ bullet
  ∧ subSteps (smartParsePaste (js "Buy milk" ++ LF ++ euro)) = [euro].
Proof.
  intros bullet euro. split; [|by vm_compute].
  apply (bullet_lines_are_not_list_items bullet 8226 32 [101; 103; 103; 115]%N);
    reflexivity.
Defined.

(** ** The day of today *)

Lemma stringOfN_four n :
  (1000 ≤ n ≤ 9999)%N →
  ∃ a b c d, stringOfN n = [a; b; c; d].
Proof.
  intros Hn. unfold stringOfN.
  assert (Hlog : (9 ≤ N.log2 n)%N).
  { change 9%N with (N.log2 512). apply N.log2_le_mono. lia. }
  destruct (N.to_nat (N.log2 n)) as [|[|[|fuel]]] eqn:Hf; try lia.
  cbn [digitsOf].
  rewrite (proj2 (N.ltb_ge n 10)) by lia.
  assert (100 ≤ (n / 10) < 1000)%N as H1.
  { split; [apply N.div_le_lower_bound; lia|apply N.Div0.div_lt_upper_bound; lia]. }
  rewrite (proj2 (N.ltb_ge ((n / 10)) 10)) by lia.
  assert (10 ≤ (n / 10 / 10) < 100)%N as H2.
  { split; [apply N.div_le_lower_bound; lia|apply N.Div0.div_lt_upper_bound; lia]. }
  rewrite (proj2 (N.ltb_ge ((n / 10 / 10)) 10)) by lia.
  assert ((n / 10 / 10 / 10) < 10)%N as H3.
  { apply N.Div0.div_lt_upper_bound; lia. }
  rewrite (proj2 (N.ltb_lt _ 10) H3). by eexists _, _, _, _.
Qed.

Lemma twoDigits_value a b :
  isDigit a = true → isDigit b = true →
  Date.twoDigits a b = Some (digitsValue 0 [a; b]).
Proof.
  intros Ha Hb. unfold Date.twoDigits. rewrite Ha, Hb. cbn. f_equal.
Qed.

Lemma twoDigits_inj a b a' b' v :
  Date.twoDigits a b = Some v → Date.twoDigits a' b' = Some v → a = a' ∧ b = b'.
Proof.
  unfold Date.twoDigits, digitValue.
  destruct (isDigit a) eqn:Ha, (isDigit b) eqn:Hb, (isDigit a') eqn:Ha',
    (isDigit b') eqn:Hb'; try done.
  apply isDigit_spec in Ha, Hb, Ha', Hb'. cbn [andb].
  intros [= <-] [= Hv]. lia.
Qed.

Lemma twoDigits_range a b v : Date.twoDigits a b = Some v → 0 ≤ v ≤ 99.
Proof.
  unfold Date.twoDigits, digitValue.
  destruct (isDigit a) eqn:Ha, (isDigit b) eqn:Hb; try done.
  apply isDigit_spec in Ha, Hb. cbn [andb]. intros [= <-]. lia.
Qed.

(** Two date strings that name the same day are the same string. *)
Lemma parseDate_inj s s' t :
  Date.parseDate s = Some t → Date.parseDate s' = Some t → s = s'.
Proof.
  intros Hs Hs'.
  do 11 (destruct s as [|? s]; try done). do 11 (destruct s' as [|? s']; try done).
  unfold Date.parseDate in Hs, Hs'.
  repeat match type of Hs with
  | context [(?x =? 45)%N] => destruct (N.eqb_spec x 45); [subst|done]
  end.
  repeat match type of Hs' with
  | context [(?x =? 45)%N] => destruct (N.eqb_spec x 45); [subst|done]
  end.
  cbn [andb] in Hs, Hs'.
  repeat match type of Hs with
  | context [Date.twoDigits ?x ?y] => destruct (Date.twoDigits x y) eqn:?; [|done]
  end.
  repeat match type of Hs' with
  | context [Date.twoDigits ?x ?y] => destruct (Date.twoDigits x y) eqn:?; [|done]
  end.
  cbv zeta in Hs, Hs'.
  repeat case_match; try done. simplify_eq.
  repeat match goal with
  | H1 : Date.twoDigits ?a ?b = Some ?v, H2 : Date.twoDigits ?a' ?b' = Some ?v |- _ =>
      destruct (twoDigits_inj _ _ _ _ _ H1 H2) as [-> ->]; clear H2
  end.
  assert (z = z3 ∧ z0 = z4) as [-> ->].
  { pose proof (twoDigits_range _ _ _ Heqo0). pose proof (twoDigits_range _ _ _ Heqo4).
    lia. }
  repeat match goal with
  | H1 : Date.twoDigits ?a ?b = Some ?v, H2 : Date.twoDigits ?a' ?b' = Some ?v |- _ =>
      destruct (twoDigits_inj _ _ _ _ _ H1 H2) as [-> ->]; clear H2
  end.
  done.
Qed.

(** The text that [autoClassifyTask] compares the deadline with names the
    day of today, as the date field writes it. *)
Lemma todayString_sameDay now : validDay now → sameDay now (todayString now).
Proof.
  intros ((Hy1 & Hy2) & (Hm1 & Hm2) & (Hd1 & Hd2)). unfold sameDay, todayString.
  assert (Hdm : Date.daysInMonth (fullYear now) (month now + 1) ≤ 31).
  { unfold Date.daysInMonth. repeat case_match; lia. }
  unfold String_.
  rewrite (proj2 (Z.ltb_ge (fullYear now) 0)), (proj2 (Z.ltb_ge (month now + 1) 0)),
    (proj2 (Z.ltb_ge (date now) 0)) by lia.
  set (y := Z.to_N (fullYear now)). set (m := Z.to_N (month now + 1)).
  set (d := Z.to_N (date now)).
  destruct (stringOfN_four y) as (y1 & y2 & y3 & y4 & Hy); [lia|].
  pose proof (stringOfN_digits y) as Dy. pose proof (stringOfN_value y) as Vy.
  rewrite Hy in Dy, Vy |- *.
  pose proof (padStart2_digits _ (stringOfN_digits m)) as Dm.
  pose proof (padded_value m) as Vm.
  pose proof (padStart2_length_small m ltac:(lia)) as Lm.
  pose proof (padStart2_digits _ (stringOfN_digits d)) as Dd.
  pose proof (padded_value d) as Vd.
  pose proof (padStart2_length_small d ltac:(lia)) as Ld.
  destruct (padStart2 (stringOfN m)) as [|m1 [|m2 [|? ?]]]; try done.
  destruct (padStart2 (stringOfN d)) as [|d1 [|d2 [|? ?]]]; try done.
  cbn [app js list_ascii_of_string fmap list_fmap N_of_ascii N_of_digits].
  change (N_of_ascii "-") with 45%N.
  unfold Date.parseDate. cbn [N.eqb Pos.eqb andb].
  apply Forall_cons in Dy as [Y1 Dy]. apply Forall_cons in Dy as [Y2 Dy].
  apply Forall_cons in Dy as [Y3 Dy]. apply Forall_cons in Dy as [Y4 _].
  apply Forall_cons in Dm as [M1 Dm]. apply Forall_cons in Dm as [M2 _].
  apply Forall_cons in Dd as [D1 Dd]. apply Forall_cons in Dd as [D2 _].
  rewrite (twoDigits_value y1 y2), (twoDigits_value y3 y4), (twoDigits_value m1 m2),
    (twoDigits_value d1 d2) by done.
  rewrite Vm, Vd. cbv zeta.
  assert (Hyear : 100 * digitsValue 0 [y1; y2] + digitsValue 0 [y3; y4] = fullYear now).
  { cbn [digitsValue] in Vy |- *. lia. }
  rewrite Hyear. subst m d. rewrite !Z2N.id by lia.
  rewrite (proj2 (Z.leb_le 1 (month now + 1))), (proj2 (Z.leb_le (month now + 1) 12)),
    (proj2 (Z.leb_le 1 (date now))), (proj2 (Z.leb_le (date now) _) Hd2) by lia.
  done.
Qed.

(** A deadline of the date field is the text of today exactly when it names
    the day of today. *)
Lemma deadline_is_today now deadline :
  validDay now → (deadline = todayString now ↔ sameDay now deadline).
Proof.
  intros Hnow. split.
  - intros ->. by apply todayString_sameDay.
  - intros Hd. eapply parseDate_inj; [exact Hd|]. by apply todayString_sameDay.
Qed.


(** ** Classification that never runs *)

Lemma unclassified_keeps (f : TaskLi → TaskLi) li :
  (∀ k, k ∈ ["isUrgent"; "isImportant"] → dataset (f li) !! k = dataset li !! k) →
  unclassified li → unclassified (f li).
Proof.
  intros Hf [Hu Hi]. unfold unclassified. rewrite !Hf by set_solver. done.
Qed.

Ltac flag_key Hk := set_unfold in Hk; destruct Hk as [->|[->|[]]].

Lemma unclassified_collapseClick li : unclassified li → unclassified (collapseClick li).
Proof. done. Qed.

Lemma unclassified_dragStart li : unclassified li → unclassified (dragStart li).
Proof. done. Qed.

Lemma unclassified_dragEnd li : unclassified li → unclassified (dragEnd li).
Proof. done. Qed.

Lemma unclassified_etaInputChange v li :
  unclassified li → unclassified (etaInputChange v li).
Proof.
  apply unclassified_keeps. intros k Hk. apply etaInputChange_other.
  by flag_key Hk.
Qed.

Lemma unclassified_descInput v li : unclassified li → unclassified (descInput v li).
Proof.
  apply unclassified_keeps. intros k Hk. unfold descInput. flag_key Hk; keeps_id.
Qed.

Lemma unclassified_startTimer (li : TaskLi) : unclassified li → unclassified (startTimer li).
Proof.
  apply unclassified_keeps. intros k Hk. unfold startTimer. cbn.
  destruct (timerInterval li); flag_key Hk; keeps_id.
Qed.

Lemma unclassified_pauseTimer (li : TaskLi) : unclassified li → unclassified (pauseTimer li).
Proof.
  apply unclassified_keeps. intros k Hk. unfold pauseTimer. cbn. flag_key Hk; keeps_id.
Qed.

Lemma unclassified_resetTimer (li : TaskLi) : unclassified li → unclassified (resetTimer li).
Proof.
  apply unclassified_keeps. intros k Hk. unfold resetTimer, pauseTimer. cbn.
  flag_key Hk; keeps_id.
Qed.

Lemma unclassified_tick (li : TaskLi) : unclassified li → unclassified (tick li).
Proof.
  apply unclassified_keeps. intros k Hk. unfold tick. cbn.
  destruct (timerInterval li); flag_key Hk; keeps_id.
Qed.

Lemma unclassified_applyDeadline v li :
  unclassified li → unclassified (applyDeadline v li).
Proof.
  apply unclassified_keeps. intros k Hk. unfold applyDeadline.
  destruct v; flag_key Hk; keeps_id.
Qed.

Lemma unclassified_finishInlineEdit save v li :
  unclassified li → unclassified (finishInlineEdit save v li).
Proof.
  apply unclassified_keeps. intros k Hk. unfold finishInlineEdit.
  destruct save, (trim v); flag_key Hk; keeps_id.
Qed.

Lemma dataset_substepEvent e c li : dataset (substepEvent e c li).2 = dataset li.
Proof.
  destruct e as [v|steps|i|i]; cbn [substepEvent].
  - unfold addSubFromInput. destruct (trim v); cbn [snd]; keeps_id.
  - unfold addSubstepsToTask. destruct steps; [done|].
    destruct (appendSubsteps _ _ _). cbn [snd]. keeps_id.
  - unfold substepCheckboxClick. destruct (substeps li !! i); cbn [snd]; keeps_id.
  - unfold substepDeleteClick. destruct (substeps li !! i); cbn [snd]; keeps_id.
Qed.

Lemma unclassified_taskCheckboxClick i l :
  Forall unclassified l → Forall unclassified (taskCheckboxClick i l).
Proof.
  intros Hl. unfold taskCheckboxClick. destruct (l !! i) as [li|] eqn:Hi; [|done].
  pose proof (Forall_lookup_1 _ _ _ _ Hl Hi) as Hli. cbv zeta.
  set (li' := set_classList _ _).
  assert (Hl' : Forall unclassified (<[i:=li']> l)) by by apply Forall_insert.
  destruct (negb (checkbox li)); [|done].
  by rewrite moveCompletedTaskToBottom_perm.
Qed.

(** A task as [addTask] and the paste handler build it is not classified. *)
Lemma unclassified_new counter t description :
  let li0 := createTaskElement t (js "medium") [] in
  let li1 :=
    match description with
    | [] => li0
    | _ => set_desc (textareaValue description)
             (set_dataset (<["description":=description]> (dataset li0)) li0)
    end in
  unclassified (attachTaskEventHandlers counter li1).2.
Proof.
  intros li0 li1.
  destruct (createTaskElement_fields t (js "medium") []) as (_ & _ & _ & _ & Hu & Hi & _).
  fold li0 in Hu, Hi.
  destruct (attachTaskEventHandlers_fields counter li1) as (_ & _ & Ad & _).
  unfold unclassified. rewrite (Ad "isUrgent"), (Ad "isImportant") by done.
  subst li1. destruct description; [done|].
  cbn [dataset set_desc set_dataset]. by rewrite !lookup_insert_ne.
Qed.

Lemma unclassified_addTask value counter l :
  Forall unclassified l → Forall unclassified (addTask value counter l).2.
Proof.
  intros Hl. unfold addTask. destruct (trim value) as [|a t]; [done|].
  pose proof (unclassified_new counter (a :: t) []) as Hn. cbv zeta in Hn.
  destruct (attachTaskEventHandlers counter _) as [c1 li]. cbn [snd] in *.
  rewrite sortTasks_perm. apply Forall_app. split; [done|by constructor].
Qed.

Lemma unclassified_createTaskWithSubsteps title description steps counter l :
  Forall unclassified l →
  Forall unclassified (createTaskWithSubsteps title description steps counter l).2.
Proof.
  intros Hl. unfold createTaskWithSubsteps. destruct title as [|a t]; [done|].
  pose proof (unclassified_new counter (a :: t) description) as Hn. cbv zeta in Hn.
  destruct (attachTaskEventHandlers counter _) as [c1 li].
  pose proof (dataset_substepEvent (AddMany steps) c1 li) as Hd. cbn [substepEvent] in Hd.
  destruct (addSubstepsToTask steps c1 li) as [c2 li2]. cbn [snd] in *.
  unfold sortByUrgency. rewrite sort_perm. apply Forall_app. split; [done|].
  constructor; [|done]. unfold unclassified in *. by rewrite Hd.
Qed.

Lemma unclassified_reload l :
  Forall storedTask l → Forall unclassified l →
  Forall unclassified (loadTasks (Some (saveTasks l)) 0 []).2.
Proof.
  intros Hs Hl. cbn [loadTasks].
  destruct (loadAll_restores l 0 [] Hs) as (l' & -> & Hr). cbn [snd app].
  clear Hs. induction Hr as [|li li' l l' H1 _ IH]; [done|].
  apply Forall_cons in Hl as [[Hu Hi] Hl]. constructor; [|by apply IH].
  destruct H1 as (Hk & _). unfold unclassified.
  pose proof (Hk "isUrgent" ltac:(set_solver)) as Ku.
  pose proof (Hk "isImportant" ltac:(set_solver)) as Ki.
  unfold attr in Ku, Ki. rewrite Hu in Ku. rewrite Hi in Ki.
  split.
  - destruct (dataset li' !! "isUrgent") as [[|c s]|]; cbv in Ku; try discriminate Ku.
    by rewrite Ku.
  - destruct (dataset li' !! "isImportant") as [[|c s]|]; cbv in Ki; try discriminate Ki.
    by rewrite Ki.
Qed.

Lemma step_unclassified ev counter l :
  notManual ev = true → Forall goodTask l → Forall unclassified l →
  Forall unclassified (step ev (counter, l)).2.
Proof.
  intros Hev Hg Hl.
  destruct ev as [value|pasted|i|i checked|i checked|i|i save value|i value|i value|i value|i|i|after|i|i|i|i|i|i e|i j value|i j|i j| | |taskId quadrant| ];
    cbn [step snd]; try discriminate Hev.
  - by apply unclassified_addTask.
  - case_bool_decide; [|done]. by apply unclassified_createTaskWithSubsteps.
  - apply Forall_onTask; [apply unclassified_collapseClick|done].
  - by apply unclassified_taskCheckboxClick.
  - apply Forall_onTask; [apply unclassified_finishInlineEdit|done].
  - apply Forall_onTaskThen; [apply unclassified_applyDeadline| |done].
    intros l0 H0. by apply Forall_sort.
  - apply Forall_onTask; [apply unclassified_etaInputChange|done].
  - apply Forall_onTask; [apply unclassified_descInput|done].
  - by apply Forall_delete.
  - apply Forall_onTask; [apply unclassified_dragStart|done].
  - by rewrite dragOver_perm.
  - apply Forall_onTask; [apply unclassified_dragEnd|done].
  - apply Forall_onTask; [apply unclassified_startTimer|done].
  - apply Forall_onTask; [apply unclassified_pauseTimer|done].
  - apply Forall_onTask; [apply unclassified_resetTimer|done].
  - apply Forall_onTask; [apply unclassified_tick|done].
  - destruct (l !! i) as [li|] eqn:Hi; [|done].
    pose proof (Forall_lookup_1 _ _ _ _ Hl Hi) as Hli.
    pose proof (dataset_substepEvent e counter li) as Hd.
    destruct (substepEvent e counter li) as [c1 li1]. cbn [snd] in *.
    apply Forall_insert; [done|]. unfold unclassified in *. by rewrite Hd.
  - unfold onSubstep. apply Forall_alter; [done|]. by intros li _ Hli.
  - unfold onSubstep. apply Forall_alter; [done|]. by intros li _ Hli.
  - unfold onSubstep. apply Forall_alter; [done|]. by intros li _ Hli.
  - by apply Forall_sort.
  - by apply Forall_sort.
  - apply unclassified_reload; [|done].
    eapply Forall_impl; [exact Hg|]. by intros li [Hst _].
Qed.

(** C4. The automatic classification is never carried out: no handler of
    the page calls [autoClassifyTask].  Whatever estimates and deadlines are
    entered, a task that the user does not classify by hand keeps the two
    flags it was created with and stays in the cell Eliminate, through
    reloads too. *)
Theorem unclassified_tasks_stay_in_eliminate (evs : list Event) :
  forallb notManual evs = true →
  Forall (λ li, unclassified li ∧ targetCell li = Eliminate) (run evs).2.
Proof.
  intros Hevs.
  assert (H : ∀ st, Forall goodTask st.2 → Forall unclassified st.2 →
                    forallb notManual evs = true →
                    Forall unclassified (foldl (λ st ev, step ev st) st evs).2).
  { clear Hevs. induction evs as [|ev evs IH]; intros st Hg Hst Hevs; [done|].
    cbn [foldl forallb] in *. apply andb_prop in Hevs as [Hev Hevs].
    destruct st as [c l]. apply IH; [by apply step_good|by apply step_unclassified|done]. }
  eapply Forall_impl; [apply (H (0%N, [])); [constructor|constructor|done]|].
  intros li [Hu Hi]. split; [done|]. unfold targetCell. by rewrite Hu, Hi.
Qed.

Lemma unclassified_tasks_stay_in_eliminate_witness :
  let evs := [AddTaskEv (js "Call the bank"); EtaEv 0 (js "10")] in
  Forall (λ li, unclassified li ∧ targetCell li = Eliminate) (run evs).2
  ∧ (estimate <$> (run evs).2) = [Some 10]
  ∧ ((λ li, dataset li !! "deadline") <$> (run evs).2) = [None]
  ∧ ((λ li, targetCell (autoClassifyTask {| fullYear := 2026; month := 2; date := 5 |} li))
       <$> (run evs).2) = [Delegate].
Proof.
  intros evs. split; [|by vm_compute].
  apply unclassified_tasks_stay_in_eliminate. reflexivity.
Defined.

(** What [autoClassifyTask] would write for a deadline of the date field:
    the task is urgent exactly when its estimate is below 60 minutes or its
    deadline names the day of today. *)
Lemma autoClassify_today now li :
  validDay now →
  dataset (autoClassifyTask now li) !! "isUrgent" = Some (js "true")
  ↔ estimateBelow 60 li = true ∨ sameDay now (attr (dataset li) "deadline").
Proof.
  intros Hnow. destruct (proj1 autoClassify_spec now li) as [_ Hu].
  cbv zeta in Hu. rewrite Hu. rewrite <- (deadline_is_today now) by done.
  destruct (estimateBelow 60 li); cbn [orb String_bool].
  - split; [by left|done].
  - case_bool_decide; cbn [String_bool]; split; try done; [by right|].
    by intros [|].
Qed.

Lemma autoClassify_today_examples :
  let now := {| fullYear := 2026; month := 2; date := 5 |} in
  todayString now = js "2026-03-05"
  ∧ dataset (autoClassifyTask now (dueTask "A" "medium" "2026-03-05")) !! "isUrgent"
    = Some (js "true")
  ∧ dataset (autoClassifyTask now (dueTask "A" "medium" "2026-03-06")) !! "isUrgent"
    = Some (js "false")
  ∧ todayString {| fullYear := 2026; month := 11; date := 31 |} = js "2026-12-31".
Proof. by vm_compute. Qed.

(** ** Loading any stored array *)

(** The record with the fields of a stored object, the description as the
    text area gives it and the given sub-steps. *)
Lemma loadSubsteps_Some subs l :
  loadSubsteps subs = Some l ↔ ∃ recs, subs = Some <$> recs ∧ l = loadSubstep <$> recs.
Proof.
  revert l. induction subs as [|[s|] subs IH]; intros l; cbn [loadSubsteps].
  - split.
    + intros [= <-]. by exists [].
    + intros (recs & Hs & ->). by destruct recs.
  - destruct (loadSubsteps subs) as [l0|]; cbn.
    + split.
      * intros [= <-]. destruct (proj1 (IH l0) eq_refl) as (recs & -> & ->).
        by exists (s :: recs).
      * intros ([|s' recs] & Hs & ->); [done|]. injection Hs as -> ->.
        f_equal. cbn. f_equal. destruct (proj1 (IH l0) eq_refl) as (recs' & Hr & ->).
        apply (inj (fmap Some)) in Hr. by subst.
    + split; [done|]. intros ([|s' recs] & Hs & ->); [done|]. injection Hs as -> ->.
      assert (None = Some (loadSubstep <$> recs)) as [=]. apply IH. by eexists.
  - split; [done|]. by intros ([|s' recs] & Hs & ->).
Qed.

Lemma loadSubsteps_None subs :
  loadSubsteps subs = None ↔ ¬ Forall is_Some subs.
Proof.
  induction subs as [|[s|] subs IH]; cbn [loadSubsteps].
  - split; [done|]. intros H. by destruct H.
  - destruct (loadSubsteps subs); cbn.
    + split; [done|]. intros H.
      assert (Hn : ¬ Forall is_Some subs) by (intros Hs; apply H; by constructor).
      by apply IH in Hn.
    + split; [|done]. intros _ [_ Hs]%Forall_cons. by apply (proj1 IH).
  - split; [|done]. intros _ [[? [=]] _]%Forall_cons.
Qed.

Lemma attachTaskEventHandlers_set_desc counter d li :
  dataset li !! "description" = None →
  attachTaskEventHandlers counter (set_desc d li)
  = ((attachTaskEventHandlers counter li).1,
     set_desc d (attachTaskEventHandlers counter li).2).
Proof.
  intros Hd. unfold attachTaskEventHandlers. cbn [dataset set_desc]. rewrite Hd.
  cbn [truthy]. rewrite updateSubstepSummary_set_desc.
  cbn [dataset set_desc]. by destruct (truthy _).
Qed.

Lemma restoreTask_text_desc r :
  text (restoreTask r) = or_else (Some (r_text r)) (js "Untitled")
  ∧ desc (restoreTask r) = r_desc r.
Proof.
  destruct r as [id txt dsc dl eta cpl urg imp el col subs].
  destruct id as [|c0 i0]; destruct txt as [|c6 t6];
    destruct dl as [|c1 d1]; destruct eta as [|c2 e2]; destruct cpl; destruct col;
    vm_compute; split; reflexivity.
Qed.

(** On an entry whose sub-steps are all objects the load is that of the
    record with the same fields, but for the description, which the text
    area normalises. *)
Lemma loadStoredTask_loadTask counter t recs :
  s_substeps t = Some <$> recs →
  let r := {| r_id := s_id t; r_text := s_text t; r_desc := s_desc t;
              r_deadline := s_deadline t; r_etaMin := s_etaMin t;
              r_completed := s_completed t; r_isUrgent := s_isUrgent t;
              r_isImportant := s_isImportant t; r_elapsedMs := s_elapsedMs t;
              r_collapsed := s_collapsed t; r_substeps := recs |} in
  loadStoredTask counter t
  = ((loadTask counter r).1,
     Some (set_desc (textareaValue (s_desc t)) (loadTask counter r).2)).
Proof.
  intros Hs r. unfold loadStoredTask, loadTask.
  rewrite (proj2 (loadSubsteps_Some (s_substeps t) (loadSubstep <$> recs)))
    by by exists recs.
  assert (Hr : restoreTask r = restoreTask (fieldsOf t)) by reflexivity.
  assert (Hd : desc (restoreTask r) = s_desc t) by apply restoreTask_text_desc.
  rewrite <- Hr, Hd.
  destruct (restoreTask_stored r) as (_ & Hdesc & _). cbv zeta in Hdesc.
  change (r_substeps r) with recs.
  generalize dependent (restoreTask r). intros li0 _ _ Hdesc.
  rewrite attachTaskEventHandlers_set_desc by done.
  destruct (attachTaskEventHandlers counter li0) as [c1 li1]. cbn [fst snd].
  f_equal. f_equal. rewrite <- updateSubstepSummary_set_desc. by destruct li1.
Qed.

Lemma storedTask_set_desc d li : storedTask (set_desc d li) ↔ storedTask li.
Proof. done. Qed.

Lemma loadStoredTask_counter counter t :
  (loadStoredTask counter t).1 = (loadTask counter (fieldsOf t)).1.
Proof.
  unfold loadStoredTask, loadTask.
  destruct (restoreTask_stored (fieldsOf t)) as (_ & Hdesc & _). cbv zeta in Hdesc.
  rewrite attachTaskEventHandlers_set_desc by done.
  destruct (attachTaskEventHandlers counter _) as [c1 li1]. cbn [fst snd].
  by destruct (loadSubsteps _).
Qed.

Lemma loadStoredTask_sound counter t :
  (counter ≤ (loadStoredTask counter t).1)%N
  ∧ (s_id t ≠ [] → (loadStoredTask counter t).1 = counter)
  ∧ match (loadStoredTask counter t).2 with
    | Some li =>
        Forall is_Some (s_substeps t)
        ∧ storedTask li ∧ rolledUp li ∧ checkboxInSync li
        ∧ text li = or_else (Some (s_text t)) (js "Untitled")
        ∧ desc li = textareaValue (s_desc t)
        ∧ length (substeps li) = length (s_substeps t)
    | None => ¬ Forall is_Some (s_substeps t)
    end.
Proof.
  rewrite loadStoredTask_counter.
  pose proof (loadTask_sound counter (fieldsOf t)) as (_ & _ & _ & _ & Hle0 & Hid0 & _).
  split; [done|]. split; [exact Hid0|].
  destruct (loadSubsteps (s_substeps t)) as [l|] eqn:Hl.
  - apply loadSubsteps_Some in Hl as (recs & Hs & ->).
    rewrite (loadStoredTask_loadTask counter t recs Hs). cbv zeta. cbn [fst snd].
    set (r := Build_TaskRecord _ _ _ _ _ _ _ _ _ _ _).
    pose proof (loadTask_sound counter r) as (Hst & Hru & Hcb & _ & Hle & Hid & Hlen).
    assert (Htxt : text (loadTask counter r).2 = or_else (Some (s_text t)) (js "Untitled")).
    { unfold loadTask.
      pose proof (attachTaskEventHandlers_fields counter (restoreTask r)) as (Ht & _).
      destruct (attachTaskEventHandlers counter (restoreTask r)) as [c1 li1].
      cbn [snd] in *. rewrite text_updateSubstepSummary. cbn [text set_substeps].
      rewrite Ht. apply (restoreTask_text_desc r). }
    destruct (loadTask counter r) as [c1 li]. cbn [fst snd] in *.
    split; [rewrite Hs; apply Forall_fmap, Forall_true; by eexists|].
    split; [exact Hst|]. split; [exact Hru|]. split; [exact Hcb|].
    split; [exact Htxt|]. split; [reflexivity|].
    cbn [substeps set_desc]. rewrite Hlen, Hs. by rewrite length_fmap.
  - unfold loadStoredTask. rewrite Hl.
    destruct (attachTaskEventHandlers counter _) as [c1 li1]. cbn [fst snd].
    by apply loadSubsteps_None.
Qed.

Lemma loadEntries_sound entries : ∀ counter acc,
  ∃ l', (loadEntries entries counter acc).2 = acc ++ l'
        ∧ Forall2 (λ t li, text li = or_else (Some (s_text t)) (js "Untitled")
                           ∧ desc li = textareaValue (s_desc t)
                           ∧ length (substeps li) = length (s_substeps t))
            (loadable entries) l'
        ∧ Forall (λ li, storedTask li ∧ rolledUp li ∧ checkboxInSync li) l'
        ∧ (counter ≤ (loadEntries entries counter acc).1)%N
        ∧ (Forall (λ e, ∃ t, e = Some t ∧ s_id t ≠ []) entries →
           (loadEntries entries counter acc).1 = counter).
Proof.
  induction entries as [|[t|] entries IH]; intros counter acc.
  - exists []. cbn. rewrite app_nil_r. repeat split; (done || lia || constructor).
  - cbn [loadEntries loadable].
    pose proof (loadStoredTask_sound counter t) as (Hle & Hid & Hli).
    destruct (loadStoredTask counter t) as [c1 [li|]] eqn:Hl; cbn [fst snd] in *.
    + destruct Hli as (Hsome & Hst & Hru & Hcb & Ht & Hd & Hlen).
      rewrite bool_decide_true by done.
      destruct (IH c1 (acc ++ [li])) as (l' & Heq & H2 & Hall & Hle' & Hid').
      exists (li :: l'). rewrite Heq, <- app_assoc.
      split; [done|]. split; [by constructor|]. split; [by constructor|].
      split; [lia|].
      intros [(t' & [= <-] & Ht') Hrest]%Forall_cons. rewrite Hid' by done. by apply Hid.
    + rewrite bool_decide_false by done. exists []. rewrite app_nil_r.
      split; [done|]. split; [constructor|]. split; [constructor|]. split; [done|].
      intros [(t' & [= <-] & Ht') Hrest]%Forall_cons. by apply Hid.
  - exists []. cbn. rewrite app_nil_r. repeat split; (done || lia || constructor).
Qed.

(** X7. Whatever array the stored item holds, with entries that are
    objects of the fields [saveTasks] writes or [null], [loadTasks] empties
    the list and builds one task for each entry before the first that is
    [null] or holds a sub-step that is [null]: there the load stops and the
    later entries are not loaded.  Every task built has the name and the
    description of its entry, the description as the text area gives it
    back, and as many sub-steps; it has an id, a name and its three stored
    attributes, its [completed] class is the roll-up of its sub-steps and its
    checkbox agrees with the class.  The id counter never goes down and stays
    put when every entry is an object with an id. *)
Theorem loadStored_any_entries (entries : list (option StoredTask)) (counter : N)
    (old : list TaskLi) :
  let loaded := (loadStored (Entries entries) counter old).2 in
  let counter' := (loadStored (Entries entries) counter old).1 in
  Forall2 (λ t li, text li = or_else (Some (s_text t)) (js "Untitled")
                   ∧ desc li = textareaValue (s_desc t)
                   ∧ length (substeps li) = length (s_substeps t))
    (loadable entries) loaded
  ∧ Forall (λ li, storedTask li ∧ rolledUp li ∧ checkboxInSync li) loaded
  ∧ (counter ≤ counter')%N
  ∧ (Forall (λ e, ∃ t, e = Some t ∧ s_id t ≠ []) entries → counter' = counter).
Proof.
  cbn [loadStored].
  destruct (loadEntries_sound entries counter []) as (l' & Heq & H2 & Hall & Hle & Hid).
  rewrite Heq. cbn [app]. done.
Qed.

(** A stored item that is absent, unparsable or no array leaves the list and
    the counter as they are. *)
Lemma loadStored_no_array raw counter old :
  (∀ entries, raw ≠ Entries entries) → loadStored raw counter old = (counter, old).
Proof. intros H. destruct raw; try done. by destruct (H entries). Qed.

(** On the array that [saveTasks] wrote, with descriptions read from text
    areas, [loadStored] is [loadTasks]. *)
Lemma textareaValue_cons c r :
  textareaValue (c :: r)
  = if (c =? 13)%N
    then match r with
         | [] => [10%N]
         | d :: r' => if (d =? 10)%N then 10%N :: textareaValue r'
                      else 10%N :: textareaValue r
         end
    else c :: textareaValue r.
Proof. reflexivity. Qed.

Lemma textareaValue_idemp s : textareaValue (textareaValue s) = textareaValue s.
Proof.
  induction s as [s IH] using (induction_ltof1 _ (@length N)). unfold ltof in IH.
  destruct s as [|c r]; [done|]. rewrite (textareaValue_cons c r).
  destruct (c =? 13)%N eqn:Hc.
  - destruct r as [|d r']; [done|].
    destruct (d =? 10)%N; rewrite (textareaValue_cons 10);
      change (10 =? 13)%N with false; cbv iota; f_equal; apply IH; cbn [length]; lia.
  - rewrite (textareaValue_cons c), Hc. f_equal. apply IH. cbn [length]. lia.
Qed.

Lemma loadEntries_loadAll recs : ∀ counter acc,
  Forall (λ r, textareaValue (r_desc r) = r_desc r) recs →
  loadEntries (Some <$> (storedOf <$> recs)) counter acc = loadAll recs counter acc.
Proof.
  induction recs as [|r recs IH]; intros counter acc Hn; [done|].
  apply Forall_cons in Hn as [Hr Hn].
  cbn [fmap list_fmap loadEntries loadAll].
  change (list_fmap _ _ Some (list_fmap _ _ storedOf recs)) with (Some <$> (storedOf <$> recs)).
  rewrite (loadStoredTask_loadTask counter (storedOf r) (r_substeps r)) by done.
  cbv zeta. cbn [storedOf s_id s_text s_desc s_deadline s_etaMin s_completed s_isUrgent
                 s_isImportant s_elapsedMs s_collapsed].
  replace (Build_TaskRecord _ _ _ _ _ _ _ _ _ _ _) with r by by destruct r.
  destruct (loadTask counter r) as [c1 li] eqn:Hl. cbn [fst snd].
  assert (Hd : desc li = r_desc r).
  { apply (f_equal snd) in Hl. cbn [snd] in Hl. subst li. unfold loadTask.
    pose proof (attachTaskEventHandlers_set_desc counter (desc (restoreTask r)) (restoreTask r)) as Ha.
    destruct (restoreTask_stored r) as (_ & Hdesc & _). cbv zeta in Hdesc.
    specialize (Ha Hdesc). replace (set_desc (desc (restoreTask r)) (restoreTask r))
      with (restoreTask r) in Ha by by destruct (restoreTask r).
    rewrite Ha. cbn [snd]. rewrite desc_updateSubstepSummary. cbn [desc set_substeps set_desc].
    apply (restoreTask_text_desc r). }
  replace (set_desc (textareaValue (r_desc r)) li) with li
    by (rewrite Hr, <- Hd; by destruct li).
  by apply IH.
Qed.

Lemma loadStored_loadTasks recs counter old :
  Forall (λ r, textareaValue (r_desc r) = r_desc r) recs →
  loadStored (Entries (Some <$> (storedOf <$> recs))) counter old
  = loadTasks (Some recs) counter old.
Proof. apply loadEntries_loadAll. Qed.

Lemma loadStored_stops_at_null :
  let t name subs := {| s_id := []; s_text := js name; s_desc := []; s_deadline := [];
                        s_etaMin := []; s_completed := false; s_isUrgent := [];
                        s_isImportant := []; s_elapsedMs := []; s_collapsed := false;
                        s_substeps := subs |} in
  (text <$> (loadStored (Entries [Some (t "A" []); None; Some (t "C" [])]) 0 []).2) = [js "A"]
  ∧ loadStored (Entries [Some (t "A" [None]); Some (t "C" [])]) 0 [] = (1%N, []).
Proof. by vm_compute. Qed.
